(** * Portal Inbox Extension: message synchronisation and read-state reconciliation

    A shallow embedding of the [Data] namespace of
    [portal-inbox-extension.js] (field mapper, read-state reconciler,
    tabular-API adapter and reply composer), followed by the properties
    of the specification that were checked against it.  The relative
    dates of [UI.formatDate], the configuration merge of [Main] and the
    loader [portal-extensions.js] are embedded in the same way, with
    further properties of the code at the end.

    Conventions of the embedding.
    - JavaScript values are the inductive [jsval]; plain objects are
      finite maps from property names to values, arrays are lists.
      Numbers are integers (the sources only carry integer codes and
      millisecond time values); there is no NaN among [jsval]s.
    - A [Date] is represented by its time value, [option Z]: [Some t] is
      the instant [t] in milliseconds since the epoch, [None] is an
      Invalid Date.  Comparisons with an Invalid Date are false.
    - [Date.parse] and [Date.prototype.toISOString] are built-ins of the
      host; the development is parametric in them (class [Host]), and
      [ISO8601] gives the instance used to evaluate examples.
    - The [localStorage] entry [portalInbox_lastCheckedComments] is only
      ever written with [d.toISOString()] for a valid date [d], and read
      back through [new Date(...)]; it is represented by the instant it
      denotes ([None] when the key is absent).
    - A thrown exception is the [Throw] case of [result]; [async]
      functions are run to completion against the responses supplied by
      the environment [Env], and every [fetch] they issue is recorded in
      the trace of the [World].  Console logging is not modelled. *)

From Stdlib Require Import ZArith String Ascii List Lia Bool.
From stdpp Require Import gmap strings list fin_maps pretty.

#[local] Set Warnings "-register-all".
#[local] Open Scope string_scope.
#[local] Open Scope Z_scope.

(** ** JavaScript values *)

Module JS.

Inductive jsval : Type :=
  | VUndef
  | VNull
  | VBool (b : bool)
  | VNum (n : Z)
  | VStr (s : string)
  | VArr (l : list jsval)
  | VObj (o : gmap string jsval).

Inductive exn : Type :=
  | Error (message : string)
  | TypeError (message : string).

Inductive result (A : Type) : Type :=
  | Ok (a : A)
  | Throw (e : exn).
Arguments Ok {A} a.
Arguments Throw {A} e.

Definition bind {A B} (r : result A) (k : A -> result B) : result B :=
  match r with
  | Ok a => k a
  | Throw e => Throw e
  end.

Definition exn_message (e : exn) : string :=
  match e with
  | Error m => m
  | TypeError m => m
  end.

(** [ToBoolean] *)
Definition truthy (v : jsval) : bool :=
  match v with
  | VUndef | VNull => false
  | VBool b => b
  | VNum n => negb (n =? 0)
  | VStr s => negb (String.eqb s "")
  | VArr _ | VObj _ => true
  end.

(** [v === undefined || v === null] *)
Definition nullish (v : jsval) : bool :=
  match v with
  | VUndef | VNull => true
  | _ => false
  end.

(** [a || b] *)
Definition or_else (a b : jsval) : jsval := if truthy a then a else b.

(** [ToString], as used by template literals and by computed property
    names. *)
Fixpoint toStr (v : jsval) : string :=
  match v with
  | VUndef => "undefined"
  | VNull => "null"
  | VBool true => "true"
  | VBool false => "false"
  | VNum n => pretty n
  | VStr s => s
  | VArr l =>
      (fix join (l : list jsval) : string :=
         match l with
         | [] => ""
         | x :: r =>
             let sx := match x with VUndef | VNull => "" | _ => toStr x end in
             match r with
             | [] => sx
             | _ :: _ => sx +:+ "," +:+ join r
             end
         end) l
  | VObj _ => "[object Object]"
  end.

(** Property read [v.k] on a value that is not [undefined] or [null]:
    own properties of objects, [length] of arrays and strings.  The code
    modelled here never reads an array element by index, and it calls
    inherited methods ([find], [map], [filter]) without reading them as
    values; those are modelled where they are called. *)
Definition get (v : jsval) (k : string) : jsval :=
  match v with
  | VObj o => default VUndef (o !! k)
  | VArr l => if String.eqb k "length" then VNum (Z.of_nat (length l)) else VUndef
  | VStr s => if String.eqb k "length" then VNum (Z.of_nat (String.length s)) else VUndef
  | _ => VUndef
  end.

(** Property read [v.k]; reading a property of [undefined] or [null]
    throws a [TypeError] (the wording of its message is the engine's). *)
Definition getprop (v : jsval) (k : string) : result jsval :=
  if nullish v
  then Throw (TypeError ("Cannot read properties of " +:+ toStr v +:+ " (reading '" +:+ k +:+ "')"))
  else Ok (get v k).

(** Optional chaining [v?.k] *)
Definition optchain (v : jsval) (k : string) : jsval :=
  if nullish v then VUndef else get v k.

(** [a === b] on primitives.  Two objects or arrays are equal only when
    they are the same reference; the values compared by the code are
    identifiers and integer codes, and no caller holds a reference into
    a parsed response, so the comparison of two structured values is
    [false]. *)
Definition strict_eq (a b : jsval) : bool :=
  match a, b with
  | VUndef, VUndef => true
  | VNull, VNull => true
  | VBool x, VBool y => Bool.eqb x y
  | VNum x, VNum y => x =? y
  | VStr x, VStr y => String.eqb x y
  | _, _ => false
  end.

End JS.
Export JS.

Notation "x <- r ;; k" := (JS.bind r (fun x => k))
  (at level 100, r at next level, right associativity, only parsing).
Notation "a ||| b" := (JS.or_else a b) (at level 50, left associativity).
Abbreviation obj := (gmap string jsval).

(** Property read on a plain object, [m.k]. *)
Definition prop (m : obj) (k : string) : jsval := default VUndef (m !! k).

(** ** Host built-ins: the [Date] constructor *)

Class Host : Type := {
  (** [Date.parse]: the time value denoted by a string, if any *)
  Date_parse : string -> option Z;
  (** [new Date(t).toISOString()] *)
  toISOString : Z -> string;
}.

(** Time values are clipped to ±8.64e15 ms. *)
Definition TimeClip (t : Z) : option Z :=
  if (Z.abs t <=? 8640000000000000) then Some t else None.

(** [new Date(v)] for a value [v] that is not itself a [Date]. *)
Definition newDate `{Host} (v : jsval) : option Z :=
  match v with
  | VUndef => None
  | VNull => Some 0
  | VBool b => Some (if b then 1 else 0)
  | VNum n => TimeClip n
  | VStr s => Date_parse s
  | VArr _ | VObj _ => Date_parse (toStr v)
  end.

(** [a <= b] and [a > b] on dates: false as soon as one side is invalid. *)
Definition date_le (a b : option Z) : bool :=
  match a, b with
  | Some x, Some y => x <=? y
  | _, _ => false
  end.

Definition date_gt (a b : option Z) : bool :=
  match a, b with
  | Some x, Some y => y <? x
  | _, _ => false
  end.

(** ** ISO 8601 date-time strings

    The instance of [Host] used to run the model on concrete records.
    [parse] reads the UTC forms [YYYY-MM-DD], [YYYY-MM-DDTHH:mm:ssZ] and
    [YYYY-MM-DDTHH:mm:ss.sssZ] (what the tabular API and [toISOString]
    write); any other string is an Invalid Date. *)

Module ISO8601.

Definition days_from_civil (y m d : Z) : Z :=
  let y' := if m <=? 2 then y - 1 else y in
  let era := y' / 400 in
  let yoe := y' - era * 400 in
  let mp := if 2 <? m then m - 3 else m + 9 in
  let doy := (153 * mp + 2) / 5 + d - 1 in
  let doe := yoe * 365 + yoe / 4 - yoe / 100 + doy in
  era * 146097 + doe - 719468.

Definition civil_from_days (z : Z) : Z * Z * Z :=
  let z := z + 719468 in
  let era := z / 146097 in
  let doe := z - era * 146097 in
  let yoe := (doe - doe / 1460 + doe / 36524 - doe / 146096) / 365 in
  let y := yoe + era * 400 in
  let doy := doe - (365 * yoe + yoe / 4 - yoe / 100) in
  let mp := (5 * doy + 2) / 153 in
  let d := doy - (153 * mp + 2) / 5 + 1 in
  let m := if mp <? 10 then mp + 3 else mp - 9 in
  (if m <=? 2 then y + 1 else y, m, d).

Definition is_leap (y : Z) : bool :=
  (y mod 4 =? 0) && (negb (y mod 100 =? 0) || (y mod 400 =? 0)).

Definition days_in_month (y m : Z) : Z :=
  if m =? 2 then (if is_leap y then 29 else 28)
  else if (m =? 4) || (m =? 6) || (m =? 9) || (m =? 11) then 30
  else 31.

Definition digit (c : ascii) : option Z :=
  let n := Z.of_nat (nat_of_ascii c) in
  if (48 <=? n) && (n <=? 57) then Some (n - 48) else None.

Fixpoint number (acc : Z) (cs : list ascii) : option Z :=
  match cs with
  | [] => Some acc
  | c :: cs' =>
      match digit c with
      | Some d => number (acc * 10 + d) cs'
      | None => None
      end
  end.

Definition make_time (y mo d h mi s ms : list ascii) : option Z :=
  y ← number 0 y; mo ← number 0 mo; d ← number 0 d;
  h ← number 0 h; mi ← number 0 mi; s ← number 0 s; ms ← number 0 ms;
  if (1 <=? mo) && (mo <=? 12) && (1 <=? d) && (d <=? days_in_month y mo)
     && (h <=? 23) && (mi <=? 59) && (s <=? 59)
  then Some (days_from_civil y mo d * 86400000 + h * 3600000 + mi * 60000 + s * 1000 + ms)
  else None.

Definition parse (s : string) : option Z :=
  match list_ascii_of_string s with
  | [y1; y2; y3; y4; "-"; m1; m2; "-"; d1; d2]%char =>
      make_time [y1; y2; y3; y4] [m1; m2] [d1; d2] [] [] [] []
  | [y1; y2; y3; y4; "-"; m1; m2; "-"; d1; d2; "T"; h1; h2; ":"; n1; n2; ":"; s1; s2; "Z"]%char =>
      make_time [y1; y2; y3; y4] [m1; m2] [d1; d2] [h1; h2] [n1; n2] [s1; s2] []
  | [y1; y2; y3; y4; "-"; m1; m2; "-"; d1; d2; "T"; h1; h2; ":"; n1; n2; ":"; s1; s2; ".";
     f1; f2; f3; "Z"]%char =>
      make_time [y1; y2; y3; y4] [m1; m2] [d1; d2] [h1; h2] [n1; n2] [s1; s2] [f1; f2; f3]
  | _ => None
  end.

(** [n] in decimal, on [k] digits *)
Fixpoint pad (k : nat) (n : Z) : string :=
  match k with
  | O => ""
  | S k' => pad k' (n / 10) +:+ String (ascii_of_nat (48 + Z.to_nat (n mod 10))) ""
  end.

Definition print (t : Z) : string :=
  let day := t / 86400000 in
  let ms := t - day * 86400000 in
  let '(y, mo, d) := civil_from_days day in
  let year :=
    if (0 <=? y) && (y <=? 9999) then pad 4 y
    else (if y <? 0 then "-" else "+") +:+ pad 6 (Z.abs y) in
  year +:+ "-" +:+ pad 2 mo +:+ "-" +:+ pad 2 d +:+ "T"
    +:+ pad 2 (ms / 3600000) +:+ ":" +:+ pad 2 (ms / 60000 mod 60) +:+ ":"
    +:+ pad 2 (ms / 1000 mod 60) +:+ "." +:+ pad 3 (ms mod 1000) +:+ "Z".

Definition host : Host := {| Date_parse := parse; toISOString := print |}.

End ISO8601.

(** ** The world the [Data] namespace runs in *)

(** A [fetch] call: method, URL (path and query parameters, before
    [URLSearchParams] encodes them), headers, and the payload that is
    passed to [JSON.stringify]. *)
Record request : Type := mkRequest {
  method : string;
  url : string;
  query : list (string * string);
  headers : list (string * jsval);
  body : option obj;
}.

Record response : Type := mkResponse {
  ok : bool;
  status : Z;
  text : result string;
  json : result jsval;
}.

(** What the host supplies to one operation: the page location, the
    clock reading of [new Date()], the outcome of the token source
    ([shell.getTokenDeferred] or the [meta] element) and the outcome of
    each [fetch]. *)
Record Env : Type := mkEnv {
  hostname : string;
  protocol : string;
  clock : Z;
  portalToken : result jsval;
  respond : request -> result response;
}.

Inductive event : Type :=
  | Fetch (r : request)
  | RenderMessages
  | RenderError.

(** [Data.state] (the fields the [Data] namespace itself reads or writes) *)
Record State : Type := mkState {
  messages : list obj;
  unreadCount : nat;
  showArchived : bool;
  isLoading : bool;
  isLoaded : bool;
}.

Record World : Type := mkWorld {
  state : State;
  (** [localStorage["portalInbox_lastCheckedComments"]] *)
  lastChecked : option Z;
  trace : list event;
}.

Definition initialState : State :=
  {| messages := []; unreadCount := O; showArchived := false;
     isLoading := false; isLoaded := false |}.

Definition set_messages (l : list obj) (w : World) : World :=
  let s := state w in
  {| state := {| messages := l; unreadCount := unreadCount s; showArchived := showArchived s;
                 isLoading := isLoading s; isLoaded := isLoaded s |};
     lastChecked := lastChecked w; trace := trace w |}.

Definition set_unreadCount (n : nat) (w : World) : World :=
  let s := state w in
  {| state := {| messages := messages s; unreadCount := n; showArchived := showArchived s;
                 isLoading := isLoading s; isLoaded := isLoaded s |};
     lastChecked := lastChecked w; trace := trace w |}.

Definition set_showArchived (b : bool) (w : World) : World :=
  let s := state w in
  {| state := {| messages := messages s; unreadCount := unreadCount s; showArchived := b;
                 isLoading := isLoading s; isLoaded := isLoaded s |};
     lastChecked := lastChecked w; trace := trace w |}.

Definition set_loading (loading loaded : bool) (w : World) : World :=
  let s := state w in
  {| state := {| messages := messages s; unreadCount := unreadCount s;
                 showArchived := showArchived s; isLoading := loading; isLoaded := loaded |};
     lastChecked := lastChecked w; trace := trace w |}.

Definition set_lastChecked (v : option Z) (w : World) : World :=
  {| state := state w; lastChecked := v; trace := trace w |}.

Definition emit (e : event) (w : World) : World :=
  {| state := state w; lastChecked := lastChecked w; trace := (trace w ++ [e])%list |}.

(** [lastChecked ? new Date(lastChecked) : new Date(0)] *)
Definition lastCheckedDate (stored : option Z) : Z := default 0 stored.

(** Computations that change the world and may throw; the world reached
    when an exception is thrown is kept, as a [catch] block sees it. *)
Definition M (A : Type) : Type := World -> World * result A.

Definition ret_M {A} (a : A) : M A := fun w => (w, Ok a).
Definition throw_M {A} (e : exn) : M A := fun w => (w, Throw e).
Definition bind_M {A B} (m : M A) (k : A -> M B) : M B :=
  fun w => match m w with
           | (w', Ok a) => k a w'
           | (w', Throw e) => (w', Throw e)
           end.
Definition lift {A} (r : result A) : M A := fun w => (w, r).
Definition modify (f : World -> World) : M unit := fun w => (f w, Ok tt).
Definition try_catch {A} (m : M A) (handler : exn -> M A) : M A :=
  fun w => match m w with
           | (w', Ok a) => (w', Ok a)
           | (w', Throw e) => handler e w'
           end.

Notation "x <~ m ;; k" := (bind_M m (fun x => k))
  (at level 100, m at next level, right associativity, only parsing).
Notation "m ;;; k" := (bind_M m (fun _ => k))
  (at level 100, right associativity, only parsing).

(** [await fetch(...)] *)
Definition fetch (env : Env) (r : request) : M response :=
  fun w => (emit (Fetch r) w, respond env r).

(** ** The [Data] namespace *)

Section Data.

Context `{Host}.

(** [this.config], the merged configuration object *)
Variable config : jsval.

(** [Data.getFieldName] *)
Definition getFieldName (fieldKey : string) : result jsval :=
  portalDataSource <- getprop config "portalDataSource" ;;
  let mapping := optchain portalDataSource "fieldMapping" ||| VObj ∅ in
  publisher <- getprop config "publisher" ;;
  let prefix := optchain publisher "prefix" ||| VStr "msfed" in
  Ok (get mapping fieldKey ||| VStr (toStr prefix +:+ "_" +:+ fieldKey)).

(** [Data.getRegardingObjectConfig] *)
Definition getRegardingObjectConfig : result obj :=
  portalDataSource <- getprop config "portalDataSource" ;;
  let defaultConfig := optchain portalDataSource "regardingObject" ||| VObj ∅ in
  publisher <- getprop config "publisher" ;;
  let prefix := optchain publisher "prefix" ||| VStr "msfed" in
  Ok (<["navigationProperty" :=
          get defaultConfig "navigationProperty"
            ||| VStr ("regardingobjectid_" +:+ toStr prefix +:+ "_application")]>
     (<["entitySetName" :=
          get defaultConfig "entitySetName" ||| VStr (toStr prefix +:+ "_applications")]>
     (<["entityName" :=
          get defaultConfig "entityName" ||| VStr (toStr prefix +:+ "_application")]> ∅))).

(** [hostname.endsWith(suffix)] *)
Definition endsWith (s suffix : string) : bool :=
  String.prefix (String.rev suffix) (String.rev s).

(** [Data.isLocalEnvironment] *)
Definition isLocalEnvironment (env : Env) : bool :=
  String.eqb (hostname env) "localhost"
  || String.eqb (hostname env) "127.0.0.1"
  || String.prefix "192.168." (hostname env)
  || String.prefix "10." (hostname env)
  || endsWith (hostname env) ".local"
  || String.eqb (protocol env) "file:".

(** The callback of [parties.find]: recipient role with a contact
    reference that is neither [null] nor [undefined]. *)
Definition isContactParty (p : jsval) : result bool :=
  mask <- getprop p "participationtypemask" ;;
  Ok (strict_eq mask (VNum 2) && negb (nullish (get p "partyid_contact"))).

(** [Array.prototype.find]: the first element the callback accepts, or
    [undefined]. *)
Fixpoint find_first (pred : jsval -> result bool) (l : list jsval) : result jsval :=
  match l with
  | [] => Ok VUndef
  | p :: l' =>
      b <- pred p ;;
      if b then Ok p else find_first pred l'
  end.

(** [parties.find(...)]: only arrays have the method. *)
Definition find (pred : jsval -> result bool) (a : jsval) : result jsval :=
  match a with
  | VArr l => find_first pred l
  | _ => Throw (TypeError "parties.find is not a function")
  end.

(** The test of the first [if] of the mapper: a record in the legacy
    shape has [from] and [body] and no [activityid]. *)
Definition legacyShaped (comment : jsval) : bool :=
  truthy (get comment "from") && truthy (get comment "body")
  && negb (truthy (get comment "activityid")).

(** The read status of a relationship-backed record: the configured
    server field when it is neither [undefined] nor [null], else the
    comparison with the stored timestamp. *)
Definition isRead (stored : option Z) (now : Z) (comment hasReadField : jsval) : jsval :=
  if negb (nullish (get comment (toStr hasReadField)))
  then get comment (toStr hasReadField)
  else
    let lastCheckedDate := Some (lastCheckedDate stored) in
    let created := get comment "createdon" ||| get comment "date" in
    let createdDate := if truthy created then newDate created else Some now in
    VBool (date_le createdDate lastCheckedDate).

(** The object returned for a relationship-backed record *)
Definition relationshipMessage (stored : option Z) (now : Z)
    (comment toParty hasReadField : jsval) : obj :=
  <["hasReadValue" := get comment (toStr hasReadField)]>
  (<["statuscode" := get comment "statuscode"]>
  (<["statecode" := get comment "statecode"]>
  (<["directionCode" := get comment "adx_portalcommentdirectioncode"]>
  (<["fromStaffId" := get comment "_createdby_value"]>
  (<["toContactId" := optchain (get toParty "partyid_contact") "contactid"]>
  (<["toContact" := get (get toParty "partyid_contact") "fullname"]>
  (<["regardingObjectId" := get comment "_regardingobjectid_value"]>
  (<["category" := VStr "portal-comment"]>
  (<["read" := isRead stored now comment hasReadField]>
  (<["date" := get comment "createdon" ||| VStr (toISOString now)]>
  (<["body" := get comment "description" ||| VStr ""]>
  (<["subject" := get comment "subject" ||| VStr "(No Subject)"]>
  (<["from" := get comment "_createdby_value@OData.Community.Display.V1.FormattedValue"]>
  (<["id" := get comment "activityid"]> ∅)))))))))))))).

(** The callback of [records.map] in [Data.mapPortalDataToMessages];
    [stored] is the [localStorage] entry and [now] the clock. *)
Definition mapComment (stored : option Z) (now : Z) (comment : jsval) : result obj :=
  from <- getprop comment "from" ;;
  if truthy from && truthy (get comment "body") && negb (truthy (get comment "activityid"))
  then
    Ok (<["category" := get comment "category" ||| VStr "general"]>
       (<["read" := if negb (strict_eq (get comment "read") VUndef)
                    then get comment "read" else VBool false]>
       (<["date" := get comment "date"]>
       (<["body" := get comment "body" ||| VStr ""]>
       (<["subject" := get comment "subject" ||| VStr "(No Subject)"]>
       (<["from" := get comment "from"]>
       (<["id" := get comment "id"]> ∅)))))))
  else
    let activityid := toStr (get comment "activityid") in
    if negb (truthy (get comment "_createdby_value"))
    then Throw (Error ("Created by value not found for comment " +:+ activityid
                       +:+ ". Ensure $select includes _createdby_value."))
    else
    let parties := get comment "adx_portalcomment_activity_parties" in
    if negb (truthy parties) || strict_eq (get parties "length") (VNum 0)
    then Throw (Error ("Activity parties not found for comment " +:+ activityid
                       +:+ ". Ensure $expand includes adx_portalcomment_activity_parties."))
    else
    toParty <- find isContactParty parties ;;
    if negb (truthy toParty)
    then Throw (Error ("Contact party not found for comment " +:+ activityid
                       +:+ ". The comment must have a contact party with participationtypemask=2."))
    else
    hasReadField <- getFieldName "hasread" ;;
    if negb (truthy (optchain (get toParty "partyid_contact") "contactid"))
    then Throw (Error ("Contact ID not found in party data for comment " +:+ activityid
                       +:+ ". Ensure $expand includes partyid_contact."))
    else
    if negb (truthy (get comment "_createdby_value@OData.Community.Display.V1.FormattedValue"))
    then Throw (Error ("Staff name not found for comment " +:+ activityid
                       +:+ ". Ensure formatted values are included."))
    else
    _ <- getprop (get toParty "partyid_contact") "fullname" ;;
    Ok (relationshipMessage stored now comment toParty hasReadField).

(** [Array.prototype.map] with a callback that may throw *)
Fixpoint map_result {A B} (f : A -> result B) (l : list A) : result (list B) :=
  match l with
  | [] => Ok []
  | x :: l' =>
      y <- f x ;;
      ys <- map_result f l' ;;
      Ok (y :: ys)
  end.

(** [Data.mapPortalDataToMessages] *)
Definition mapPortalDataToMessages (stored : option Z) (now : Z) (records : jsval)
  : result (list obj) :=
  match records with
  | VArr l => map_result (mapComment stored now) l
  | _ => Throw (TypeError "records.map is not a function")
  end.

(** The callback of [readMessages.reduce]: keep the message with the
    later date. *)
Definition laterOf (latest msg : obj) : obj :=
  if date_gt (newDate (prop msg "date")) (newDate (prop latest "date")) then msg else latest.

Definition isUnread (msg : obj) : bool := negb (truthy (prop msg "read")).

(** [Data.processMessages] *)
Definition processMessages : M unit := fun w =>
  let msgs := messages (state w) in
  let w := set_unreadCount (length (List.filter isUnread msgs)) w in
  let readMessages :=
    List.filter (fun msg => truthy (prop msg "read") && truthy (prop msg "date")) msgs in
  match readMessages with
  | [] => (w, Ok tt)
  | first :: rest =>
      let mostRecentRead := fold_left laterOf rest first in
      let currentLastCheckedDate := Some (lastCheckedDate (lastChecked w)) in
      let mostRecentReadDate := newDate (prop mostRecentRead "date") in
      if date_gt mostRecentReadDate currentLastCheckedDate
      then (set_lastChecked mostRecentReadDate w, Ok tt)
      else (w, Ok tt)
  end.

(** [Data.getMessage]: position and value of the first message with
    this id. *)
Definition getMessage (messageId : jsval) (w : World) : option (nat * obj) :=
  list_find (fun msg => strict_eq (prop msg "id") messageId = true) (messages (state w)).

(** [Data.getFilteredMessages] *)
Definition getFilteredMessages (w : World) : list obj :=
  if showArchived (state w)
  then List.filter (fun msg => truthy (prop msg "read")) (messages (state w))
  else List.filter isUnread (messages (state w)).

(** [Data.toggleView] *)
Definition toggleView : M unit :=
  modify (fun w => set_showArchived (negb (showArchived (state w))) w).

(** [Data.getPortalToken] *)
Definition getPortalToken (env : Env) : M jsval := lift (portalToken env).

(** [Data.updatePortalCommentReadStatus]: the whole body is a [try]
    whose [catch] only logs, so the promise it returns always resolves. *)
Definition updatePortalCommentReadStatus (env : Env) (messageId hasRead : jsval) : M unit :=
  try_catch
    (cfg <~ lift (getprop config "portalDataSource") ;;
     operations <~ lift (getprop cfg "operations") ;;
     updateOps <~ lift (getprop operations "update") ;;
     if negb (truthy updateOps) || negb (truthy (get updateOps "enabled"))
     then ret_M tt
     else
       let url := toStr (get cfg "baseUrl") +:+ "/" +:+ toStr (get cfg "entitySetName")
                  +:+ "(" +:+ toStr messageId +:+ ")" in
       token <~ getPortalToken env ;;
       hasReadField <~ lift (getFieldName "hasread") ;;
       let updatePayload : obj :=
         <["statecode" := VNum 1]> (<[toStr hasReadField := hasRead]> ∅) in
       response <~ fetch env
         {| method := "PATCH"; url := url; query := [];
            headers := [("__RequestVerificationToken", token);
                        ("Content-Type", VStr "application/json");
                        ("Accept", VStr "application/json")];
            body := Some updatePayload |} ;;
       if negb (ok response)
       then
         errorText <~ lift (text response) ;;
         throw_M (Error ("HTTP error! status: " +:+ pretty (status response)
                        +:+ ", message: " +:+ errorText))
       else ret_M tt)
    (fun _ => ret_M tt).

(** [Data.updateMessageReadStatus] *)
Definition updateMessageReadStatus (env : Env) (messageId isRead : jsval) : M unit :=
  isRemote <~ lift (if isLocalEnvironment env then Ok false
                    else portalDataSource <- getprop config "portalDataSource" ;;
                         Ok (truthy portalDataSource)) ;;
  if negb isRemote
  then ret_M tt
  else
    try_catch
      (fun w =>
         match getMessage messageId w with
         | Some (_, message) =>
             if truthy isRead
             then
               let currentLastCheckedDate := Some (lastCheckedDate (lastChecked w)) in
               let messageDate := newDate (prop message "date") in
               let w := if date_gt messageDate currentLastCheckedDate
                        then set_lastChecked messageDate w else w in
               updatePortalCommentReadStatus env messageId (VBool true) w
             else (w, Ok tt)
         | None => (w, Ok tt)
         end)
      (fun _ => ret_M tt).

(** [Data.markMessageAsRead].  The promise of [updateMessageReadStatus]
    is not awaited: its outcome is dropped and [processMessages] runs in
    any case. *)
Definition markMessageAsRead (env : Env) (messageId : jsval) : M unit := fun w =>
  match getMessage messageId w with
  | None => (w, Ok tt)
  | Some (i, message) =>
      if truthy (prop message "read") then (w, Ok tt)
      else
        let w := set_messages (<[i := <["read" := VBool true]> message]> (messages (state w))) w in
        let w := fst (updateMessageReadStatus env messageId (VBool true) w) in
        processMessages w
  end.

(** [Data.markAllMessagesAsRead] *)
Definition markAllMessagesAsRead (env : Env) : M unit := fun w =>
  let now := clock env in
  let w := set_lastChecked (Some now) w in
  let w := set_messages (map (fun msg => <["read" := VBool true]> msg) (messages (state w))) w in
  processMessages w.

(** The object literal [replyPayload] of [Data.createReply] *)
Definition replyPayload (regardingConfig originalMessage : obj) (replyText : jsval) : obj :=
  <["adx_portalcomment_activity_parties" :=
      VArr [VObj (<["partyid_contact@odata.bind" :=
                      VStr ("/contacts(" +:+ toStr (prop originalMessage "toContactId") +:+ ")")]>
                 (<["participationtypemask" := VNum 1]> ∅));
            VObj (<["partyid_systemuser@odata.bind" :=
                      VStr ("/systemusers(" +:+ toStr (prop originalMessage "fromStaffId") +:+ ")")]>
                 (<["participationtypemask" := VNum 2]> ∅))]]>
  (<[toStr (prop regardingConfig "navigationProperty") +:+ "@odata.bind" :=
      VStr ("/" +:+ toStr (prop regardingConfig "entitySetName")
            +:+ "(" +:+ toStr (prop originalMessage "regardingObjectId") +:+ ")")]>
  (<["adx_portalcommentdirectioncode" := VNum 1]>
  (<["description" := replyText]>
  (<["subject" := VStr ("Re: " +:+ toStr (prop originalMessage "subject"))]> ∅)))).

(** [{ success: ..., message: ... }] *)
Definition replyResult (success : bool) (message : string) : obj :=
  <["message" := VStr message]> (<["success" := VBool success]> ∅).

(** [Data.createReply] *)
Definition createReply (env : Env) (messageId replyText : jsval) : M obj :=
  isRemote <~ lift (if isLocalEnvironment env then Ok false
                    else portalDataSource <- getprop config "portalDataSource" ;;
                         Ok (truthy portalDataSource)) ;;
  if negb isRemote
  then ret_M (replyResult false "Local environment - reply not persisted")
  else
    try_catch
      (cfg <~ lift (getprop config "portalDataSource") ;;
       operations <~ lift (getprop cfg "operations") ;;
       createOps <~ lift (getprop operations "create") ;;
       enabled <~ lift (getprop createOps "enabled") ;;
       if negb (truthy enabled)
       then throw_M (Error "Create operations are not enabled")
       else fun w =>
         match getMessage messageId w with
         | None => (w, Throw (Error "Original message not found"))
         | Some (_, originalMessage) =>
             if negb (truthy (prop originalMessage "toContactId"))
             then (w, Throw (Error "Contact ID not found in original message. API configuration error - check $expand parameter."))
             else if negb (truthy (prop originalMessage "fromStaffId"))
             then (w, Throw (Error "Staff ID not found in original message. API configuration error - check _createdby_value."))
             else
               (let url := toStr (get cfg "baseUrl") +:+ "/" +:+ toStr (get cfg "entitySetName") in
                token <~ getPortalToken env ;;
                regardingConfig <~ lift getRegardingObjectConfig ;;
                response <~ fetch env
                  {| method := "POST"; url := url; query := [];
                     headers := [("__RequestVerificationToken", token);
                                 ("Content-Type", VStr "application/json");
                                 ("Accept", VStr "application/json")];
                     body := Some (replyPayload regardingConfig originalMessage replyText) |} ;;
                if negb (ok response)
                then
                  errorText <~ lift (text response) ;;
                  throw_M (Error ("HTTP error! status: " +:+ pretty (status response)
                                 +:+ ", message: " +:+ errorText))
                else ret_M (replyResult true "Reply sent successfully")) w
         end)
      (fun error => ret_M (replyResult false (exn_message error))).

(** The [URLSearchParams] built by [Data.loadMessagesFromPortal] *)
Definition readParams (readOps : jsval) : list (string * string) :=
  let select := get readOps "select" in
  let filterParts :=
    (["adx_portalcommentdirectioncode eq 2"]
     ++ (if truthy (get readOps "filter")
         then ["(" +:+ toStr (get readOps "filter") +:+ ")"] else []))%list in
  let orderBy := get readOps "orderBy" in
  let expand := get readOps "expand" in
  ((if truthy select then [("$select", toStr select)] else [])
   ++ [("$filter", String.concat " and " filterParts)]
   ++ (if truthy orderBy then [("$orderby", toStr orderBy)] else [])
   ++ (if truthy expand then [("$expand", toStr expand)] else []))%list.

(** The end of a load cycle: flags and rendering *)
Definition loadSucceeded : M unit :=
  modify (fun w => emit RenderMessages (set_loading false true w)).

Definition loadFailed : M unit :=
  modify (fun w => emit RenderError (set_loading false true w)).

(** [this.state.messages = this.mapPortalDataToMessages(records); this.processMessages()] *)
Definition storeRecords (env : Env) (records : jsval) : M unit :=
  msgs <~ (fun w => (w, mapPortalDataToMessages (lastChecked w) (clock env) records)) ;;
  modify (set_messages msgs) ;;;
  processMessages.

(** [Data.loadMessagesFromPortal] *)
Definition loadMessagesFromPortal (env : Env) : M unit :=
  try_catch
    (cfg <~ lift (getprop config "portalDataSource") ;;
     operations <~ lift (getprop cfg "operations") ;;
     readOps <~ lift (getprop operations "read") ;;
     enabled <~ lift (getprop readOps "enabled") ;;
     if negb (truthy enabled)
     then throw_M (Error "Read operations are not enabled")
     else
       let url := toStr (get cfg "baseUrl") +:+ "/" +:+ toStr (get cfg "entitySetName") in
       token <~ getPortalToken env ;;
       response <~ fetch env
         {| method := "GET"; url := url; query := readParams readOps;
            headers := [("__RequestVerificationToken", token);
                        ("Accept", VStr "application/json")];
            body := None |} ;;
       if negb (ok response)
       then throw_M (Error ("HTTP error! status: " +:+ pretty (status response)))
       else
         data <~ lift (json response) ;;
         value <~ lift (getprop data "value") ;;
         storeRecords env (value ||| VArr []) ;;;
         loadSucceeded)
    (fun _ => loadFailed).

(** [Data.loadMessagesFromLocal] (the four-second timer is not modelled) *)
Definition loadMessagesFromLocal (env : Env) : M unit :=
  try_catch
    (localDataSource <~ lift (getprop config "localDataSource") ;;
     response <~ fetch env
       {| method := "GET"; url := toStr localDataSource; query := [];
          headers := []; body := None |} ;;
     if negb (ok response)
     then throw_M (Error "Failed to load messages from local source")
     else
       data <~ lift (json response) ;;
       value <~ lift (getprop data "value") ;;
       storeRecords env (value ||| get data "messages" ||| VArr []) ;;;
       loadSucceeded)
    (fun _ => loadFailed).

(** [Data.loadMessages] *)
Definition loadMessages (env : Env) : M unit :=
  modify (set_loading true false) ;;;
  let isLocal := isLocalEnvironment env in
  localDataSource <~ lift (getprop config "localDataSource") ;;
  portalDataSource <~ lift (getprop config "portalDataSource") ;;
  if isLocal && truthy localDataSource then loadMessagesFromLocal env
  else if negb isLocal && truthy portalDataSource then loadMessagesFromPortal env
  else if truthy localDataSource then loadMessagesFromLocal env
  else loadFailed.

(** [PortalInboxExtension.clearReadStatus] *)
Definition clearReadStatus (env : Env) : M unit :=
  modify (set_lastChecked None) ;;;
  loadMessages env.

End Data.

(** ** Sample data

    Configurations built on the defaults of [Main.config], and records in
    the two wire shapes. *)

Definition object (fields : list (string * jsval)) : jsval := VObj (list_to_map fields).

Definition sampleOperations (create update : bool) (filter : jsval) : jsval :=
  object
    [("read", object [("enabled", VBool true); ("select", VNull); ("filter", filter);
                      ("orderBy", VStr "createdon desc");
                      ("expand", VStr "adx_portalcomment_activity_parties($expand=partyid_contact,partyid_systemuser)")]);
     ("create", object [("enabled", VBool create)]);
     ("update", object [("enabled", VBool update)]);
     ("delete", object [("enabled", VBool false)])].

Definition samplePortalDataSource (create update : bool) (filter : jsval) : jsval :=
  object
    [("entitySetName", VStr "adx_portalcomments");
     ("baseUrl", VStr "/_api");
     ("operations", sampleOperations create update filter)].

(** A configuration without [publisher], [fieldMapping] or
    [regardingObject]. *)
Definition sampleConfig (create update : bool) (filter : jsval) : jsval :=
  object
    [("localDataSource", VStr "portal-inbox-extension/localDataSource.json");
     ("portalDataSource", samplePortalDataSource create update filter);
     ("containerId", VStr "portal-inbox-extension")].

Definition sampleParty (mask : Z) (contactid fullname : string) : jsval :=
  object
    [("participationtypemask", VNum mask);
     ("partyid_contact", object [("contactid", VStr contactid); ("fullname", VStr fullname)])].

(** A relationship-backed record; [extra] may add the server-held read
    flag. *)
Definition sampleComment (activityid createdon : string) (parties : list jsval)
    (extra : list (string * jsval)) : jsval :=
  object
    ([("activityid", VStr activityid);
     ("subject", VStr "Your application");
     ("description", VStr "Please review.");
     ("createdon", VStr createdon);
     ("_createdby_value", VStr "staff-7");
     ("_createdby_value@OData.Community.Display.V1.FormattedValue", VStr "Dana Staff");
     ("_regardingobjectid_value", VStr "app-42");
     ("adx_portalcommentdirectioncode", VNum 2);
     ("statecode", VNum 0);
     ("statuscode", VNum 1);
     ("adx_portalcomment_activity_parties", VArr parties)] ++ extra)%list.

(** A record in the legacy shape of [localDataSource.json] *)
Definition sampleLegacy (id date : string) (extra : list (string * jsval)) : jsval :=
  object ([("id", VStr id); ("from", VStr "Support"); ("body", VStr "hi");
           ("date", VStr date)] ++ extra)%list.

Definition sampleEnv (hostname : string) (now : Z) (reply : result response) : Env :=
  {| hostname := hostname; protocol := "https:"; clock := now;
     portalToken := Ok (VStr "csrf-token"); respond := fun _ => reply |}.

Definition emptyWorld : World :=
  {| state := initialState; lastChecked := None; trace := [] |}.

(** A loaded message in the legacy shape *)
Definition sampleMessage (id date : string) (read : bool) : obj :=
  list_to_map
    [("id", VStr id); ("from", VStr "Support"); ("subject", VStr "(No Subject)");
     ("body", VStr "hi"); ("date", VStr date); ("read", VBool read);
     ("category", VStr "general")].

(** The world after a load that produced [msgs] *)
Definition loadedWorld (msgs : list obj) (stored : option Z) : World :=
  {| state := {| messages := msgs; unreadCount := length (List.filter isUnread msgs);
                 showArchived := false; isLoading := false; isLoaded := true |};
     lastChecked := stored; trace := [] |}.

(** ** Vocabulary of the properties *)

(** The messages that [processMessages] scans: read, with a date. *)
Definition readDated (msg : obj) : bool :=
  truthy (prop msg "read") && truthy (prop msg "date").

(** The state that [processMessages] maintains when every date parses:
    the stored timestamp covers every read message. *)
Definition reconciled `{Host} (w : World) : Prop :=
  Forall (fun msg => readDated msg = true ->
                     exists t : Z, newDate (prop msg "date") = Some t
                                   /\ t <= lastCheckedDate (lastChecked w))
         (messages (state w)).

(** The last character of a string *)
Fixpoint last_char (s : string) : option ascii :=
  match s with
  | EmptyString => None
  | String c EmptyString => Some c
  | String _ s' => last_char s'
  end.

(** The part of the world that the inbox shows: messages, unread count,
    view mode and stored timestamp. *)
Definition sameInbox (w w' : World) : Prop :=
  messages (state w') = messages (state w)
  /\ unreadCount (state w') = unreadCount (state w)
  /\ showArchived (state w') = showArchived (state w)
  /\ lastChecked w' = lastChecked w.

(** The unread count is the number of unread messages. *)
Definition countConsistent (w : World) : Prop :=
  unreadCount (state w) = length (List.filter isUnread (messages (state w))).

(** What a load cycle started in [w] may leave: the flags say loaded, at
    most one [GET] was sent, one rendering call ends the trace; either
    the inbox is as it was and the error is rendered, or the records
    that were fetched are mapped and reconciled and the list is
    rendered. *)
Definition loadOutcome `{Host} (config : jsval) (env : Env) (w : World)
    (r : World * result unit) : Prop :=
  snd r = Ok tt
  /\ isLoading (state (fst r)) = false
  /\ isLoaded (state (fst r)) = true
  /\ exists fetches : list event,
       (length fetches <= 1)%nat
       /\ Forall (fun e => exists q, e = Fetch q /\ method q = "GET" /\ body q = None) fetches
       /\ ((trace (fst r) = (trace w ++ fetches ++ [RenderError])%list /\ sameInbox w (fst r))
           \/ (trace (fst r) = (trace w ++ fetches ++ [RenderMessages])%list
               /\ length fetches = 1%nat
               /\ exists (records : jsval) (msgs : list obj),
                    mapPortalDataToMessages config (lastChecked w) (clock env) records = Ok msgs
                    /\ messages (state (fst r)) = msgs
                    /\ unreadCount (state (fst r)) = length (List.filter isUnread msgs)
                    /\ showArchived (state (fst r)) = showArchived (state w)
                    /\ lastChecked (fst r)
                       = lastChecked (fst (processMessages (set_messages msgs w))))).

(** The requests of a trace, in the order they were sent *)
Definition requests (tr : list event) : list request :=
  omap (fun e => match e with Fetch q => Some q | _ => None end) tr.

(** The request of [Data.loadMessagesFromLocal] *)
Definition localReadRequest (config : jsval) : request :=
  {| method := "GET"; url := toStr (get config "localDataSource"); query := [];
     headers := []; body := None |}.

(** [`${config.baseUrl}/${config.entitySetName}`] *)
Definition apiUrl (config : jsval) : string :=
  toStr (get (get config "portalDataSource") "baseUrl") +:+ "/"
  +:+ toStr (get (get config "portalDataSource") "entitySetName").

(** The request of [Data.loadMessagesFromPortal] *)
Definition portalReadRequest (config token : jsval) : request :=
  {| method := "GET"; url := apiUrl config;
     query := readParams (get (get (get config "portalDataSource") "operations") "read");
     headers := [("__RequestVerificationToken", token); ("Accept", VStr "application/json")];
     body := None |}.

(** The request of [Data.updatePortalCommentReadStatus] *)
Definition updateRequest (config token messageId hasReadField hasRead : jsval) : request :=
  {| method := "PATCH";
     url := toStr (get (get config "portalDataSource") "baseUrl") +:+ "/"
            +:+ toStr (get (get config "portalDataSource") "entitySetName")
            +:+ "(" +:+ toStr messageId +:+ ")";
     query := [];
     headers := [("__RequestVerificationToken", token);
                 ("Content-Type", VStr "application/json");
                 ("Accept", VStr "application/json")];
     body := Some (<["statecode" := VNum 1]> (<[toStr hasReadField := hasRead]> ∅)) |}.

(** The request of [Data.createReply] *)
Definition replyRequest (config token : jsval) (regarding originalMessage : obj)
    (replyText : jsval) : request :=
  {| method := "POST"; url := apiUrl config; query := [];
     headers := [("__RequestVerificationToken", token);
                 ("Content-Type", VStr "application/json");
                 ("Accept", VStr "application/json")];
     body := Some (replyPayload regarding originalMessage replyText) |}.

(** What a page can ask of the inbox: the operations of [Data] behind
    [PortalInboxExtension] and the handlers of [UI]. *)
Inductive action : Type :=
  | Refresh
  | MarkAsRead (messageId : jsval)
  | MarkAllAsRead
  | ToggleView
  | SendReply (messageId replyText : jsval)
  | ClearReadStatus.

Definition perform `{Host} (config : jsval) (env : Env) (a : action) (w : World) : World :=
  match a with
  | Refresh => fst (loadMessages config env w)
  | MarkAsRead messageId => fst (markMessageAsRead config env messageId w)
  | MarkAllAsRead => fst (markAllMessagesAsRead env w)
  | ToggleView => fst (toggleView w)
  | SendReply messageId replyText => fst (createReply config env messageId replyText w)
  | ClearReadStatus => fst (clearReadStatus config env w)
  end.

(** A session: one action after the other, each in the environment the
    page has at that moment. *)
Definition session `{Host} (config : jsval) (steps : list (Env * action)) (w : World) : World :=
  fold_left (fun w step => perform config (fst step) (snd step) w) steps w.

(** The actions that may not move the stored timestamp backwards *)
Definition keepsTimestamp (a : action) : bool :=
  match a with
  | MarkAllAsRead | ClearReadStatus => false
  | _ => true
  end.

(** ** [UI.formatDate]

    [toLocaleDateString] is the host's rendering of a date in the locale
    of the page ([None] is an Invalid Date, for which every comparison of
    the function is false).  The three quotients are computed on floats
    by the source; they are exact wherever a branch can tell them apart
    (below seven days), so they are taken on integers here. *)
Definition formatDate `{Host} (config : jsval) (toLocaleDateString : option Z -> string)
    (now : Z) (dateString : jsval) : result jsval :=
  match newDate dateString with
  | None => Ok (VStr (toLocaleDateString None))
  | Some date =>
      let diffMs := now - date in
      let diffMins := diffMs / 60000 in
      let diffHours := diffMs / 3600000 in
      let diffDays := diffMs / 86400000 in
      let ago (count : string) (key : string) : result jsval :=
        text <- getprop config "text" ;;
        unit <- getprop text key ;;
        Ok (VStr (count +:+ " " +:+ toStr unit)) in
      if diffMins <? 1 then (text <- getprop config "text" ;; getprop text "justNow")
      else if diffMins =? 1 then ago "1" "minuteAgo"
      else if diffMins <? 60 then ago (pretty diffMins) "minutesAgo"
      else if diffHours =? 1 then ago "1" "hourAgo"
      else if diffHours <? 24 then ago (pretty diffHours) "hoursAgo"
      else if diffDays =? 1 then ago "1" "dayAgo"
      else if diffDays <? 7 then ago (pretty diffDays) "daysAgo"
      else Ok (VStr (toLocaleDateString (Some date)))
  end.

(** ** The loader, [portal-extensions.js] *)

Module Loader.

(** An entry of the [extensions] array *)
Record extension : Type := mkExtension {
  name : string;
  filename : string;
  enabled : bool;
}.

(** [s] without the prefix [p], when it has that prefix *)
Fixpoint strip_prefix (p s : string) : option string :=
  match p, s with
  | EmptyString, _ => Some s
  | String a p', String b s' => if Ascii.eqb a b then strip_prefix p' s' else None
  | String _ _, EmptyString => None
  end.

(** [s.replace(pattern, replacement)] for a string pattern and a
    replacement without [$]: the first occurrence is replaced. *)
Fixpoint replace (pattern replacement s : string) : string :=
  match strip_prefix pattern s with
  | Some rest => replacement +:+ rest
  | None =>
      match s with
      | EmptyString => EmptyString
      | String c s' => String c (replace pattern replacement s')
      end
  end.

(** [getExtensionPath]; [isLocal] and [portalBaseUrl] are the two
    constants computed when the loader starts. *)
Definition getExtensionPath (isLocal : bool) (portalBaseUrl filename : string) : string :=
  if isLocal
  then let extensionFolder := replace ".js" "" filename in
       extensionFolder +:+ "/" +:+ filename
  else portalBaseUrl +:+ "/" +:+ filename.

(** How a promise settled, as [Promise.allSettled] reports it *)
Inductive settled : Type :=
  | fulfilled (value : obj)
  | rejected (reason : obj).

(** [loadExtension]: the [src] of the scripts appended to
    [document.head], and the way the promise settles.  [onload] tells
    whether the script element fires [onload]; it fires [onerror]
    otherwise. *)
Definition loadExtension (isLocal : bool) (portalBaseUrl : string) (onload : bool)
    (ext : extension) : list string * settled :=
  if negb (enabled ext)
  then ([], fulfilled (<["status" := VStr "skipped"]> (<["name" := VStr (name ext)]> ∅)))
  else
    let path := getExtensionPath isLocal portalBaseUrl (filename ext) in
    ([path],
     if onload
     then fulfilled (<["status" := VStr "loaded"]> (<["name" := VStr (name ext)]> ∅))
     else rejected (<["path" := VStr path]>
                   (<["status" := VStr "error"]> (<["name" := VStr (name ext)]> ∅)))).

(** The [detail] of the event [portalExtensionsLoaded] *)
Record detail : Type := mkDetail {
  total : nat;
  loaded : nat;
  failed : nat;
  skipped : nat;
  results : list settled;
}.

Definition isLoaded (r : settled) : bool :=
  match r with
  | fulfilled value => strict_eq (prop value "status") (VStr "loaded")
  | rejected _ => false
  end.

Definition isFailed (r : settled) : bool :=
  match r with
  | fulfilled _ => false
  | rejected _ => true
  end.

Definition isSkipped (r : settled) : bool :=
  match r with
  | fulfilled value => strict_eq (prop value "status") (VStr "skipped")
  | rejected _ => false
  end.

(** [loadAllExtensions]: the scripts appended, in order, and the detail
    of the event dispatched once every promise has settled.  [onload i]
    is the fate of the script of the extension at position [i]. *)
Definition loadAllExtensions (isLocal : bool) (portalBaseUrl : string)
    (onload : nat -> bool) (extensions : list extension) : list string * detail :=
  let runs := imap (fun i => loadExtension isLocal portalBaseUrl (onload i)) extensions in
  let results := map snd runs in
  (concat (map fst runs),
   {| total := length extensions;
      loaded := length (List.filter isLoaded results);
      failed := length (List.filter isFailed results);
      skipped := length (List.filter isSkipped results);
      results := results |}).

End Loader.

(** ** [Main.mergeConfig] and [Main.init]

    The merge writes into its target in place; it is modelled by the
    value the target has afterwards, and only where every step is the
    plain assignment of an own property or the merge into a plain
    object.  [None] stands for every other run: a key of the source that
    names a member of [Object.prototype] (the call of
    [source.hasOwnProperty], the read of [target[key]] and the assignment
    to [__proto__] then involve the prototype), or a target value that is
    truthy without being a plain object (an array would receive named
    properties, a primitive makes the assignment throw in strict mode).
    The order in which [for ... in] visits the keys does not matter then:
    each step reads and writes the property of its own key only. *)

(** The property names that every plain object inherits *)
Definition objectPrototype : list string :=
  ["constructor"; "hasOwnProperty"; "isPrototypeOf"; "propertyIsEnumerable";
   "toLocaleString"; "toString"; "valueOf"; "__proto__"; "__defineGetter__";
   "__defineSetter__"; "__lookupGetter__"; "__lookupSetter__"].

(** No own property of [source] has an inherited name. *)
Definition plainKeys (source : obj) : bool :=
  forallb (fun key => bool_decide (source !! key = None)) objectPrototype.

(** One pass of the loop, given for each key of the source what the
    step for this key makes of the old value of [target[key]]. *)
Definition mergeWith (steps : gmap string (jsval -> option jsval)) (target : obj)
  : option obj :=
  if bool_decide (map_Forall (fun key step => is_Some (step (prop target key))) steps)
  then Some (merge (fun old step =>
                      match step with
                      | Some f => f (default VUndef old)
                      | None => old
                      end) target steps)
  else None.

(** The step for a key whose value in the source is [value]: the new
    value of [target[key]], given the old one. *)
Fixpoint mergeValue (value : jsval) : jsval -> option jsval :=
  match value with
  | VObj source =>
      let steps := mergeValue <$> source in
      fun old =>
        match old ||| VObj ∅ with
        | VObj target => if plainKeys source then VObj <$> mergeWith steps target else None
        | _ => None
        end
  | _ => fun _ => Some value
  end.

(** [Main.mergeConfig] *)
Definition mergeConfig (target source : obj) : option obj :=
  if plainKeys source then mergeWith (mergeValue <$> source) target else None.


(** The value found by following own properties along a path *)
Fixpoint at_path (v : jsval) (path : list string) : option jsval :=
  match path with
  | [] => Some v
  | key :: rest =>
      match v with
      | VObj o => v' ← o !! key; at_path v' rest
      | _ => None
      end
  end.

(** The defaults of [Main.config] that the [Data] namespace reads *)
Definition defaultConfig : obj :=
  list_to_map
    [("localDataSource", VNull);
     ("portalDataSource",
      object
        [("entitySetName", VStr "adx_portalcomments");
         ("baseUrl", VStr "/_api");
         ("operations",
          object
            [("read", object [("enabled", VBool true); ("select", VNull); ("filter", VNull);
                              ("orderBy", VStr "createdon desc");
                              ("expand", VStr "adx_portalcomment_activity_parties($expand=partyid_contact,partyid_systemuser)")]);
             ("create", object [("enabled", VBool true)]);
             ("update", object [("enabled", VBool true)]);
             ("delete", object [("enabled", VBool false)])])]);
     ("containerId", VNull)].

(** The number of plain objects nested in a value, the measure of the
    induction on values *)
Fixpoint jsval_size (v : jsval) : nat :=
  match v with
  | VObj o => S (map_fold (fun _ v' n => (jsval_size v' + n)%nat) O o)
  | _ => O
  end.

(** * Properties *)

(** Closed equations are checked by evaluating both sides. *)
Ltac vm_refl :=
  match goal with |- ?a = ?b => exact (@eq_refl _ b <: a = b) end.

(** ** Basic facts about the value layer *)

Lemma getprop_Ok (v : jsval) (k : string) :
  nullish v = false -> getprop v k = Ok (get v k).
Proof. intros Hn. unfold getprop. now rewrite Hn. Qed.

Lemma getprop_obj (o : obj) (k : string) : getprop (VObj o) k = Ok (prop o k).
Proof. reflexivity. Qed.

Lemma truthy_not_nullish (v : jsval) : truthy v = true -> nullish v = false.
Proof. now destruct v. Qed.

Lemma or_else_truthy (a b : jsval) : truthy a = true -> a ||| b = a.
Proof. intros Ha. unfold or_else. now rewrite Ha. Qed.

Lemma or_else_falsy (a b : jsval) : truthy a = false -> a ||| b = b.
Proof. intros Ha. unfold or_else. now rewrite Ha. Qed.

Lemma date_gt_spec (a b : option Z) :
  date_gt a b = true <-> exists x y, a = Some x /\ b = Some y /\ y < x.
Proof.
  destruct a as [x|], b as [y|]; simpl; split.
  - intros Hlt. exists x, y. repeat split. now apply Z.ltb_lt.
  - intros (x' & y' & Hx & Hy & Hlt). injection Hx as ->. injection Hy as ->.
    now apply Z.ltb_lt.
  - discriminate.
  - intros (x' & y' & _ & Hy & _). discriminate.
  - discriminate.
  - intros (x' & y' & Hx & _). discriminate.
  - discriminate.
  - intros (x' & y' & Hx & _). discriminate.
Qed.

(** ** C10: names derived without a publisher prefix *)

(** C10.  When the configuration supplies no publisher prefix (the
    property is absent or falsy), neither resolver fails: a field name
    without an override in [fieldMapping] is ["msfed_" + key] (for
    instance ["msfed_hasread"]), and each entry of the regarding-object
    metadata is its override or else the name built on ["msfed"]:
    [msfed_application], [msfed_applications] and
    [regardingobjectid_msfed_application]. *)
Theorem default_publisher_prefix (config : jsval) :
  nullish config = false ->
  truthy (optchain (get config "publisher") "prefix") = false ->
  (forall fieldKey : string,
     truthy (get (optchain (get config "portalDataSource") "fieldMapping" ||| VObj ∅)
                    fieldKey) = false ->
     getFieldName config fieldKey = Ok (VStr ("msfed_" +:+ fieldKey)))
  /\ getFieldName config "hasread"
     = Ok (get (optchain (get config "portalDataSource") "fieldMapping" ||| VObj ∅) "hasread"
           ||| VStr "msfed_hasread")
  /\ exists regarding : obj,
       getRegardingObjectConfig config = Ok regarding
       /\ let overrides :=
            optchain (get config "portalDataSource") "regardingObject" ||| VObj ∅ in
          prop regarding "entityName"
            = get overrides "entityName" ||| VStr "msfed_application"
          /\ prop regarding "entitySetName"
            = get overrides "entitySetName" ||| VStr "msfed_applications"
          /\ prop regarding "navigationProperty"
            = get overrides "navigationProperty"
              ||| VStr "regardingobjectid_msfed_application".
Proof.
  intros Hcfg Hprefix.
  unfold getFieldName, getRegardingObjectConfig.
  rewrite !(getprop_Ok config) by exact Hcfg. simpl JS.bind.
  rewrite (or_else_falsy _ (VStr "msfed")) by exact Hprefix.
  split; [| split].
  - intros fieldKey Hkey. now rewrite or_else_falsy by exact Hkey.
  - reflexivity.
  - eexists. split; [reflexivity |].
    cbv zeta. unfold prop.
    rewrite lookup_insert_ne by discriminate.
    rewrite lookup_insert_ne by discriminate.
    rewrite !lookup_insert_eq. simpl. auto.
Qed.

(** The sample configuration has no [publisher]. *)
Lemma default_publisher_prefix_witness :
  getFieldName (sampleConfig true true VNull) "hasread" = Ok (VStr "msfed_hasread").
Proof.
  destruct (default_publisher_prefix (sampleConfig true true VNull)) as [Hfield _].
  - reflexivity.
  - reflexivity.
  - apply (Hfield "hasread"). reflexivity.
Defined.

(** ** What [processMessages] leaves alone *)

Section Reconciler.

Context `{Host}.
Variable config : jsval.

Lemma processMessages_Ok (w : World) : snd (processMessages w) = Ok tt.
Proof. unfold processMessages. repeat case_match; reflexivity. Qed.

Lemma processMessages_messages (w : World) :
  messages (state (fst (processMessages w))) = messages (state w).
Proof. unfold processMessages. repeat case_match; reflexivity. Qed.

Lemma processMessages_trace (w : World) : trace (fst (processMessages w)) = trace w.
Proof. unfold processMessages. repeat case_match; reflexivity. Qed.

Lemma processMessages_unreadCount (w : World) :
  unreadCount (state (fst (processMessages w)))
  = length (List.filter isUnread (messages (state w))).
Proof. unfold processMessages. repeat case_match; reflexivity. Qed.

Lemma processMessages_eta (w : World) :
  processMessages w = (fst (processMessages w), Ok tt).
Proof.
  rewrite <- (processMessages_Ok w). now destruct (processMessages w).
Qed.

Lemma storeRecords_eq (env : Env) (records : jsval) (w : World) :
  storeRecords config env records w
  = match mapPortalDataToMessages config (lastChecked w) (clock env) records with
    | Ok msgs => (fst (processMessages (set_messages msgs w)), Ok tt)
    | Throw e => (w, Throw e)
    end.
Proof.
  unfold storeRecords, bind_M, modify.
  destruct (mapPortalDataToMessages config (lastChecked w) (clock env) records); simpl.
  - apply processMessages_eta.
  - reflexivity.
Qed.

Lemma storeRecords_trace (env : Env) (records : jsval) (w : World) :
  trace (fst (storeRecords config env records w)) = trace w.
Proof.
  rewrite storeRecords_eq.
  destruct (mapPortalDataToMessages config (lastChecked w) (clock env) records); simpl.
  - now rewrite processMessages_trace.
  - reflexivity.
Qed.

End Reconciler.

(** ** C7: the filter of the read query *)

Lemma getprop_inv (v : jsval) (k : string) (a : jsval) :
  getprop v k = Ok a -> a = get v k /\ nullish v = false.
Proof.
  unfold getprop. destruct (nullish v); [discriminate |].
  intros [= <-]. now split.
Qed.

Lemma readParams_filter (readOps : jsval) :
  List.filter (fun kv => String.eqb (fst kv) "$filter") (readParams readOps)
  = [("$filter",
      if truthy (get readOps "filter")
      then "adx_portalcommentdirectioncode eq 2 and (" +:+ toStr (get readOps "filter") +:+ ")"
      else "adx_portalcommentdirectioncode eq 2")].
Proof.
  unfold readParams.
  destruct (truthy (get readOps "select")), (truthy (get readOps "filter")),
    (truthy (get readOps "orderBy")), (truthy (get readOps "expand")); reflexivity.
Qed.

Section Adapter.

Context `{Host}.
Variable config : jsval.

(** What [loadMessagesFromPortal] adds to the trace: at most one [GET]
    whose parameters are [readParams] of the configured read operation,
    then the rendering call. *)
Lemma loadMessagesFromPortal_trace (env : Env) (w : World) :
  exists evs : list event,
    trace (fst (loadMessagesFromPortal config env w)) = (trace w ++ evs)%list
    /\ forall req : request, In (Fetch req) evs ->
         method req = "GET"
         /\ query req
            = readParams (get (get (get config "portalDataSource") "operations") "read").
Proof.
  unfold loadMessagesFromPortal, try_catch, bind_M, lift, getPortalToken, fetch,
    throw_M, loadFailed, loadSucceeded, modify.
  destruct (getprop config "portalDataSource") as [cfg|] eqn:E1; simpl;
    [| exists [RenderError]; split; [reflexivity | intros req [Hin|[]]; discriminate]].
  apply getprop_inv in E1 as [-> _].
  destruct (getprop _ "operations") as [ops|] eqn:E2; simpl;
    [| exists [RenderError]; split; [reflexivity | intros req [Hin|[]]; discriminate]].
  apply getprop_inv in E2 as [-> _].
  destruct (getprop _ "read") as [readOps|] eqn:E3; simpl;
    [| exists [RenderError]; split; [reflexivity | intros req [Hin|[]]; discriminate]].
  apply getprop_inv in E3 as [-> _].
  destruct (getprop _ "enabled") as [enabled|] eqn:E4; simpl;
    [| exists [RenderError]; split; [reflexivity | intros req [Hin|[]]; discriminate]].
  destruct (truthy enabled); simpl;
    [| exists [RenderError]; split; [reflexivity | intros req [Hin|[]]; discriminate]].
  destruct (portalToken env) as [token|]; simpl;
    [| exists [RenderError]; split; [reflexivity | intros req [Hin|[]]; discriminate]].
  set (req0 := {| method := "GET" |}).
  assert (Hreq : forall e : event, (forall r, e <> Fetch r) ->
             forall req : request, In (Fetch req) [Fetch req0; e] ->
             method req = "GET"
             /\ query req
                = readParams (get (get (get config "portalDataSource") "operations") "read")).
  { intros e Hne req [[= <-]|[->|[]]]; [now split | now destruct (Hne req)]. }
  destruct (respond env req0) as [response|]; simpl;
    [| exists [Fetch req0; RenderError]; split;
       [now rewrite <- app_assoc | now apply Hreq]].
  destruct (ok response); simpl;
    [| exists [Fetch req0; RenderError]; split;
       [now rewrite <- app_assoc | now apply Hreq]].
  destruct (json response) as [data|]; simpl;
    [| exists [Fetch req0; RenderError]; split;
       [now rewrite <- app_assoc | now apply Hreq]].
  destruct (getprop data "value") as [value|]; simpl;
    [| exists [Fetch req0; RenderError]; split;
       [now rewrite <- app_assoc | now apply Hreq]].
  rewrite storeRecords_eq.
  destruct (mapPortalDataToMessages _ _ _ _); simpl.
  - exists [Fetch req0; RenderMessages]. split; [| now apply Hreq].
    rewrite processMessages_trace. simpl. now rewrite <- app_assoc.
  - exists [Fetch req0; RenderError]. split; [now rewrite <- app_assoc | now apply Hreq].
Qed.

End Adapter.

(** C7.  Every read query that the tabular-API loader sends carries
    exactly one [$filter] parameter; it is the inbound-direction
    predicate [adx_portalcommentdirectioncode eq 2] alone when the
    configuration has no filter, and that predicate, [" and "], and the
    configured filter in parentheses when it has one.  The configured
    filter never takes the place of the predicate. *)
Theorem read_query_filter `{Host} (config : jsval) (env : Env) (w : World) (req : request) :
  In (Fetch req) (trace (fst (loadMessagesFromPortal config env w))) ->
  In (Fetch req) (trace w)
  \/ let configured :=
       get (get (get (get config "portalDataSource") "operations") "read") "filter" in
     List.filter (fun kv => String.eqb (fst kv) "$filter") (query req)
     = [("$filter",
         if truthy configured
         then "adx_portalcommentdirectioncode eq 2 and (" +:+ toStr configured +:+ ")"
         else "adx_portalcommentdirectioncode eq 2")].
Proof.
  intros Hin.
  destruct (loadMessagesFromPortal_trace config env w) as (evs & Htrace & Hevs).
  rewrite Htrace in Hin. apply in_app_or in Hin as [Hold | Hnew].
  - now left.
  - right. destruct (Hevs req Hnew) as [_ ->]. apply readParams_filter.
Qed.

(** The read query of the sample configuration with the additional
    filter [statecode eq 0]. *)
Lemma read_query_filter_witness :
  let config := sampleConfig true true (VStr "statecode eq 0") in
  let env := sampleEnv "contoso.powerappsportals.com" 1763202700000
               (Ok {| ok := true; status := 200; text := Ok "";
                      json := Ok (object [("value", VArr [])]) |}) in
  let req :=
    {| method := "GET"; url := "/_api/adx_portalcomments";
       query := [("$filter", "adx_portalcommentdirectioncode eq 2 and (statecode eq 0)");
                 ("$orderby", "createdon desc");
                 ("$expand", "adx_portalcomment_activity_parties($expand=partyid_contact,partyid_systemuser)")];
       headers := [("__RequestVerificationToken", VStr "csrf-token");
                   ("Accept", VStr "application/json")];
       body := None |} in
  In (Fetch req) (trace (fst (loadMessagesFromPortal (H := ISO8601.host) config env emptyWorld)))
  /\ List.filter (fun kv => String.eqb (fst kv) "$filter") (query req)
     = [("$filter", "adx_portalcommentdirectioncode eq 2 and (statecode eq 0)")].
Proof.
  intros config env req.
  assert (Hin : In (Fetch req)
                  (trace (fst (loadMessagesFromPortal (H := ISO8601.host) config env
                                 emptyWorld))))
    by (vm_compute; left; reflexivity).
  split; [exact Hin |].
  destruct (read_query_filter (H := ISO8601.host) config env emptyWorld req Hin)
    as [Hold | Hnew].
  - destruct Hold.
  - exact Hnew.
Defined.

(** ** The field mapper *)

Ltac lookup_literal :=
  unfold prop;
  repeat (rewrite lookup_insert_ne by discriminate);
  rewrite ?lookup_insert_eq, ?lookup_empty;
  cbv beta iota delta [from_option id].

Section Mapper.

Context `{Host}.
Variable config : jsval.

Lemma legacyShaped_not_nullish (comment : jsval) :
  legacyShaped comment = true -> nullish comment = false.
Proof. destruct comment; try discriminate; reflexivity. Qed.

(** A legacy-shaped record is rebuilt from seven of its properties. *)
Lemma mapComment_legacy (stored : option Z) (now : Z) (comment : jsval) :
  legacyShaped comment = true ->
  mapComment config stored now comment
  = Ok (<["category" := get comment "category" ||| VStr "general"]>
       (<["read" := if negb (strict_eq (get comment "read") VUndef)
                    then get comment "read" else VBool false]>
       (<["date" := get comment "date"]>
       (<["body" := get comment "body" ||| VStr ""]>
       (<["subject" := get comment "subject" ||| VStr "(No Subject)"]>
       (<["from" := get comment "from"]>
       (<["id" := get comment "id"]> ∅))))))).
Proof.
  intros Hl. unfold mapComment.
  rewrite getprop_Ok by now apply legacyShaped_not_nullish.
  simpl JS.bind. unfold legacyShaped in Hl. now rewrite Hl.
Qed.

(** A record of the other shape that is mapped went through every
    check of the relationship-backed branch. *)
Lemma mapComment_relationship (stored : option Z) (now : Z) (comment : jsval) (msg : obj) :
  legacyShaped comment = false ->
  mapComment config stored now comment = Ok msg ->
  exists toParty hasReadField : jsval,
    truthy (get comment "_createdby_value") = true
    /\ negb (truthy (get comment "adx_portalcomment_activity_parties"))
       || strict_eq (get (get comment "adx_portalcomment_activity_parties") "length") (VNum 0)
       = false
    /\ find isContactParty (get comment "adx_portalcomment_activity_parties") = Ok toParty
    /\ truthy toParty = true
    /\ getFieldName config "hasread" = Ok hasReadField
    /\ truthy (optchain (get toParty "partyid_contact") "contactid") = true
    /\ truthy (get comment "_createdby_value@OData.Community.Display.V1.FormattedValue") = true
    /\ msg = relationshipMessage stored now comment toParty hasReadField.
Proof.
  intros Hl. unfold mapComment.
  destruct (getprop comment "from") as [from|] eqn:Efrom; [| discriminate]. simpl JS.bind.
  apply getprop_inv in Efrom as [-> _].
  unfold legacyShaped in Hl. rewrite Hl.
  destruct (truthy (get comment "_createdby_value")) eqn:Eby; [| discriminate].
  cbn [negb]. cbv iota.
  destruct (negb (truthy (get comment "adx_portalcomment_activity_parties"))
            || strict_eq (get (get comment "adx_portalcomment_activity_parties") "length") (VNum 0))
    eqn:Eparties; [discriminate |].
  destruct (find isContactParty _) as [toParty|] eqn:Efind; [| discriminate]. simpl JS.bind.
  destruct (truthy toParty) eqn:Eparty; [| discriminate]. cbn [negb]. cbv iota.
  destruct (getFieldName config "hasread") as [hasReadField|] eqn:Efield; [| discriminate].
  simpl JS.bind.
  destruct (truthy (optchain (get toParty "partyid_contact") "contactid")) eqn:Eid;
    [| discriminate]. cbn [negb]. cbv iota.
  destruct (truthy (get comment "_createdby_value@OData.Community.Display.V1.FormattedValue"))
    eqn:Ename'; [| discriminate]. cbn [negb]. cbv iota.
  destruct (getprop (get toParty "partyid_contact") "fullname") as [toContact|] eqn:Ename;
    [| discriminate]. simpl JS.bind.
  apply getprop_inv in Ename as [-> _].
  intros [= <-]. exists toParty, hasReadField. repeat split; auto.
Qed.

(** Conversely, a record that passes the checks is mapped, whatever the
    stored timestamp and the clock. *)
Lemma mapComment_relationship_intro (comment toParty hasReadField : jsval) :
  legacyShaped comment = false ->
  truthy (get comment "_createdby_value") = true ->
  negb (truthy (get comment "adx_portalcomment_activity_parties"))
  || strict_eq (get (get comment "adx_portalcomment_activity_parties") "length") (VNum 0)
  = false ->
  find isContactParty (get comment "adx_portalcomment_activity_parties") = Ok toParty ->
  truthy toParty = true ->
  getFieldName config "hasread" = Ok hasReadField ->
  truthy (optchain (get toParty "partyid_contact") "contactid") = true ->
  truthy (get comment "_createdby_value@OData.Community.Display.V1.FormattedValue") = true ->
  forall (stored : option Z) (now : Z),
    mapComment config stored now comment
    = Ok (relationshipMessage stored now comment toParty hasReadField).
Proof.
  intros Hshape Hby Hparties Hfind Hparty Hfield Hid Hname stored now.
  unfold mapComment.
  rewrite getprop_Ok by (destruct comment; try discriminate; reflexivity).
  simpl JS.bind. unfold legacyShaped in Hshape.
  rewrite Hshape, Hby, Hparties, Hfind. simpl JS.bind.
  rewrite Hparty, Hfield. simpl JS.bind. rewrite Hid, Hname.
  rewrite getprop_Ok; [reflexivity |].
  unfold optchain in Hid. now destruct (nullish (get toParty "partyid_contact")).
Qed.

End Mapper.

(** ** C9: records in the legacy shape *)

(** C9 (amended).  A record in the legacy shape is mapped to an object
    with exactly the seven properties [id], [from], [subject], [body],
    [date], [read] and [category].  [id], [from], [body] and [date] are
    carried over; [subject] becomes ["(No Subject)"] when it is falsy,
    [read] becomes [false] when it is [undefined], [category] becomes
    ["general"] when it is falsy; any other property of the record is
    dropped. *)
Theorem legacy_record_mapping `{Host} (config : jsval) (stored : option Z) (now : Z)
    (comment : jsval) :
  legacyShaped comment = true ->
  exists msg : obj,
    mapComment config stored now comment = Ok msg
    /\ dom msg = ({["id"]} ∪ {["from"]} ∪ {["subject"]} ∪ {["body"]} ∪ {["date"]}
                  ∪ {["read"]} ∪ {["category"]} : gset string)
    /\ prop msg "id" = get comment "id"
    /\ prop msg "from" = get comment "from"
    /\ prop msg "body" = get comment "body"
    /\ prop msg "date" = get comment "date"
    /\ prop msg "subject" = get comment "subject" ||| VStr "(No Subject)"
    /\ prop msg "read"
       = (if strict_eq (get comment "read") VUndef then VBool false else get comment "read")
    /\ prop msg "category" = get comment "category" ||| VStr "general".
Proof.
  intros Hl. eexists. split; [now apply mapComment_legacy |].
  split; [rewrite !dom_insert_L, dom_empty_L; set_solver |].
  unfold legacyShaped in Hl. apply andb_true_iff in Hl as [Hl _].
  apply andb_true_iff in Hl as [_ Hbody].
  repeat split; lookup_literal; try reflexivity.
  - now apply or_else_truthy.
  - now destruct (strict_eq (get comment "read") VUndef).
Qed.

(** A legacy record that carries [read: true] *)
Lemma legacy_record_mapping_witness :
  exists msg : obj,
    mapComment (H := ISO8601.host) (sampleConfig true true VNull) None 0
      (sampleLegacy "m1" "2025-11-15T10:30:00Z" [("read", VBool true)]) = Ok msg
    /\ prop msg "read" = VBool true.
Proof.
  destruct (legacy_record_mapping (H := ISO8601.host) (sampleConfig true true VNull) None 0
              (sampleLegacy "m1" "2025-11-15T10:30:00Z" [("read", VBool true)]))
    as (msg & Hmap & _ & _ & _ & _ & _ & _ & Hread & _).
  - reflexivity.
  - exists msg. split; [exact Hmap | exact Hread].
Defined.

(** C9 as stated fails on a legacy record that has a [priority] and
    neither [read] nor [category]: the message has the substituted
    [read] and [category], and has lost [priority]. *)
Lemma legacy_record_not_passed_through :
  let record := sampleLegacy "m1" "2025-11-15T10:30:00Z" [("priority", VStr "high")] in
  match mapComment (H := ISO8601.host) (sampleConfig true true VNull) None 0 record with
  | Ok msg =>
      legacyShaped record = true
      /\ get record "category" = VUndef /\ prop msg "category" = VStr "general"
      /\ get record "read" = VUndef /\ prop msg "read" = VBool false
      /\ get record "priority" = VStr "high" /\ prop msg "priority" = VUndef
  | Throw _ => False
  end.
Proof. vm_compute. repeat split. Qed.

(** ** C1: the derived read flag *)

Lemma mapPortalDataToMessages_Forall2 `{Host} (config : jsval) (stored : option Z) (now : Z)
    (records : list jsval) (msgs : list obj) :
  mapPortalDataToMessages config stored now (VArr records) = Ok msgs ->
  Forall2 (fun comment msg => mapComment config stored now comment = Ok msg) records msgs.
Proof.
  simpl. revert msgs. induction records as [|comment records IH]; simpl; intros msgs.
  - intros [= <-]. constructor.
  - destruct (mapComment config stored now comment) as [msg|] eqn:Emap; [| discriminate].
    simpl. destruct (map_result _ records) as [rest|]; [| discriminate].
    simpl. intros [= <-]. constructor; [exact Emap | now apply IH].
Qed.

(** C1 (amended).  Every message of a load cycle gets its read flag as
    follows.  For a relationship-backed record: the configured server
    field verbatim when it is neither [undefined] nor [null], whatever
    the stored timestamp; otherwise [D <= lastCheckedAt], where [D] is
    the record's [createdon], else its [date], else the current time (so
    [D] is the date of the message whenever [createdon] is present) and
    [lastCheckedAt] is the epoch when nothing is stored.  For a record in
    the legacy shape: the record's own [read] property, or [false] when
    it is [undefined]; neither the server field nor the stored timestamp
    is consulted. *)
Theorem read_flag_derivation `{Host} (config : jsval) (stored : option Z) (now : Z)
    (records : list jsval) (msgs : list obj) :
  mapPortalDataToMessages config stored now (VArr records) = Ok msgs ->
  Forall2
    (fun comment msg =>
       if legacyShaped comment
       then prop msg "read"
            = (if strict_eq (get comment "read") VUndef then VBool false
               else get comment "read")
       else exists hasReadField : jsval,
              getFieldName config "hasread" = Ok hasReadField
              /\ let flag := get comment (toStr hasReadField) in
                 if nullish flag
                 then
                   let created := get comment "createdon" ||| get comment "date" in
                   let D := if truthy created then newDate created else Some now in
                   prop msg "read" = VBool (date_le D (Some (default 0 stored)))
                   /\ (truthy (get comment "createdon") = true ->
                       D = newDate (prop msg "date"))
                 else prop msg "read" = flag)
    records msgs.
Proof.
  intros Hmap. apply mapPortalDataToMessages_Forall2 in Hmap.
  induction Hmap as [|comment msg records msgs Hone _ IH]; constructor; [| exact IH].
  destruct (legacyShaped comment) eqn:Hshape.
  - rewrite mapComment_legacy in Hone by exact Hshape. injection Hone as <-.
    lookup_literal. now destruct (strict_eq (get comment "read") VUndef).
  - apply mapComment_relationship in Hone as (toParty & field & _ & _ & _ & _ & Hfield & _ & _ & ->);
      [| exact Hshape].
    exists field. split; [exact Hfield |]. cbv zeta.
    unfold relationshipMessage. lookup_literal. unfold isRead.
    destruct (nullish (get comment (toStr field))); cbn [negb]; cbv iota; [| reflexivity].
    split; [reflexivity |].
    intros Hcreated. rewrite !(or_else_truthy (get comment "createdon")) by exact Hcreated.
    now rewrite Hcreated.
Qed.

(** A relationship-backed record created at the stored instant *)
Lemma read_flag_derivation_witness :
  let comment := sampleComment "a1" "2025-11-15T10:30:00Z" [sampleParty 2 "c-1" "Pat"] [] in
  let msg :=
    relationshipMessage (H := ISO8601.host) (Some 1763202600000) 0 comment
      (sampleParty 2 "c-1" "Pat") (VStr "msfed_hasread") in
  mapPortalDataToMessages (H := ISO8601.host) (sampleConfig true true VNull)
    (Some 1763202600000) 0 (VArr [comment]) = Ok [msg]
  /\ prop msg "read" = VBool true.
Proof.
  intros comment msg.
  assert (Hmap : mapPortalDataToMessages (H := ISO8601.host) (sampleConfig true true VNull)
                   (Some 1763202600000) 0 (VArr [comment]) = Ok [msg])
    by vm_refl.
  split; [exact Hmap |].
  pose proof (read_flag_derivation (H := ISO8601.host) _ _ _ _ _ Hmap) as Hall.
  apply Forall2_cons_1 in Hall as [Hone _].
  change (legacyShaped comment) with false in Hone.
  destruct Hone as (field & Hfield & Hread).
  injection Hfield as <-.
  change (nullish (get comment (toStr (VStr "msfed_hasread")))) with true in Hread.
  destruct Hread as [Hread _]. rewrite Hread. reflexivity.
Defined.

(** C1 as stated fails on records in the legacy shape.  With the stored
    timestamp at 2025-11-15T10:30:00Z, a record dated 2025-01-01 that
    has neither the server field nor [read] is mapped to an unread
    message although its date is before the timestamp, and a record
    whose server field is [true] and whose [read] is [false] is mapped
    to an unread message too. *)
Lemma legacy_read_flag_not_derived :
  let config := sampleConfig true true VNull in
  let stored := Some 1763202600000 in
  let plain := sampleLegacy "m1" "2025-01-01T00:00:00Z" [] in
  let flagged :=
    sampleLegacy "m2" "2025-01-01T00:00:00Z"
      [("msfed_hasread", VBool true); ("read", VBool false)] in
  match mapPortalDataToMessages (H := ISO8601.host) config stored 1763202700000
          (VArr [plain; flagged]) with
  | Ok [m1; m2] =>
      getFieldName config "hasread" = Ok (VStr "msfed_hasread")
      /\ get plain "msfed_hasread" = VUndef
      /\ date_le (newDate (H := ISO8601.host) (prop m1 "date"))
                 (Some (lastCheckedDate stored)) = true
      /\ prop m1 "read" = VBool false
      /\ get flagged "msfed_hasread" = VBool true
      /\ prop m2 "read" = VBool false
  | _ => False
  end.
Proof. vm_compute. repeat split. Qed.

(** ** C4: the recipient party *)






(** ** C8: write operations that are not enabled *)

Section Writes.

Variable config : jsval.

(** The [catch] of [updatePortalCommentReadStatus] swallows every
    failure: the promise always resolves. *)
Lemma updatePortalCommentReadStatus_Ok (env : Env) (messageId hasRead : jsval) (w : World) :
  snd (updatePortalCommentReadStatus config env messageId hasRead w) = Ok tt.
Proof.
  unfold updatePortalCommentReadStatus, try_catch, bind_M, lift, ret_M, throw_M,
    getPortalToken, fetch.
  repeat case_match; simplify_eq; try reflexivity.
Qed.

Lemma updatePortalCommentReadStatus_state (env : Env) (messageId hasRead : jsval) (w : World) :
  state (fst (updatePortalCommentReadStatus config env messageId hasRead w)) = state w
  /\ lastChecked (fst (updatePortalCommentReadStatus config env messageId hasRead w))
     = lastChecked w.
Proof.
  unfold updatePortalCommentReadStatus, try_catch, bind_M, lift, ret_M, throw_M,
    getPortalToken, fetch.
  repeat case_match; unfold lift in *; simplify_eq; split; reflexivity.
Qed.

End Writes.

(** C8 (amended).  With the corresponding operation not enabled, neither
    write operation of the tabular-API strategy makes a network call.
    [createReply] then reports the structured failure
    [{success: false, message: "Create operations are not enabled"}];
    [updatePortalCommentReadStatus] returns normally, as it does after
    any failure, and reports nothing to its caller. *)
Theorem disabled_write_operations (config : jsval) (env : Env) (w : World)
    (messageId value replyText : jsval) :
  let operations := get (get config "portalDataSource") "operations" in
  nullish (get config "portalDataSource") = false ->
  nullish operations = false ->
  (truthy (get operations "update") && truthy (get (get operations "update") "enabled") = false ->
   updatePortalCommentReadStatus config env messageId value w = (w, Ok tt))
  /\ (isLocalEnvironment env = false ->
      truthy (get config "portalDataSource") = true ->
      nullish (get operations "create") = false ->
      truthy (get (get operations "create") "enabled") = false ->
      createReply config env messageId replyText w
      = (w, Ok (replyResult false "Create operations are not enabled")))
  /\ snd (updatePortalCommentReadStatus config env messageId value w) = Ok tt.
Proof.
  intros operations Hsource Hoperations.
  assert (Hconfig : nullish config = false) by (destruct config; try discriminate; reflexivity).
  split; [| split].
  - intros Hupdate.
    unfold updatePortalCommentReadStatus, try_catch, bind_M, lift, ret_M.
    rewrite (getprop_Ok config) by exact Hconfig.
    rewrite (getprop_Ok (get config "portalDataSource")) by exact Hsource.
    rewrite (getprop_Ok (get (get config "portalDataSource") "operations")) by exact Hoperations.
    fold operations. rewrite <- negb_andb, Hupdate. reflexivity.
  - intros Hremote Htruthy Hcreate Henabled.
    unfold createReply, try_catch, bind_M, lift, ret_M, throw_M.
    rewrite Hremote. rewrite (getprop_Ok config) by exact Hconfig.
    simpl JS.bind. rewrite Htruthy. cbn [negb]. cbv iota.
    rewrite (getprop_Ok (get config "portalDataSource")) by exact Hsource.
    rewrite (getprop_Ok (get (get config "portalDataSource") "operations")) by exact Hoperations.
    fold operations. rewrite (getprop_Ok (get operations "create")) by exact Hcreate.
    rewrite Henabled. reflexivity.
  - apply updatePortalCommentReadStatus_Ok.
Qed.

(** A reply with [create] disabled *)
Lemma disabled_write_operations_witness :
  let env := sampleEnv "contoso.powerappsportals.com" 1763202700000
               (Throw (Error "Failed to fetch")) in
  createReply (sampleConfig false false VNull) env (VStr "a1") (VStr "Thanks") emptyWorld
  = (emptyWorld, Ok (replyResult false "Create operations are not enabled")).
Proof.
  intros env.
  destruct (disabled_write_operations (sampleConfig false false VNull) env emptyWorld
              (VStr "a1") (VBool true) (VStr "Thanks")) as (_ & Hcreate & _).
  - reflexivity.
  - reflexivity.
  - apply Hcreate; reflexivity.
Defined.

(** C8 as stated fails for the read-status update: with [update]
    disabled the operation completes normally, without a failure and
    without a network call. *)
Lemma disabled_update_is_silent :
  let env := sampleEnv "contoso.powerappsportals.com" 1763202700000
               (Throw (Error "Failed to fetch")) in
  updatePortalCommentReadStatus (sampleConfig true false VNull) env (VStr "a1") (VBool true)
    emptyWorld
  = (emptyWorld, Ok tt).
Proof. vm_compute. reflexivity. Qed.

(** ** C3: the reply payload *)

Lemma last_char_append (s t : string) :
  t <> "" -> last_char (s +:+ t) = last_char t.
Proof.
  intros Ht. induction s as [|c s IH]; simpl; [reflexivity |].
  rewrite <- IH. destruct (s +:+ t) eqn:E; [| reflexivity].
  destruct s; [now destruct Ht | discriminate].
Qed.

Lemma bind_key_fresh (navigationProperty key : string) :
  last_char key <> Some "d"%char -> navigationProperty +:+ "@odata.bind" <> key.
Proof.
  intros Hlast <-. apply Hlast. now rewrite last_char_append.
Qed.

(** C3.  In a hosted context with [create] enabled and a token
    available, replying to a loaded message [M] whose [toContactId] and
    [fromStaffId] are present (truthy, as [createReply] tests them; for
    a mapped message this is the same as not [null], see
    [mapComment_identities]) sends one [POST] whose payload has:
    an activity-party list of exactly two entries, the first with
    participation role 1 bound to [/contacts(M.toContactId)], the second
    with participation role 2 bound to [/systemusers(M.fromStaffId)];
    subject ["Re: " + M.subject]; the reply text, unchanged, as
    description; and direction code 1. *)
Theorem reply_payload_parties (config : jsval) (env : Env) (w : World)
    (messageId replyText token : jsval) (i : nat) (M : obj) :
  isLocalEnvironment env = false ->
  truthy (get (get (get (get config "portalDataSource") "operations") "create") "enabled")
  = true ->
  portalToken env = Ok token ->
  getMessage messageId w = Some (i, M) ->
  truthy (prop M "toContactId") = true ->
  truthy (prop M "fromStaffId") = true ->
  exists (req : request) (payload : obj),
    trace (fst (createReply config env messageId replyText w)) = (trace w ++ [Fetch req])%list
    /\ method req = "POST"
    /\ body req = Some payload
    /\ prop payload "adx_portalcomment_activity_parties"
       = VArr [VObj (<["partyid_contact@odata.bind" :=
                         VStr ("/contacts(" +:+ toStr (prop M "toContactId") +:+ ")")]>
                    (<["participationtypemask" := VNum 1]> ∅));
               VObj (<["partyid_systemuser@odata.bind" :=
                         VStr ("/systemusers(" +:+ toStr (prop M "fromStaffId") +:+ ")")]>
                    (<["participationtypemask" := VNum 2]> ∅))]
    /\ prop payload "subject" = VStr ("Re: " +:+ toStr (prop M "subject"))
    /\ prop payload "description" = replyText
    /\ prop payload "adx_portalcommentdirectioncode" = VNum 1.
Proof.
  intros Hremote Henabled Htoken Hfind Hcontact Hstaff.
  assert (Hcreate : nullish (get (get (get config "portalDataSource") "operations") "create")
                    = false)
    by (destruct (get (get (get config "portalDataSource") "operations") "create");
        try discriminate; reflexivity).
  assert (Hoperations : nullish (get (get config "portalDataSource") "operations") = false)
    by (destruct (get (get config "portalDataSource") "operations");
        try discriminate; reflexivity).
  assert (Hsource : truthy (get config "portalDataSource") = true)
    by (destruct (get config "portalDataSource"); try discriminate; reflexivity).
  assert (Hconfig : nullish config = false) by (destruct config; try discriminate; reflexivity).
  unfold createReply, try_catch, bind_M, lift, ret_M, throw_M, getPortalToken, fetch,
    getRegardingObjectConfig.
  rewrite Hremote. rewrite !(getprop_Ok config) by exact Hconfig.
  simpl JS.bind. rewrite Hsource. cbn [negb]. cbv beta iota.
  rewrite (getprop_Ok (get config "portalDataSource")) by now apply truthy_not_nullish.
  rewrite (getprop_Ok (get (get config "portalDataSource") "operations")) by exact Hoperations.
  rewrite (getprop_Ok (get (get (get config "portalDataSource") "operations") "create"))
    by exact Hcreate.
  rewrite Henabled. cbn [negb]. cbv beta iota.
  rewrite Hfind, Hcontact, Hstaff, Htoken. cbn [negb]. cbv beta iota.
  unfold lift. cbn [JS.bind]. cbv beta iota.
  match goal with |- context [respond env ?r] => set (req := r) end.
  exists req. eexists.
  split.
  { destruct (respond env req) as [response|]; [| reflexivity].
    destruct (negb (ok response)); [| reflexivity].
    destruct (text response); reflexivity. }
  split; [reflexivity |]. split; [reflexivity |].
  unfold replyPayload.
  split; [unfold prop; now rewrite lookup_insert_eq |].
  repeat split; unfold prop at 1;
    rewrite (lookup_insert_ne _ "adx_portalcomment_activity_parties") by discriminate;
    rewrite (lookup_insert_ne _ (_ +:+ "@odata.bind")) by (apply bind_key_fresh; discriminate);
    repeat (rewrite lookup_insert_ne by discriminate);
    now rewrite lookup_insert_eq.
Qed.

(** A reply to the message mapped from the sample record *)
Lemma reply_payload_parties_witness :
  let config := sampleConfig true true VNull in
  let env := sampleEnv "contoso.powerappsportals.com" 1763202700000
               (Ok {| ok := true; status := 204; text := Ok ""; json := Ok VNull |}) in
  let comment := sampleComment "a1" "2025-11-15T10:30:00Z" [sampleParty 2 "c-1" "Pat"] [] in
  let w := fst (storeRecords (H := ISO8601.host) config env (VArr [comment]) emptyWorld) in
  exists (req : request) (payload : obj),
    trace (fst (createReply config env (VStr "a1") (VStr "Thanks") w)) = [Fetch req]
    /\ body req = Some payload
    /\ prop payload "adx_portalcomment_activity_parties"
       = VArr [object [("participationtypemask", VNum 1);
                       ("partyid_contact@odata.bind", VStr "/contacts(c-1)")];
               object [("participationtypemask", VNum 2);
                       ("partyid_systemuser@odata.bind", VStr "/systemusers(staff-7)")]]
    /\ prop payload "subject" = VStr "Re: Your application".
Proof.
  intros config env comment w.
  destruct (reply_payload_parties config env w (VStr "a1") (VStr "Thanks") (VStr "csrf-token")
              0%nat
              (relationshipMessage (H := ISO8601.host) None 1763202700000 comment
                 (sampleParty 2 "c-1" "Pat") (VStr "msfed_hasread")))
    as (req & payload & Htrace & _ & Hbody & Hparties & Hsubject & _).
  - vm_refl.
  - vm_refl.
  - vm_refl.
  - vm_refl.
  - vm_refl.
  - vm_refl.
  - exists req, payload. split; [exact Htrace |]. split; [exact Hbody |].
    split; [rewrite Hparties | rewrite Hsubject]; vm_refl.
Defined.

(** ** The stored timestamp *)

Section Timestamp.

Context `{Host}.
Variable config : jsval.

(** [processMessages] either leaves the stored timestamp or replaces it
    by a strictly later one. *)
Lemma processMessages_lastChecked (w : World) :
  lastChecked (fst (processMessages w)) = lastChecked w
  \/ exists t : Z, lastChecked (fst (processMessages w)) = Some t
                   /\ lastCheckedDate (lastChecked w) < t.
Proof.
  unfold processMessages.
  destruct (List.filter _ (messages (state w))) as [|first rest]; [now left |].
  destruct (date_gt _ _) eqn:Hgt; [| now left].
  apply date_gt_spec in Hgt as (t & c & Ht & [= <-] & Hlt).
  right. exists t. simpl. now split.
Qed.

Lemma processMessages_monotone (w : World) :
  lastCheckedDate (lastChecked w) <= lastCheckedDate (lastChecked (fst (processMessages w))).
Proof.
  destruct (processMessages_lastChecked w) as [-> | (t & -> & Hlt)]; simpl; lia.
Qed.

Lemma updateMessageReadStatus_state (env : Env) (messageId isRead : jsval) (w : World) :
  state (fst (updateMessageReadStatus config env messageId isRead w)) = state w.
Proof.
  unfold updateMessageReadStatus, try_catch, bind_M, lift, ret_M.
  destruct (if isLocalEnvironment env then _ else _) as [[]|]; simpl; try reflexivity.
  destruct (getMessage messageId w) as [[i message]|]; [| reflexivity].
  destruct (truthy isRead); [| reflexivity].
  match goal with
  | |- context [updatePortalCommentReadStatus config env messageId ?v ?w0] =>
      pose proof (updatePortalCommentReadStatus_state config env messageId v w0) as [Hs _];
      pose proof (updatePortalCommentReadStatus_Ok config env messageId v w0) as Hok;
      destruct (updatePortalCommentReadStatus config env messageId v w0) as [w' r]
  end.
  simpl in Hs, Hok. subst r. simpl. rewrite Hs. now destruct (date_gt _ _).
Qed.

(** The timestamp after [updateMessageReadStatus]: unchanged in a local
    context, without a portal data source, or for a message that is not
    loaded; otherwise advanced to the date of the message when that date
    is later. *)
Lemma updateMessageReadStatus_lastChecked (env : Env) (messageId : jsval) (w : World) :
  lastChecked (fst (updateMessageReadStatus config env messageId (VBool true) w))
  = lastChecked w
  \/ exists (i : nat) (message : obj) (t : Z),
       getMessage messageId w = Some (i, message)
       /\ newDate (prop message "date") = Some t
       /\ lastCheckedDate (lastChecked w) < t
       /\ lastChecked (fst (updateMessageReadStatus config env messageId (VBool true) w))
          = Some t.
Proof.
  unfold updateMessageReadStatus, try_catch, bind_M, lift, ret_M.
  destruct (if isLocalEnvironment env then _ else _) as [[]|]; simpl; try now left.
  destruct (getMessage messageId w) as [[i message]|] eqn:Hfind; [| now left].
  match goal with
  | |- context [updatePortalCommentReadStatus config env messageId ?v ?w0] =>
      pose proof (updatePortalCommentReadStatus_state config env messageId v w0) as [_ Hl];
      pose proof (updatePortalCommentReadStatus_Ok config env messageId v w0) as Hok;
      destruct (updatePortalCommentReadStatus config env messageId v w0) as [w' r]
  end.
  simpl in Hl, Hok. subst r. simpl. rewrite Hl.
  destruct (date_gt _ _) eqn:Hgt; [| now left].
  apply date_gt_spec in Hgt as (t & c & Ht & [= <-] & Hlt).
  right. exists i, message, t. rewrite Ht. auto.
Qed.

(** Loading and marking one message never move the timestamp back. *)
Lemma markMessageAsRead_monotone (env : Env) (messageId : jsval) (w : World) :
  lastCheckedDate (lastChecked w)
  <= lastCheckedDate (lastChecked (fst (markMessageAsRead config env messageId w))).
Proof.
  unfold markMessageAsRead.
  destruct (getMessage messageId w) as [[i message]|]; [| simpl; lia].
  destruct (truthy (prop message "read")); [simpl; lia |].
  etransitivity; [| apply processMessages_monotone].
  match goal with
  | |- context [updateMessageReadStatus config env messageId _ ?w0] =>
      destruct (updateMessageReadStatus_lastChecked env messageId w0)
        as [-> | (j & m & t & _ & _ & Hlt & ->)]
  end; simpl in *; lia.
Qed.

Lemma storeRecords_monotone (env : Env) (records : jsval) (w : World) :
  lastCheckedDate (lastChecked w)
  <= lastCheckedDate (lastChecked (fst (storeRecords config env records w))).
Proof.
  rewrite storeRecords_eq.
  destruct (mapPortalDataToMessages _ _ _ _) as [msgs|]; simpl; [| lia].
  etransitivity; [| apply processMessages_monotone]. simpl. lia.
Qed.

End Timestamp.

(** ** C2: the stored timestamp can move backward *)

(** C2 fails on the code.  The server stamps a message five minutes
    ahead of the browser clock.  The message is loaded and opened, which
    stores its date; the next load returns no record (a read message is
    set to the completed state and leaves a filtered query).
    [markAllMessagesAsRead] then writes the browser's current time,
    which is earlier than the stored value. *)
Lemma markAll_moves_lastChecked_backward :
  let config := sampleConfig true true (VStr "statecode eq 0") in
  let served (records : list jsval) :=
    sampleEnv "contoso.powerappsportals.com" 1763202700000
      (Ok {| ok := true; status := 200; text := Ok "";
             json := Ok (object [("value", VArr records)]) |}) in
  let ahead := sampleComment "a1" "2025-11-15T10:35:00Z" [sampleParty 2 "c-1" "Pat"] [] in
  let w1 := fst (loadMessages (H := ISO8601.host) config (served [ahead]) emptyWorld) in
  let w2 := fst (markMessageAsRead (H := ISO8601.host) config (served []) (VStr "a1") w1) in
  let w3 := fst (loadMessages (H := ISO8601.host) config (served []) w2) in
  let w4 := fst (markAllMessagesAsRead (H := ISO8601.host) (served []) w3) in
  unreadCount (state w1) = 1%nat
  /\ lastChecked w1 = None
  /\ lastChecked w2 = Some 1763202900000
  /\ lastChecked w3 = Some 1763202900000
  /\ lastChecked w4 = Some 1763202700000.
Proof. vm_compute. repeat split. Qed.

(** ** The load cycle *)

Section Load.

Context `{Host}.
Variable config : jsval.

(** The identities of a mapped message are present exactly when they are
    truthy: a legacy message has none, a relationship-backed message has
    both. *)
Lemma mapComment_identities (stored : option Z) (now : Z) (comment : jsval) (msg : obj) :
  mapComment config stored now comment = Ok msg ->
  (nullish (prop msg "toContactId") = false -> truthy (prop msg "toContactId") = true)
  /\ (nullish (prop msg "fromStaffId") = false -> truthy (prop msg "fromStaffId") = true).
Proof.
  intros Hmap. destruct (legacyShaped comment) eqn:Hshape.
  - rewrite mapComment_legacy in Hmap by exact Hshape. injection Hmap as <-.
    split; lookup_literal; discriminate.
  - apply mapComment_relationship in Hmap
      as (toParty & field & Hby & _ & _ & _ & _ & Hid & _ & ->); [| exact Hshape].
    unfold relationshipMessage. split; lookup_literal; auto.
Qed.

Lemma try_catch_lift {A B} (r : result A) (k : A -> M B) (handler : exn -> M B) (w : World) :
  try_catch (bind_M (lift r) k) handler w
  = match r with
    | Ok a => try_catch (k a) handler w
    | Throw e => handler e w
    end.
Proof. unfold try_catch, bind_M, lift. now destruct r. Qed.

Lemma try_catch_fetch {B} (env : Env) (req : request) (k : response -> M B)
    (handler : exn -> M B) (w : World) :
  try_catch (bind_M (fetch env req) k) handler w
  = match respond env req with
    | Ok a => try_catch (k a) handler (emit (Fetch req) w)
    | Throw e => handler e (emit (Fetch req) w)
    end.
Proof. unfold try_catch, bind_M, fetch. now destruct (respond env req). Qed.

(** The end of both loaders: store the records and render. *)
Lemma load_tail (env : Env) (records : jsval) (w : World) :
  let w' := fst (try_catch (bind_M (storeRecords config env records) (fun _ => loadSucceeded))
                   (fun _ => loadFailed) w) in
  (messages (state w') = messages (state w) /\ lastChecked w' = lastChecked w)
  \/ (snd (storeRecords config env records w) = Ok tt
      /\ state w' = state (set_loading false true (fst (storeRecords config env records w)))
      /\ lastChecked w' = lastChecked (fst (storeRecords config env records w))).
Proof.
  unfold try_catch, bind_M, loadSucceeded, loadFailed, modify.
  rewrite storeRecords_eq.
  destruct (mapPortalDataToMessages config (lastChecked w) (clock env) records); simpl.
  - right. repeat split; reflexivity.
  - left. now split.
Qed.

Ltac load_failed := left; split; reflexivity.

Ltac load_stored w0 :=
  match goal with
  | |- context [bind_M (storeRecords config ?env ?records)] =>
      destruct (load_tail env records w0) as [[Hm Hl] | (Hok & Hs & Hl)];
      [ left; split; [exact Hm | exact Hl]
      | right; exists records, w0; repeat split; try reflexivity; assumption ]
  end.

(** A load cycle either leaves the messages and the stored timestamp as
    they were (no source, or a failure before the records are stored),
    or stores the records it fetched: messages, unread count and
    timestamp are those of [storeRecords]. *)
Lemma loadMessagesFromPortal_cases (env : Env) (w : World) :
  (messages (state (fst (loadMessagesFromPortal config env w))) = messages (state w)
   /\ lastChecked (fst (loadMessagesFromPortal config env w)) = lastChecked w)
  \/ exists (records : jsval) (w0 : World),
       messages (state w0) = messages (state w)
       /\ lastChecked w0 = lastChecked w
       /\ snd (storeRecords config env records w0) = Ok tt
       /\ state (fst (loadMessagesFromPortal config env w))
          = state (set_loading false true (fst (storeRecords config env records w0)))
       /\ lastChecked (fst (loadMessagesFromPortal config env w))
          = lastChecked (fst (storeRecords config env records w0)).
Proof.
  unfold loadMessagesFromPortal, getPortalToken.
  rewrite try_catch_lift. destruct (getprop config "portalDataSource"); [| load_failed].
  rewrite try_catch_lift. destruct (getprop _ "operations"); [| load_failed].
  rewrite try_catch_lift. destruct (getprop _ "read"); [| load_failed].
  rewrite try_catch_lift. destruct (getprop _ "enabled") as [enabled|]; [| load_failed].
  destruct (negb (truthy enabled)); [load_failed |].
  rewrite try_catch_lift. destruct (portalToken env); [| load_failed].
  rewrite try_catch_fetch. destruct (respond env _) as [response|]; [| load_failed].
  destruct (negb (ok response)); [load_failed |].
  rewrite try_catch_lift. destruct (json response); [| load_failed].
  rewrite try_catch_lift. destruct (getprop _ "value"); [| load_failed].
  match goal with |- context [try_catch _ _ ?w0] => load_stored w0 end.
Qed.

Lemma loadMessagesFromLocal_cases (env : Env) (w : World) :
  (messages (state (fst (loadMessagesFromLocal config env w))) = messages (state w)
   /\ lastChecked (fst (loadMessagesFromLocal config env w)) = lastChecked w)
  \/ exists (records : jsval) (w0 : World),
       messages (state w0) = messages (state w)
       /\ lastChecked w0 = lastChecked w
       /\ snd (storeRecords config env records w0) = Ok tt
       /\ state (fst (loadMessagesFromLocal config env w))
          = state (set_loading false true (fst (storeRecords config env records w0)))
       /\ lastChecked (fst (loadMessagesFromLocal config env w))
          = lastChecked (fst (storeRecords config env records w0)).
Proof.
  unfold loadMessagesFromLocal.
  rewrite try_catch_lift. destruct (getprop config "localDataSource"); [| load_failed].
  rewrite try_catch_fetch. destruct (respond env _) as [response|]; [| load_failed].
  destruct (negb (ok response)); [load_failed |].
  rewrite try_catch_lift. destruct (json response); [| load_failed].
  rewrite try_catch_lift. destruct (getprop _ "value"); [| load_failed].
  match goal with |- context [try_catch _ _ ?w0] => load_stored w0 end.
Qed.

Lemma loadMessages_cases (env : Env) (w : World) :
  (messages (state (fst (loadMessages config env w))) = messages (state w)
   /\ lastChecked (fst (loadMessages config env w)) = lastChecked w)
  \/ exists (records : jsval) (w0 : World),
       messages (state w0) = messages (state w)
       /\ lastChecked w0 = lastChecked w
       /\ snd (storeRecords config env records w0) = Ok tt
       /\ state (fst (loadMessages config env w))
          = state (set_loading false true (fst (storeRecords config env records w0)))
       /\ lastChecked (fst (loadMessages config env w))
          = lastChecked (fst (storeRecords config env records w0)).
Proof.
  unfold loadMessages, bind_M, modify, lift.
  destruct (getprop config "localDataSource") as [localDataSource|]; [| load_failed].
  destruct (getprop config "portalDataSource") as [portalDataSource|]; [| load_failed].
  destruct (isLocalEnvironment env && truthy localDataSource).
  { apply (loadMessagesFromLocal_cases env (set_loading true false w)). }
  destruct (negb (isLocalEnvironment env) && truthy portalDataSource).
  { apply (loadMessagesFromPortal_cases env (set_loading true false w)). }
  destruct (truthy localDataSource).
  { apply (loadMessagesFromLocal_cases env (set_loading true false w)). }
  load_failed.
Qed.

(** So no load moves the stored timestamp back. *)
Lemma loadMessages_monotone (env : Env) (w : World) :
  lastCheckedDate (lastChecked w)
  <= lastCheckedDate (lastChecked (fst (loadMessages config env w))).
Proof.
  destruct (loadMessages_cases env w) as [[_ ->] | (records & w0 & _ & <- & _ & _ & ->)].
  - lia.
  - apply storeRecords_monotone.
Qed.

End Load.

(** ** What [processMessages] stores *)

Section Scan.

Context `{Host}.

(** The [reduce] of [processMessages] returns a message of the list with
    the latest date, when every date is valid. *)
Lemma laterOf_fold (rest : list obj) (first : obj) :
  Forall (fun m => is_Some (newDate (prop m "date"))) (first :: rest) ->
  exists d : Z,
    In (fold_left laterOf rest first) (first :: rest)
    /\ newDate (prop (fold_left laterOf rest first) "date") = Some d
    /\ Forall (fun m => forall dm, newDate (prop m "date") = Some dm -> dm <= d) (first :: rest).
Proof.
  revert first. induction rest as [|m rest IH]; intros first Hvalid.
  - apply Forall_cons_1 in Hvalid as [[d Hd] _]. exists d. simpl.
    split; [now left |]. split; [exact Hd |].
    constructor; [| constructor]. intros dm Hdm. rewrite Hd in Hdm. injection Hdm as <-. lia.
  - apply Forall_cons_1 in Hvalid as [[df Hdf] Hvalid].
    pose proof Hvalid as Hvalid'.
    apply Forall_cons_1 in Hvalid' as [[dm Hdm] Hrest].
    simpl fold_left.
    assert (Hstep : exists d', newDate (prop (laterOf first m) "date") = Some d'
                               /\ df <= d' /\ dm <= d'
                               /\ (laterOf first m = first \/ laterOf first m = m)).
    { unfold laterOf. rewrite Hdm, Hdf. simpl. destruct (df <? dm) eqn:Hlt.
      - apply Z.ltb_lt in Hlt. exists dm. repeat split; auto; lia.
      - apply Z.ltb_ge in Hlt. exists df. repeat split; auto; lia. }
    destruct Hstep as (d' & Hd' & Hdf' & Hdm' & Hwhich).
    destruct (IH (laterOf first m)) as (d & Hin & Hd & Hall).
    { constructor; [now exists d' | exact Hrest]. }
    exists d. apply Forall_cons_1 in Hall as [Hhead Hall].
    specialize (Hhead d' Hd').
    split; [| split; [exact Hd |]].
    + destruct Hin as [Heq | Hin]; [| right; now right].
      rewrite <- Heq. destruct Hwhich as [-> | ->]; [now left | right; now left].
    + constructor; [| constructor; [| exact Hall]].
      * intros x Hx. rewrite Hdf in Hx. injection Hx as <-. lia.
      * intros x Hx. rewrite Hdm in Hx. injection Hx as <-. lia.
Qed.

(** When the dates of the read messages parse, [processMessages] leaves
    a timestamp that covers all of them, and a new timestamp is the date
    of one of them. *)
Lemma processMessages_covers (w : World) :
  Forall (fun m => readDated m = true -> is_Some (newDate (prop m "date")))
    (messages (state w)) ->
  (forall (m : obj) (tm : Z),
     In m (messages (state w)) -> readDated m = true ->
     newDate (prop m "date") = Some tm ->
     tm <= lastCheckedDate (lastChecked (fst (processMessages w))))
  /\ (lastChecked (fst (processMessages w)) = lastChecked w
      \/ exists (m : obj) (tm : Z),
           In m (messages (state w)) /\ readDated m = true
           /\ newDate (prop m "date") = Some tm
           /\ lastCheckedDate (lastChecked w) < tm
           /\ lastChecked (fst (processMessages w)) = Some tm).
Proof.
  intros Hvalid. unfold processMessages.
  change (fun msg : obj => truthy (prop msg "read") && truthy (prop msg "date")) with readDated.
  destruct (List.filter readDated (messages (state w))) as [|first rest] eqn:Hfilter.
  - split; [| now left]. intros m tm Hin Hread _.
    assert (Hm : In m (List.filter readDated (messages (state w))))
      by (apply filter_In; now split).
    rewrite Hfilter in Hm. destruct Hm.
  - assert (Hsub : forall m, In m (first :: rest) <->
                             In m (messages (state w)) /\ readDated m = true).
    { intros m. rewrite <- Hfilter. apply filter_In. }
    destruct (laterOf_fold rest first) as (d & Hin & Hd & Hall).
    { apply List.Forall_forall. intros m Hm. apply Hsub in Hm as [Hm Hread].
      rewrite List.Forall_forall in Hvalid. now apply Hvalid. }
    rewrite List.Forall_forall in Hall. rewrite Hd. simpl date_gt.
    destruct (lastCheckedDate (lastChecked w) <? d) eqn:Hlt; simpl.
    + apply Z.ltb_lt in Hlt. split.
      * intros m tm Hm Hread Htm. apply (Hall m); [| exact Htm]. apply Hsub. now split.
      * right. exists (fold_left laterOf rest first), d.
        apply Hsub in Hin as [Hin Hread]. auto.
    + apply Z.ltb_ge in Hlt. split; [| now left].
      intros m tm Hm Hread Htm. etransitivity; [| exact Hlt].
      apply (Hall m); [| exact Htm]. apply Hsub. now split.
Qed.

(** [processMessages] establishes [reconciled]. *)
Lemma processMessages_reconciled (w : World) :
  Forall (fun m => readDated m = true -> is_Some (newDate (prop m "date")))
    (messages (state w)) ->
  reconciled (fst (processMessages w)).
Proof.
  intros Hvalid. destruct (processMessages_covers w Hvalid) as [Hcover _].
  unfold reconciled. rewrite processMessages_messages.
  apply List.Forall_forall. intros m Hm Hread.
  rewrite List.Forall_forall in Hvalid. destruct (Hvalid m Hm Hread) as [tm Htm].
  exists tm. split; [exact Htm | now apply (Hcover m)].
Qed.

End Scan.

(** ** C5: marking one message as read *)

Section MarkOne.

Context `{Host}.
Variable config : jsval.

Lemma getMessage_insert (messageId : jsval) (w : World) (i : nat) (m m' : obj) :
  getMessage messageId w = Some (i, m) ->
  prop m' "id" = prop m "id" ->
  getMessage messageId (set_messages (<[i := m']> (messages (state w))) w) = Some (i, m').
Proof.
  unfold getMessage. simpl. intros Hfind Hid.
  apply list_find_Some in Hfind as (Hlookup & Hmatch & Hfirst).
  apply list_find_Some. split; [| split].
  - apply list_lookup_insert_eq. now apply (lookup_lt_Some _ _ m).
  - now rewrite Hid.
  - intros j y Hj Hlt. rewrite list_lookup_insert_ne in Hj by lia. now apply (Hfirst j).
Qed.




End MarkOne.



(** ** C6: marking everything, then loading again *)

Section MarkAll.

Context `{Host}.
Variable config : jsval.

(** Whether a relationship-backed record is mapped, and with which
    recipient party, depends neither on the stored timestamp nor on the
    clock. *)
Lemma mapComment_rerun (stored : option Z) (now : Z) (comment field : jsval) (msg : obj) :
  legacyShaped comment = false ->
  getFieldName config "hasread" = Ok field ->
  mapComment config stored now comment = Ok msg ->
  exists toParty : jsval,
    msg = relationshipMessage stored now comment toParty field
    /\ forall (stored' : option Z) (now' : Z),
         mapComment config stored' now' comment
         = Ok (relationshipMessage stored' now' comment toParty field).
Proof.
  intros Hshape Hfield Hone.
  apply mapComment_relationship in Hone
    as (toParty & field' & Hby & Hparties & Hfind & Hparty & Hfield' & Hid & Hname & ->);
    [| exact Hshape].
  rewrite Hfield in Hfield'. injection Hfield' as <-.
  exists toParty. split; [reflexivity |].
  now apply mapComment_relationship_intro.
Qed.

Lemma markRead_readDated (m : obj) :
  truthy (prop m "date") = true -> readDated (<["read" := VBool true]> m) = true.
Proof.
  intros Hdate. unfold readDated, prop. rewrite lookup_insert_eq.
  rewrite lookup_insert_ne by discriminate. exact Hdate.
Qed.

Lemma all_read_unreadCount (msgs : list obj) :
  Forall (fun msg => prop msg "read" = VBool true) msgs ->
  length (List.filter isUnread msgs) = 0%nat.
Proof.
  intros Hall. induction Hall as [|msg msgs Hread _ IH]; [reflexivity |].
  simpl. unfold isUnread at 1. now rewrite Hread.
Qed.

(** After [markAllMessagesAsRead] the stored timestamp covers the date
    of every loaded message. *)
Lemma markAll_covers (env : Env) (w : World) (m : obj) (t : Z) :
  Forall (fun m => truthy (prop m "date") = true /\ is_Some (newDate (prop m "date")))
    (messages (state w)) ->
  In m (messages (state w)) ->
  newDate (prop m "date") = Some t ->
  t <= lastCheckedDate (lastChecked (fst (markAllMessagesAsRead env w))).
Proof.
  intros Hdates Hin Ht. unfold markAllMessagesAsRead.
  set (w' := set_messages _ _).
  assert (Hdate : forall x : obj, prop (<["read" := VBool true]> x) "date" = prop x "date")
    by (intros x; unfold prop; now rewrite lookup_insert_ne by discriminate).
  assert (Hvalid : Forall (fun x => readDated x = true -> is_Some (newDate (prop x "date")))
                     (messages (state w'))).
  { simpl. apply List.Forall_forall. intros x Hx _.
    apply in_map_iff in Hx as (y & <- & Hy). rewrite Hdate.
    rewrite List.Forall_forall in Hdates. now apply Hdates. }
  destruct (processMessages_covers w' Hvalid) as [Hcover _].
  apply (Hcover (<["read" := VBool true]> m)).
  - simpl. apply in_map_iff. now exists m.
  - apply markRead_readDated. rewrite List.Forall_forall in Hdates. now apply Hdates.
  - now rewrite Hdate.
Qed.

End MarkAll.

(** C6 (amended).  Take relationship-backed records without the server
    field whose [createdon] is present and parses, and a state loaded
    from them ([storeRecords] is the step of a load cycle that maps and
    reconciles the fetched records, see [loadMessages_cases]).  After
    [markAllMessagesAsRead], loading the same records again succeeds and
    every message derives [read = true], so the unread count is zero,
    whatever the dates of the records (the timestamp that is stored
    covers the latest loaded date as well as the current time).  Records
    in the legacy shape are outside this statement: they keep their own
    [read] property. *)
Theorem markAll_then_reload `{Host} (config : jsval) (env0 env1 env2 : Env)
    (records : list jsval) (field : jsval) (w0 w1 : World) :
  getFieldName config "hasread" = Ok field ->
  Forall (fun comment =>
            legacyShaped comment = false
            /\ nullish (get comment (toStr field)) = true
            /\ truthy (get comment "createdon") = true
            /\ is_Some (newDate (get comment "createdon")))
         records ->
  storeRecords config env0 (VArr records) w0 = (w1, Ok tt) ->
  let w2 := fst (markAllMessagesAsRead env1 w1) in
  let w3 := fst (storeRecords config env2 (VArr records) w2) in
  snd (storeRecords config env2 (VArr records) w2) = Ok tt
  /\ length (messages (state w3)) = length records
  /\ Forall (fun msg => prop msg "read" = VBool true) (messages (state w3))
  /\ unreadCount (state w3) = 0%nat.
Proof.
  intros Hfield Hrecords Hload w2 w3.
  rewrite storeRecords_eq in Hload.
  destruct (mapPortalDataToMessages config (lastChecked w0) (clock env0) (VArr records))
    as [msgs1|] eqn:Hmap1; [| discriminate].
  injection Hload as Hw1.
  assert (Hmsgs1 : messages (state w1) = msgs1)
    by (rewrite <- Hw1; now rewrite processMessages_messages).
  apply mapPortalDataToMessages_Forall2 in Hmap1.
  (* the loaded messages carry the [createdon] of their records *)
  assert (Hloaded : Forall2 (fun comment m =>
                      prop m "date" = get comment "createdon"
                      /\ exists toParty, forall stored' now',
                           mapComment config stored' now' comment
                           = Ok (relationshipMessage stored' now' comment toParty field))
                    records msgs1).
  { clear Hw1 Hmsgs1. induction Hmap1 as [|comment m records msgs1 Hone _ IH].
    - constructor.
    - apply Forall_cons_1 in Hrecords as [(Hshape & _ & Hcreated & _) Hrecords].
      constructor; [| now apply IH].
      destruct (mapComment_rerun config _ _ comment field m Hshape Hfield Hone)
        as (toParty & -> & Hrerun).
      split; [| now exists toParty].
      unfold relationshipMessage. lookup_literal. now apply or_else_truthy. }
  (* so the timestamp stored by markAll covers every [createdon] *)
  assert (Hcovered : Forall (fun comment =>
                       forall t, newDate (get comment "createdon") = Some t ->
                                 t <= lastCheckedDate (lastChecked w2)) records).
  { assert (Hdates : Forall (fun m => truthy (prop m "date") = true
                                      /\ is_Some (newDate (prop m "date")))
                       (messages (state w1))).
    { rewrite Hmsgs1. clear -Hloaded Hrecords.
      induction Hloaded as [|comment m records msgs1 [Hdate _] _ IH]; constructor.
      - apply Forall_cons_1 in Hrecords as [(_ & _ & Hcreated & Hparse) _].
        rewrite Hdate. now split.
      - apply IH. now apply Forall_cons_1 in Hrecords as [_ Hrecords]. }
    assert (Hin : Forall (fun comment => exists m, In m (messages (state w1))
                            /\ prop m "date" = get comment "createdon") records).
    { rewrite Hmsgs1. clear -Hloaded.
      induction Hloaded as [|comment m records msgs1 [Hdate _] _ IH]; constructor.
      - exists m. split; [now left | exact Hdate].
      - eapply Forall_impl; [exact IH |].
        intros c (x & Hx & Hd). exists x. split; [now right | exact Hd]. }
    eapply Forall_impl; [exact Hin |].
    intros comment (m & Hm & Hdate) t Ht. unfold w2.
    apply (markAll_covers env1 w1 m t Hdates Hm). now rewrite Hdate. }
  (* the second load *)
  assert (Hreload : exists msgs3,
             map_result (mapComment config (lastChecked w2) (clock env2)) records = Ok msgs3
             /\ length msgs3 = length records
             /\ Forall (fun msg => prop msg "read" = VBool true) msgs3).
  { clear Hmap1 Hw1 Hmsgs1.
    induction Hloaded as [|comment m records msgs1 [_ (toParty & Hrerun)] _ IH].
    - exists []. repeat split; constructor.
    - apply Forall_cons_1 in Hrecords as [(_ & Hflag & Hcreated & [t Ht]) Hrecords].
      apply Forall_cons_1 in Hcovered as [Hcover Hcovered].
      destruct (IH Hrecords Hcovered) as (msgs3 & Hmap & Hlen & Hread).
      exists (relationshipMessage (lastChecked w2) (clock env2) comment toParty field :: msgs3).
      simpl. rewrite Hrerun, Hmap. simpl. split; [reflexivity |].
      split; [now rewrite Hlen |]. constructor; [| exact Hread].
      unfold relationshipMessage. lookup_literal. unfold isRead.
      rewrite Hflag. cbn [negb]. cbv iota zeta.
      rewrite (or_else_truthy (get comment "createdon")) by exact Hcreated.
      rewrite Hcreated, Ht. simpl date_le.
      specialize (Hcover t Ht). apply Z.leb_le in Hcover. now rewrite Hcover. }
  destruct Hreload as (msgs3 & Hmap3 & Hlen3 & Hread3).
  unfold w3. rewrite storeRecords_eq. simpl mapPortalDataToMessages. rewrite Hmap3. simpl.
  rewrite processMessages_messages, processMessages_unreadCount. simpl.
  repeat split; [exact Hlen3 | exact Hread3 | now apply all_read_unreadCount].
Qed.

(** C6 as stated fails on records in the legacy shape: a record without
    [read] is loaded as unread, marked, and loaded as unread again. *)
Lemma reload_after_markAll_keeps_legacy_unread :
  let config := sampleConfig true true VNull in
  let env := sampleEnv "localhost" 1763202700000 (Throw (Error "Failed to fetch")) in
  let records := VArr [sampleLegacy "m1" "2025-11-15T10:30:00Z" []] in
  let w1 := fst (storeRecords (H := ISO8601.host) config env records emptyWorld) in
  let w2 := fst (markAllMessagesAsRead (H := ISO8601.host) env w1) in
  let w3 := fst (storeRecords (H := ISO8601.host) config env records w2) in
  getFieldName config "hasread" = Ok (VStr "msfed_hasread")
  /\ unreadCount (state w1) = 1%nat
  /\ unreadCount (state w2) = 0%nat
  /\ lastChecked w2 = Some 1763202700000
  /\ unreadCount (state w3) = 1%nat
  /\ map (fun msg => prop msg "read") (messages (state w3)) = [VBool false].
Proof. vm_compute. repeat split. Qed.

(** A record dated 2030, loaded and marked in 2025, is read after the
    next load. *)
Lemma markAll_then_reload_witness :
  let config := sampleConfig true true VNull in
  let env := sampleEnv "contoso.powerappsportals.com" 1763202700000
               (Throw (Error "Failed to fetch")) in
  let records := [sampleComment "a1" "2030-01-01T00:00:00Z" [sampleParty 2 "c-1" "Pat"] []] in
  let w1 := fst (storeRecords (H := ISO8601.host) config env (VArr records) emptyWorld) in
  let w2 := fst (markAllMessagesAsRead (H := ISO8601.host) env w1) in
  unreadCount (state (fst (storeRecords (H := ISO8601.host) config env (VArr records) w2)))
  = 0%nat.
Proof.
  intros config env records w1 w2.
  destruct (markAll_then_reload (H := ISO8601.host) config env env env records
              (VStr "msfed_hasread") emptyWorld w1) as (_ & _ & _ & Hcount).
  - vm_refl.
  - constructor; [| constructor].
    split; [vm_refl |]. split; [vm_refl |]. split; [vm_refl |].
    exists 1893456000000. vm_refl.
  - vm_refl.
  - exact Hcount.
Defined.

(** * Further properties of the code *)


(** ** The outcome of a load cycle *)

Section LoadOutcome.

Context `{Host}.
Variable config : jsval.

Lemma processMessages_lastChecked_ext (w1 w2 : World) :
  messages (state w1) = messages (state w2) ->
  lastChecked w1 = lastChecked w2 ->
  lastChecked (fst (processMessages w1)) = lastChecked (fst (processMessages w2)).
Proof.
  intros Hm Hl. unfold processMessages. rewrite Hm.
  destruct (List.filter _ (messages (state w2))); cbn; [exact Hl |].
  rewrite Hl. destruct (date_gt _ _); cbn; [reflexivity | exact Hl].
Qed.

Lemma load_tail_outcome (env : Env) (records : jsval) (w0 w : World) (fetches : list event) :
  sameInbox w w0 ->
  trace w0 = (trace w ++ fetches)%list ->
  let r := try_catch (bind_M (storeRecords config env records) (fun _ => loadSucceeded))
             (fun _ => loadFailed) w0 in
  snd r = Ok tt
  /\ isLoading (state (fst r)) = false
  /\ isLoaded (state (fst r)) = true
  /\ ((trace (fst r) = (trace w ++ fetches ++ [RenderError])%list /\ sameInbox w (fst r))
      \/ (trace (fst r) = (trace w ++ fetches ++ [RenderMessages])%list
          /\ exists msgs : list obj,
               mapPortalDataToMessages config (lastChecked w) (clock env) records = Ok msgs
               /\ messages (state (fst r)) = msgs
               /\ unreadCount (state (fst r)) = length (List.filter isUnread msgs)
               /\ showArchived (state (fst r)) = showArchived (state w)
               /\ lastChecked (fst r)
                  = lastChecked (fst (processMessages (set_messages msgs w))))).
Proof.
  intros (Hm & Hc & Ha & Hl) Htrace.
  unfold try_catch, bind_M, loadSucceeded, loadFailed, modify.
  rewrite storeRecords_eq. rewrite Hl.
  destruct (mapPortalDataToMessages config (lastChecked w) (clock env) records) as [msgs|];
    cbn [fst snd].
  - repeat split; try reflexivity. right. split.
    + cbn. rewrite processMessages_trace. cbn. rewrite Htrace. now rewrite <- app_assoc.
    + exists msgs. split; [reflexivity |]. cbn.
      rewrite processMessages_messages, processMessages_unreadCount. cbn.
      repeat split; try reflexivity.
      * unfold processMessages. cbn. repeat case_match; cbn; exact Ha.
      * apply processMessages_lastChecked_ext; [reflexivity | exact Hl].
  - repeat split; try reflexivity. left. split.
    + cbn. rewrite Htrace. now rewrite <- app_assoc.
    + repeat split; cbn; assumption.
Qed.

Lemma load_failed_outcome (w0 w : World) (fetches : list event) :
  sameInbox w w0 ->
  trace w0 = (trace w ++ fetches)%list ->
  (length fetches <= 1)%nat ->
  Forall (fun e => exists q, e = Fetch q /\ method q = "GET" /\ body q = None) fetches ->
  forall env, loadOutcome config env w (loadFailed w0).
Proof.
  intros (Hm & Hc & Ha & Hl) Htrace Hlen Hget env.
  unfold loadOutcome, loadFailed, modify. cbn [fst snd].
  repeat split; try reflexivity.
  exists fetches. split; [exact Hlen |]. split; [exact Hget |]. left. split.
  - cbn. rewrite Htrace. now rewrite <- app_assoc.
  - repeat split; cbn; assumption.
Qed.

Lemma load_stored_outcome (env : Env) (records : jsval) (w0 w : World) (q : request) :
  sameInbox w w0 ->
  trace w0 = (trace w ++ [Fetch q])%list ->
  method q = "GET" -> body q = None ->
  loadOutcome config env w
    (try_catch (bind_M (storeRecords config env records) (fun _ => loadSucceeded))
       (fun _ => loadFailed) w0).
Proof.
  intros Hsame Htrace Hmethod Hbody.
  destruct (load_tail_outcome env records w0 w [Fetch q] Hsame Htrace)
    as (Hok & Hloading & Hloaded & Hcases).
  unfold loadOutcome. repeat split; try assumption.
  exists [Fetch q]. split; [cbn; lia |]. split.
  { constructor; [| constructor]. now exists q. }
  destruct Hcases as [Hfail | (Htr & msgs & Hrest)].
  - now left.
  - right. split; [exact Htr |]. split; [reflexivity |]. now exists records, msgs.
Qed.

Ltac outcome_failed0 w :=
  apply (load_failed_outcome _ w []);
  [ repeat split; reflexivity | cbn; now rewrite app_nil_r | cbn; lia | constructor ].

Ltac outcome_failed1 w :=
  match goal with
  | |- context [emit (Fetch ?q) _] =>
      apply (load_failed_outcome _ w [Fetch q]);
      [ repeat split; reflexivity | reflexivity | cbn; lia
      | constructor; [exists q; repeat split; reflexivity | constructor] ]
  end.

Lemma loadMessagesFromPortal_outcome (env : Env) (w : World) :
  loadOutcome config env w (loadMessagesFromPortal config env (set_loading true false w)).
Proof.
  unfold loadMessagesFromPortal, getPortalToken.
  rewrite try_catch_lift. destruct (getprop config "portalDataSource"); [| outcome_failed0 w].
  rewrite try_catch_lift. destruct (getprop _ "operations"); [| outcome_failed0 w].
  rewrite try_catch_lift. destruct (getprop _ "read"); [| outcome_failed0 w].
  rewrite try_catch_lift. destruct (getprop _ "enabled") as [enabled|]; [| outcome_failed0 w].
  destruct (negb (truthy enabled)); [outcome_failed0 w |].
  rewrite try_catch_lift. destruct (portalToken env); [| outcome_failed0 w].
  rewrite try_catch_fetch. destruct (respond env _) as [response|]; [| outcome_failed1 w].
  destruct (negb (ok response)); [outcome_failed1 w |].
  rewrite try_catch_lift. destruct (json response); [| outcome_failed1 w].
  rewrite try_catch_lift. destruct (getprop _ "value"); [| outcome_failed1 w].
  match goal with
  | |- context [emit (Fetch ?q) _] =>
      apply (load_stored_outcome env _ _ w q); try reflexivity; repeat split; reflexivity
  end.
Qed.

Lemma loadMessagesFromLocal_outcome (env : Env) (w : World) :
  loadOutcome config env w (loadMessagesFromLocal config env (set_loading true false w)).
Proof.
  unfold loadMessagesFromLocal.
  rewrite try_catch_lift. destruct (getprop config "localDataSource"); [| outcome_failed0 w].
  rewrite try_catch_fetch. destruct (respond env _) as [response|]; [| outcome_failed1 w].
  destruct (negb (ok response)); [outcome_failed1 w |].
  rewrite try_catch_lift. destruct (json response); [| outcome_failed1 w].
  rewrite try_catch_lift. destruct (getprop _ "value"); [| outcome_failed1 w].
  match goal with
  | |- context [emit (Fetch ?q) _] =>
      apply (load_stored_outcome env _ _ w q); try reflexivity; repeat split; reflexivity
  end.
Qed.

Lemma loadMessages_outcome (env : Env) (w : World) :
  nullish config = false ->
  loadOutcome config env w (loadMessages config env w).
Proof.
  intros Hconfig. unfold loadMessages, bind_M, modify, lift.
  rewrite !(getprop_Ok config) by exact Hconfig.
  destruct (isLocalEnvironment env && truthy _); [apply loadMessagesFromLocal_outcome |].
  destruct (negb (isLocalEnvironment env) && truthy _);
    [apply loadMessagesFromPortal_outcome |].
  destruct (truthy _); [apply loadMessagesFromLocal_outcome |].
  outcome_failed0 w.
Qed.

End LoadOutcome.

(** ** The requests of the write operations *)

Lemma get_truthy (v : jsval) (k : string) :
  truthy (get v k) = true -> truthy v = true.
Proof.
  destruct v as [| | b | n | s | l | o]; cbn; try discriminate; try reflexivity.
  destruct (k =? "length")%string; [| discriminate]. now destruct s.
Qed.

Lemma requests_app (tr1 tr2 : list event) :
  requests (tr1 ++ tr2) = (requests tr1 ++ requests tr2)%list.
Proof. apply omap_app. Qed.

Section Requests.

Context `{Host}.
Variable config : jsval.

Lemma getFieldName_Ok (fieldKey : string) :
  nullish config = false -> exists field : jsval, getFieldName config fieldKey = Ok field.
Proof.
  intros Hconfig. unfold getFieldName. rewrite !(getprop_Ok config) by exact Hconfig.
  cbn. eauto.
Qed.

Lemma getRegardingObjectConfig_Ok :
  nullish config = false -> exists regarding : obj, getRegardingObjectConfig config = Ok regarding.
Proof.
  intros Hconfig. unfold getRegardingObjectConfig.
  rewrite !(getprop_Ok config) by exact Hconfig. cbn. eauto.
Qed.

(** [updatePortalCommentReadStatus] sends its request exactly when the
    update operation is enabled and a token is available. *)
Lemma updatePortalCommentReadStatus_trace (env : Env) (messageId hasRead : jsval) (w : World) :
  trace (fst (updatePortalCommentReadStatus config env messageId hasRead w))
  = (trace w
     ++ if truthy (get (get (get (get config "portalDataSource") "operations") "update")
                     "enabled")
        then match portalToken env, getFieldName config "hasread" with
             | Ok token, Ok field =>
                 [Fetch (updateRequest config token messageId field hasRead)]
             | _, _ => []
             end
        else [])%list.
Proof.
  unfold updatePortalCommentReadStatus.
  destruct (truthy (get (get (get (get config "portalDataSource") "operations") "update")
                      "enabled")) eqn:Henabled.
  - pose proof (get_truthy _ _ Henabled) as HupdateOps.
    pose proof (get_truthy _ _ HupdateOps) as Hops.
    pose proof (get_truthy _ _ Hops) as Hcfg.
    pose proof (get_truthy _ _ Hcfg) as Hconfig.
    rewrite try_catch_lift, (getprop_Ok config) by now apply truthy_not_nullish.
    rewrite try_catch_lift, (getprop_Ok (get config "portalDataSource"))
      by now apply truthy_not_nullish.
    rewrite try_catch_lift, (getprop_Ok (get _ "operations")) by now apply truthy_not_nullish.
    rewrite HupdateOps, Henabled. cbn [negb orb].
    unfold try_catch, bind_M, getPortalToken, lift, fetch, ret_M, throw_M, updateRequest, apiUrl.
    destruct (portalToken env) as [token|]; [| cbn; now rewrite app_nil_r].
    destruct (getFieldName config "hasread") as [field|]; [| cbn; now rewrite app_nil_r].
    destruct (respond env _) as [response|]; [| reflexivity].
    destruct (ok response); cbn; [reflexivity |]. now destruct (text response).
  - rewrite app_nil_r.
    unfold try_catch, bind_M, lift, ret_M.
    destruct (getprop config "portalDataSource") as [cfg|] eqn:Ecfg; [| reflexivity].
    apply getprop_inv in Ecfg as [-> _].
    destruct (getprop _ "operations") as [ops|] eqn:Eops; [| reflexivity].
    apply getprop_inv in Eops as [-> _].
    destruct (getprop _ "update") as [updateOps|] eqn:Eupdate; [| reflexivity].
    apply getprop_inv in Eupdate as [-> _].
    rewrite Henabled. now rewrite orb_true_r.
Qed.

Lemma updateMessageReadStatus_trace (env : Env) (messageId : jsval) (w : World) :
  trace (fst (updateMessageReadStatus config env messageId (VBool true) w))
  = (trace w
     ++ if negb (isLocalEnvironment env) && truthy (get config "portalDataSource")
           && bool_decide (is_Some (getMessage messageId w))
           && truthy (get (get (get (get config "portalDataSource") "operations") "update")
                        "enabled")
        then match portalToken env, getFieldName config "hasread" with
             | Ok token, Ok field =>
                 [Fetch (updateRequest config token messageId field (VBool true))]
             | _, _ => []
             end
        else [])%list.
Proof.
  unfold updateMessageReadStatus, bind_M, lift, ret_M.
  destruct (isLocalEnvironment env); cbn [negb andb]; [now rewrite app_nil_r |].
  destruct (getprop config "portalDataSource") as [source|] eqn:Esource; cbn [JS.bind].
  2:{ destruct config; try discriminate; cbn; now rewrite app_nil_r. }
  apply getprop_inv in Esource as [-> _].
  destruct (truthy (get config "portalDataSource")); cbn [negb andb];
    [| now rewrite app_nil_r].
  unfold try_catch.
  destruct (getMessage messageId w) as [[i message]|]; cbn [bool_decide andb].
  2:{ rewrite bool_decide_eq_false_2 by (intros [? [=]]). cbn. now rewrite app_nil_r. }
  rewrite bool_decide_eq_true_2 by eauto. cbn [truthy andb].
  match goal with
  | |- context [updatePortalCommentReadStatus config env messageId ?v ?w0] =>
      pose proof (updatePortalCommentReadStatus_trace env messageId v w0) as Htrace;
      pose proof (updatePortalCommentReadStatus_Ok config env messageId v w0) as Hok;
      destruct (updatePortalCommentReadStatus config env messageId v w0) as [w' r]
  end.
  cbn [fst snd] in Htrace, Hok. subst r. cbn [fst]. rewrite Htrace.
  now destruct (date_gt _ _).
Qed.

End Requests.


(** ** Replies *)

(** The steps of [createReply] up to the lookup of the message, in a
    hosted page with the create operation enabled. *)
Ltac reply_enabled config Hlocal Henabled :=
  let Hcreate := fresh "Hcreate" in
  let Hops := fresh "Hops" in
  let Hsource := fresh "Hsource" in
  let Hconfig := fresh "Hconfig" in
  pose proof (get_truthy _ _ Henabled) as Hcreate;
  pose proof (get_truthy _ _ Hcreate) as Hops;
  pose proof (get_truthy _ _ Hops) as Hsource;
  pose proof (get_truthy _ _ Hsource) as Hconfig;
  unfold createReply;
  rewrite Hlocal; unfold bind_M at 1; unfold lift at 1;
  rewrite (getprop_Ok config) by (now apply truthy_not_nullish);
  cbn [JS.bind]; rewrite Hsource; cbn [negb];
  rewrite try_catch_lift, try_catch_lift;
  rewrite (getprop_Ok (get config "portalDataSource")) by (now apply truthy_not_nullish);
  rewrite try_catch_lift;
  rewrite (getprop_Ok (get _ "operations")) by (now apply truthy_not_nullish);
  rewrite try_catch_lift;
  rewrite (getprop_Ok (get _ "create")) by (now apply truthy_not_nullish);
  rewrite Henabled; cbn [negb];
  unfold try_catch, bind_M, getPortalToken, lift, fetch, throw_M, ret_M.

Section Reply.

Variable config : jsval.

(** [createReply] either sends nothing, leaves the world as it is and
    reports a failure, or sends the one request [replyRequest]. *)
Lemma createReply_cases (env : Env) (messageId replyText : jsval) (w : World) :
  (fst (createReply config env messageId replyText w) = w
   /\ ((exists message : string,
          snd (createReply config env messageId replyText w)
          = Ok (replyResult false message))
       \/ (isLocalEnvironment env = false /\ nullish config = true
           /\ exists e : exn, snd (createReply config env messageId replyText w) = Throw e)))
  \/ exists (token : jsval) (i : nat) (M regarding : obj),
       isLocalEnvironment env = false
       /\ truthy (get config "portalDataSource") = true
       /\ truthy (get (get (get (get config "portalDataSource") "operations") "create")
                     "enabled") = true
       /\ getMessage messageId w = Some (i, M)
       /\ truthy (prop M "toContactId") = true
       /\ truthy (prop M "fromStaffId") = true
       /\ portalToken env = Ok token
       /\ getRegardingObjectConfig config = Ok regarding
       /\ let q := replyRequest config token regarding M replyText in
          fst (createReply config env messageId replyText w) = emit (Fetch q) w
          /\ snd (createReply config env messageId replyText w)
             = Ok (match respond env q with
                   | Ok response =>
                       if ok response then replyResult true "Reply sent successfully"
                       else match text response with
                            | Ok errorText =>
                                replyResult false
                                  ("HTTP error! status: " +:+ pretty (status response)
                                   +:+ ", message: " +:+ errorText)
                            | Throw e => replyResult false (exn_message e)
                            end
                   | Throw e => replyResult false (exn_message e)
                   end).
Proof.
  unfold createReply.
  match goal with |- context [try_catch ?m ?h] => set (attempt := try_catch m h) end.
  unfold bind_M, lift, ret_M.
  destruct (isLocalEnvironment env) eqn:Hlocal.
  { left. cbn. split; [reflexivity | left; eauto]. }
  destruct (getprop config "portalDataSource") as [source|] eqn:Esource; cbn [JS.bind].
  2:{ left. split; [reflexivity |]. right. split; [reflexivity |]. split.
      - destruct config; cbn in Esource; try discriminate; reflexivity.
      - cbn. eauto. }
  apply getprop_inv in Esource as [-> Hconfig].
  destruct (truthy (get config "portalDataSource")) eqn:Hsource; cbn [negb]; cbv beta iota.
  2:{ left. cbn. split; [reflexivity | left; eauto]. }
  subst attempt.
  rewrite try_catch_lift. rewrite try_catch_lift.
  rewrite (getprop_Ok (get config "portalDataSource")) by now apply truthy_not_nullish.
  destruct (getprop _ "create") as [createOps|] eqn:Ecreate.
  2:{ left. cbn. split; [reflexivity | left; eauto]. }
  apply getprop_inv in Ecreate as [-> _].
  rewrite try_catch_lift.
  destruct (getprop _ "enabled") as [enabled|] eqn:Eenabled.
  2:{ left. cbn. split; [reflexivity | left; eauto]. }
  apply getprop_inv in Eenabled as [-> _].
  unfold try_catch, bind_M, getPortalToken, lift, fetch, throw_M, ret_M.
  destruct (truthy (get _ "enabled")) eqn:Henabled; cbn [negb]; cbv beta iota.
  2:{ left. cbn. split; [reflexivity | left; eauto]. }
  destruct (getMessage messageId w) as [[i M]|] eqn:Hfind.
  2:{ left. cbn. split; [reflexivity | left; eauto]. }
  destruct (truthy (prop M "toContactId")) eqn:Hcontact; cbn [negb]; cbv beta iota.
  2:{ left. cbn. split; [reflexivity | left; eauto]. }
  destruct (truthy (prop M "fromStaffId")) eqn:Hstaff; cbn [negb]; cbv beta iota.
  2:{ left. cbn. split; [reflexivity | left; eauto]. }
  destruct (portalToken env) as [token|] eqn:Htoken.
  2:{ left. cbn. split; [reflexivity | left; eauto]. }
  destruct (getRegardingObjectConfig config) as [regarding|] eqn:Hregarding.
  2:{ left. cbn. split; [reflexivity | left; eauto]. }
  right. exists token, i, M, regarding. unfold replyRequest, apiUrl. repeat split; try reflexivity; try assumption.
  - destruct (respond env _) as [response|]; [| reflexivity].
    destruct (ok response); cbn; [reflexivity |]. now destruct (text response).
  - destruct (respond env _) as [response|]; [| reflexivity].
    destruct (ok response); cbn; [reflexivity |]. now destruct (text response).
Qed.

(** With the operation enabled, a known message with both identities
    and a token, the request is sent. *)
Lemma createReply_sends (env : Env) (messageId replyText token : jsval) (w : World)
    (i : nat) (M : obj) :
  isLocalEnvironment env = false ->
  truthy (get (get (get (get config "portalDataSource") "operations") "create") "enabled")
  = true ->
  getMessage messageId w = Some (i, M) ->
  truthy (prop M "toContactId") = true ->
  truthy (prop M "fromStaffId") = true ->
  portalToken env = Ok token ->
  exists regarding : obj,
    getRegardingObjectConfig config = Ok regarding
    /\ fst (createReply config env messageId replyText w)
       = emit (Fetch (replyRequest config token regarding M replyText)) w.
Proof.
  intros Hlocal Henabled Hfind Hcontact Hstaff Htoken.
  destruct (createReply_cases env messageId replyText w)
    as [[Hsame _] | (token' & i' & M' & regarding & _ & _ & _ & Hfind' & _ & _ & Htoken'
                     & Hregarding & Hfst & _)].
  - exfalso. revert Hsame.
    reply_enabled config Hlocal Henabled.
    rewrite Hfind, Hcontact, Hstaff, Htoken. cbn [negb].
    destruct (getRegardingObjectConfig_Ok config) as [regarding ->];
      [now apply truthy_not_nullish |].
    intros Hsame.
    assert (Htrace : trace w = (trace w ++ [Fetch (replyRequest config token regarding M
                                                     replyText)])%list).
    { rewrite <- Hsame at 1. unfold replyRequest, apiUrl.
      destruct (respond env _) as [response|]; [| reflexivity].
      destruct (ok response); cbn; [reflexivity |]. now destruct (text response). }
    apply (f_equal length) in Htrace. rewrite length_app in Htrace. cbn in Htrace. lia.
  - rewrite Hfind in Hfind'. injection Hfind' as <- <-.
    rewrite Htoken in Htoken'. injection Htoken' as <-.
    exists regarding. split; [exact Hregarding | exact Hfst].
Qed.

(** A message without the recipient's contact id cannot be answered. *)
Lemma createReply_missing_contact (env : Env) (messageId replyText : jsval) (w : World)
    (i : nat) (M : obj) :
  isLocalEnvironment env = false ->
  truthy (get (get (get (get config "portalDataSource") "operations") "create") "enabled")
  = true ->
  getMessage messageId w = Some (i, M) ->
  truthy (prop M "toContactId") = false ->
  createReply config env messageId replyText w
  = (w, Ok (replyResult false "Contact ID not found in original message. API configuration error - check $expand parameter.")).
Proof.
  intros Hlocal Henabled Hfind Hcontact.
  reply_enabled config Hlocal Henabled.
  rewrite Hfind, Hcontact. reflexivity.
Qed.

End Reply.

(** ** The reconciler and the views *)

Section Views.

Context `{Host}.

Lemma filter_split_length (f : obj -> bool) (l : list obj) :
  (length (List.filter f l) + length (List.filter (fun m => negb (f m)) l) = length l)%nat.
Proof.
  induction l as [|m l IH]; [reflexivity |]. cbn. destruct (f m); cbn; lia.
Qed.

Lemma processMessages_showArchived (w : World) :
  showArchived (state (fst (processMessages w))) = showArchived (state w).
Proof. unfold processMessages. repeat case_match; reflexivity. Qed.

Lemma processMessages_countConsistent (w : World) :
  countConsistent (fst (processMessages w)).
Proof.
  unfold countConsistent. now rewrite processMessages_unreadCount, processMessages_messages.
Qed.

Lemma markAll_trace (env : Env) (w : World) :
  trace (fst (markAllMessagesAsRead env w)) = trace w
  /\ showArchived (state (fst (markAllMessagesAsRead env w))) = showArchived (state w).
Proof.
  unfold markAllMessagesAsRead. cbv zeta.
  now rewrite processMessages_trace, processMessages_showArchived.
Qed.

End Views.

(** X1. [processMessages] is idempotent: running the reconciler a second
    time changes neither the unread count nor the stored timestamp. *)
Theorem processMessages_idempotent `{Host} (w : World) :
  processMessages (fst (processMessages w)) = processMessages w.
Proof.
  unfold processMessages. cbn [messages state set_unreadCount].
  destruct (List.filter _ (messages (state w))) as [|first rest] eqn:Hread;
    cbn [fst]; cbn [messages state set_unreadCount]; rewrite ?Hread.
  - reflexivity.
  - cbn [lastChecked set_unreadCount].
    destruct (date_gt _ _) eqn:Hgt; cbn [fst]; cbn [messages state set_lastChecked set_unreadCount]; rewrite Hread.
    + apply date_gt_spec in Hgt as (x & y & Hx & _ & _).
      cbn [lastChecked set_lastChecked]. rewrite Hx.
      replace (date_gt (Some x) (Some (lastCheckedDate (Some x)))) with false.
      * reflexivity.
      * symmetry. apply not_true_is_false. intros Hlt.
        apply date_gt_spec in Hlt as (a & b & [= <-] & [= <-] & Hlt). cbn in Hlt. lia.
    + cbn [lastChecked set_unreadCount]. rewrite Hgt. reflexivity.
Qed.

(** X2. The two views partition the inbox: toggling twice returns to
    the same view, every message is shown in exactly one of the two
    views, and together they show as many messages as the inbox holds. *)
Theorem filtered_views_partition (w : World) :
  let other := fst (toggleView w) in
  fst (toggleView other) = w
  /\ (length (getFilteredMessages w) + length (getFilteredMessages other)
      = length (messages (state w)))%nat
  /\ forall msg : obj,
       In msg (messages (state w)) ->
       (In msg (getFilteredMessages w) <-> ~ In msg (getFilteredMessages other)).
Proof.
  destruct w as [[msgs n archived loading loaded] stored tr].
  unfold toggleView, modify, getFilteredMessages, set_showArchived, isUnread. cbn.
  split; [| split].
  - now rewrite negb_involutive.
  - pose proof (filter_split_length (fun m => truthy (prop m "read")) msgs) as Hlen.
    destruct archived; cbn; lia.
  - intros msg Hin. destruct archived; cbn; rewrite !filter_In;
      destruct (truthy (prop msg "read")); cbn; intuition congruence.
Qed.

Lemma filtered_views_partition_witness :
  let unread := sampleMessage "m1" "2025-11-15T10:30:00Z" false in
  let w := loadedWorld [unread; sampleMessage "m2" "2025-11-14T09:00:00Z" true] None in
  ~ In unread (getFilteredMessages (fst (toggleView w))).
Proof.
  intros unread w.
  destruct (filtered_views_partition w) as (_ & _ & Hviews).
  apply (Hviews unread).
  - left. reflexivity.
  - assert (Hview : getFilteredMessages w = [unread]) by vm_refl.
    rewrite Hview. left. reflexivity.
Defined.

(** X3. [markAllMessagesAsRead] sets the read flag of every message and
    nothing else in it, leaves no message unread, keeps the view, stores
    a timestamp that is not before the clock, and sends no request: the
    read flags held by the server are not updated. *)
Theorem markAll_effect `{Host} (env : Env) (w : World) :
  let w' := fst (markAllMessagesAsRead env w) in
  snd (markAllMessagesAsRead env w) = Ok tt
  /\ messages (state w')
     = map (fun msg => <["read" := VBool true]> msg) (messages (state w))
  /\ unreadCount (state w') = 0%nat
  /\ getFilteredMessages (set_showArchived false w') = []
  /\ showArchived (state w') = showArchived (state w)
  /\ trace w' = trace w
  /\ clock env <= lastCheckedDate (lastChecked w').
Proof.
  unfold markAllMessagesAsRead. cbv zeta.
  set (w1 := set_messages _ (set_lastChecked _ w)).
  assert (Hall : List.filter isUnread (messages (state w1)) = []).
  { subst w1. cbn. induction (messages (state w)) as [|m l IH]; [reflexivity |].
    cbn. unfold isUnread at 1, prop. rewrite lookup_insert_eq. cbn. exact IH. }
  split; [apply processMessages_Ok |].
  split; [now rewrite processMessages_messages |].
  split; [now rewrite processMessages_unreadCount, Hall |].
  split.
  { unfold getFilteredMessages. cbn. now rewrite processMessages_messages. }
  split; [now rewrite processMessages_showArchived |].
  split; [now rewrite processMessages_trace |].
  apply (processMessages_monotone w1).
Qed.

(** ** Marking one message *)

Section MarkOne.

Context `{Host}.
Variable config : jsval.

Lemma markMessageAsRead_trace (env : Env) (messageId : jsval) (w : World) :
  trace (fst (markMessageAsRead config env messageId w))
  = (trace w
     ++ if negb (isLocalEnvironment env)
           && truthy (get config "portalDataSource")
           && match getMessage messageId w with
              | Some (_, message) => negb (truthy (prop message "read"))
              | None => false
              end
           && truthy (get (get (get (get config "portalDataSource") "operations") "update")
                        "enabled")
        then match portalToken env, getFieldName config "hasread" with
             | Ok token, Ok field =>
                 [Fetch (updateRequest config token messageId field (VBool true))]
             | _, _ => []
             end
        else [])%list.
Proof.
  unfold markMessageAsRead.
  destruct (getMessage messageId w) as [[i message]|] eqn:Hfind.
  2:{ rewrite !andb_false_r. cbn. now rewrite app_nil_r. }
  destruct (truthy (prop message "read")) eqn:Hread; cbn [negb].
  { rewrite !andb_false_r. cbn. now rewrite app_nil_r. }
  rewrite andb_true_r, processMessages_trace, updateMessageReadStatus_trace.
  erewrite getMessage_insert; [| exact Hfind |].
  2:{ unfold prop. now rewrite lookup_insert_ne by discriminate. }
  rewrite bool_decide_eq_true_2 by eauto. now rewrite andb_true_r.
Qed.

End MarkOne.

(** X4. [markMessageAsRead] sends at most one request, the [PATCH] of
    the read flag of this message, and sends it exactly when the page is
    hosted, the portal data source is configured, the message exists and
    was unread, the update operation is enabled and a token is
    available.  Nothing is rendered. *)
Theorem markMessageAsRead_requests `{Host} (config : jsval) (env : Env) (messageId : jsval)
    (w : World) :
  let sends :=
    negb (isLocalEnvironment env)
    && truthy (get config "portalDataSource")
    && match getMessage messageId w with
       | Some (_, message) => negb (truthy (prop message "read"))
       | None => false
       end
    && truthy (get (get (get (get config "portalDataSource") "operations") "update")
                 "enabled") in
  exists field : jsval,
    (sends = true -> getFieldName config "hasread" = Ok field)
    /\ trace (fst (markMessageAsRead config env messageId w))
       = (trace w
          ++ if sends
             then match portalToken env with
                  | Ok token =>
                      [Fetch (updateRequest config token messageId field (VBool true))]
                  | Throw _ => []
                  end
             else [])%list.
Proof.
  cbv zeta. rewrite markMessageAsRead_trace.
  destruct (negb (isLocalEnvironment env) && truthy (get config "portalDataSource")) eqn:Hremote;
    cbn [andb].
  2:{ exists VUndef. split; [discriminate | reflexivity]. }
  apply andb_prop in Hremote as [_ Hsource].
  destruct (getFieldName_Ok config "hasread") as [field Hfield].
  { apply truthy_not_nullish. now apply get_truthy in Hsource. }
  exists field. split; [intros _; exact Hfield |]. rewrite Hfield.
  destruct (_ && _); [| reflexivity]. now destruct (portalToken env).
Qed.

Lemma markMessageAsRead_requests_witness :
  let config := sampleConfig true true VNull in
  let env := sampleEnv "contoso.powerappsportals.com" 1763202700000
               (Throw (Error "Failed to fetch")) in
  let w := loadedWorld [sampleMessage "a1" "2025-11-15T10:30:00Z" false] None in
  trace (fst (markMessageAsRead (H := ISO8601.host) config env (VStr "a1") w))
  = [Fetch (updateRequest config (VStr "csrf-token") (VStr "a1") (VStr "msfed_hasread")
              (VBool true))].
Proof.
  intros config env w.
  destruct (markMessageAsRead_requests (H := ISO8601.host) config env (VStr "a1") w)
    as (field & Hfield & Htrace).
  cbv zeta in Hfield, Htrace.
  assert (Hsends : negb (isLocalEnvironment env)
                   && truthy (get config "portalDataSource")
                   && match getMessage (VStr "a1") w with
                      | Some (_, message) => negb (truthy (prop message "read"))
                      | None => false
                      end
                   && truthy (get (get (get (get config "portalDataSource") "operations")
                                     "update") "enabled") = true) by vm_refl.
  rewrite Hsends in Hfield, Htrace. specialize (Hfield eq_refl).
  assert (Hname : getFieldName config "hasread" = Ok (VStr "msfed_hasread")) by vm_refl.
  rewrite Hname in Hfield. injection Hfield as <-. exact Htrace.
Defined.

(** X5. [createReply] never touches the inbox: the messages, the unread
    count, the view and the stored timestamp are as before.  It sends at
    most one request, and only from a hosted page with the portal data
    source configured, the create operation enabled, a known message
    that carries both identities, and a token.  Unless the configuration
    object itself is missing, it returns a [{success, message}] result
    instead of throwing. *)
Theorem createReply_effect (config : jsval) (env : Env) (messageId replyText : jsval)
    (w : World) :
  let r := createReply config env messageId replyText w in
  state (fst r) = state w
  /\ lastChecked (fst r) = lastChecked w
  /\ (trace (fst r) = trace w
      \/ exists (token : jsval) (i : nat) (M regarding : obj),
           isLocalEnvironment env = false
           /\ truthy (get config "portalDataSource") = true
           /\ truthy (get (get (get (get config "portalDataSource") "operations") "create")
                        "enabled") = true
           /\ getMessage messageId w = Some (i, M)
           /\ truthy (prop M "toContactId") = true
           /\ truthy (prop M "fromStaffId") = true
           /\ portalToken env = Ok token
           /\ getRegardingObjectConfig config = Ok regarding
           /\ trace (fst r)
              = (trace w ++ [Fetch (replyRequest config token regarding M replyText)])%list)
  /\ (isLocalEnvironment env = true \/ nullish config = false ->
      exists (success : bool) (message : string), snd r = Ok (replyResult success message)).
Proof.
  cbv zeta.
  destruct (createReply_cases config env messageId replyText w)
    as [[Hsame Hres] | (token & i & M & regarding & Hlocal & Hsource & Henabled & Hfind
                        & Hcontact & Hstaff & Htoken & Hregarding & Hfst & Hsnd)].
  - rewrite Hsame. repeat split; [now left |].
    intros Hdefined. destruct Hres as [[message ->] | (Hlocal & Hconfig & _)].
    + now exists false, message.
    + destruct Hdefined; congruence.
  - cbv zeta in Hfst, Hsnd. rewrite Hfst, Hsnd. repeat split.
    + right. exists token, i, M, regarding. repeat split; assumption.
    + intros _. destruct (respond env _) as [response|]; [| eauto].
      destruct (ok response); [eauto |]. destruct (text response); eauto.
Qed.

Lemma createReply_effect_witness :
  let env := sampleEnv "localhost" 1763202700000 (Throw (Error "Failed to fetch")) in
  exists (success : bool) (message : string),
    snd (createReply (sampleConfig true true VNull) env (VStr "m1") (VStr "Thanks") emptyWorld)
    = Ok (replyResult success message).
Proof.
  intros env.
  apply (createReply_effect (sampleConfig true true VNull) env (VStr "m1") (VStr "Thanks")
           emptyWorld).
  left. reflexivity.
Defined.

(** X6. What [createReply] reports: the result says success exactly
    when the request was sent and answered with an ok status.  A
    response with another status is reported with that status and the
    response text, a failure of the request with its own message. *)
Theorem createReply_result (config : jsval) (env : Env) (messageId replyText : jsval)
    (w : World) (result : obj) :
  let r := createReply config env messageId replyText w in
  snd r = Ok result ->
  (prop result "success" = VBool true
   <-> exists (q : request) (response : response),
         trace (fst r) = (trace w ++ [Fetch q])%list
         /\ respond env q = Ok response /\ ok response = true)
  /\ (prop result "success" = VBool true ->
      result = replyResult true "Reply sent successfully")
  /\ (forall (q : request) (response : response) (errorText : string),
        trace (fst r) = (trace w ++ [Fetch q])%list ->
        respond env q = Ok response -> ok response = false ->
        text response = Ok errorText ->
        result = replyResult false ("HTTP error! status: " +:+ pretty (status response)
                                    +:+ ", message: " +:+ errorText))
  /\ (forall (q : request) (e : exn),
        trace (fst r) = (trace w ++ [Fetch q])%list ->
        respond env q = Throw e ->
        result = replyResult false (exn_message e)).
Proof.
  cbv zeta. intros Hresult.
  assert (Hflag : forall (b : bool) (m : string), prop (replyResult b m) "success" = VBool b).
  { intros b m. unfold replyResult. lookup_literal. reflexivity. }
  assert (Hnone : forall q : request, trace w <> (trace w ++ [Fetch q])%list).
  { intros q Heq. apply (f_equal length) in Heq. rewrite length_app in Heq. cbn in Heq. lia. }
  destruct (createReply_cases config env messageId replyText w)
    as [[Hsame Hres] | (token & i & M & regarding & _ & _ & _ & _ & _ & _ & _ & _
                        & Hfst & Hsnd)].
  - rewrite Hsame.
    assert (Hfalse : prop result "success" = VBool false).
    { destruct Hres as [[message Hmessage] | (_ & _ & e & He)]; [| congruence].
      rewrite Hmessage in Hresult. injection Hresult as <-. apply Hflag. }
    rewrite Hfalse. split; [| split; [| split]].
    + split; [discriminate |]. intros (q & response & Htrace & _). now apply Hnone in Htrace.
    + discriminate.
    + intros q response errorText Htrace. now apply Hnone in Htrace.
    + intros q e Htrace. now apply Hnone in Htrace.
  - cbv zeta in Hfst, Hsnd. rewrite Hfst. rewrite Hsnd in Hresult. injection Hresult as <-.
    set (q0 := replyRequest config token regarding M replyText) in *.
    assert (Hq : forall q : request,
               trace (emit (Fetch q0) w) = (trace w ++ [Fetch q])%list -> q = q0).
    { intros q Heq. cbn in Heq. apply app_inv_head in Heq. congruence. }
    split; [| split; [| split]].
    + split.
      * intros Hsuccess. exists q0. destruct (respond env q0) as [response|] eqn:Hrespond.
        -- exists response. repeat split. destruct (ok response); [reflexivity |].
           destruct (text response); rewrite Hflag in Hsuccess; discriminate.
        -- rewrite Hflag in Hsuccess. discriminate.
      * intros (q & response & Htrace & Hrespond & Hok). apply Hq in Htrace as ->.
        rewrite Hrespond, Hok. apply Hflag.
    + destruct (respond env q0) as [response|]; [| rewrite Hflag; discriminate].
      destruct (ok response); [reflexivity |].
      destruct (text response); rewrite Hflag; discriminate.
    + intros q response errorText Htrace Hrespond Hok Htext. apply Hq in Htrace as ->.
      now rewrite Hrespond, Hok, Htext.
    + intros q e Htrace Hrespond. apply Hq in Htrace as ->. now rewrite Hrespond.
Qed.

Lemma createReply_result_witness :
  let config := sampleConfig true true VNull in
  let env := sampleEnv "contoso.powerappsportals.com" 1763202700000
               (Ok {| ok := true; status := 204; text := Ok "";
                      json := Throw (Error "Unexpected end of JSON input") |}) in
  let M : obj := <["fromStaffId" := VStr "staff-7"]>
                 (<["toContactId" := VStr "c-1"]>
                    (sampleMessage "a1" "2025-11-15T10:30:00Z" false)) in
  let w := loadedWorld [M] None in
  exists (q : request) (response : response),
    trace (fst (createReply config env (VStr "a1") (VStr "Thanks") w))
    = (trace w ++ [Fetch q])%list
    /\ respond env q = Ok response /\ ok response = true.
Proof.
  intros config env M w.
  assert (Hres : snd (createReply config env (VStr "a1") (VStr "Thanks") w)
                 = Ok (replyResult true "Reply sent successfully")) by vm_refl.
  destruct (createReply_result config env (VStr "a1") (VStr "Thanks") w _ Hres)
    as ([Hsent _] & _).
  apply Hsent. vm_refl.
Defined.

(** X7. Mapping and replying compose as follows in a hosted page with
    the create operation enabled.  A message mapped from a
    relationship-backed record always carries both identities, so that
    with a token the reply to it is sent.  A message mapped from a
    legacy-shaped record carries neither, and a reply to it is refused
    before any request. *)
Theorem mapped_message_reply `{Host} (config : jsval) (stored : option Z) (now : Z)
    (comment : jsval) (M : obj) (env : Env) (messageId replyText : jsval) (w : World)
    (i : nat) :
  mapComment config stored now comment = Ok M ->
  getMessage messageId w = Some (i, M) ->
  isLocalEnvironment env = false ->
  truthy (get (get (get (get config "portalDataSource") "operations") "create") "enabled")
  = true ->
  if legacyShaped comment
  then createReply config env messageId replyText w
       = (w, Ok (replyResult false "Contact ID not found in original message. API configuration error - check $expand parameter."))
  else truthy (prop M "toContactId") = true
       /\ truthy (prop M "fromStaffId") = true
       /\ forall token : jsval,
            portalToken env = Ok token ->
            exists regarding : obj,
              getRegardingObjectConfig config = Ok regarding
              /\ trace (fst (createReply config env messageId replyText w))
                 = (trace w ++ [Fetch (replyRequest config token regarding M replyText)])%list.
Proof.
  intros Hmap Hfind Hlocal Henabled. destruct (legacyShaped comment) eqn:Hshape.
  - apply (createReply_missing_contact config env messageId replyText w i M);
      try assumption.
    rewrite mapComment_legacy in Hmap by exact Hshape. injection Hmap as <-.
    lookup_literal. reflexivity.
  - apply mapComment_relationship in Hmap
      as (toParty & field & Hby & _ & _ & _ & _ & Hid & _ & ->); [| exact Hshape].
    assert (Hcontact : truthy (prop (relationshipMessage stored now comment toParty field)
                                 "toContactId") = true).
    { unfold relationshipMessage. lookup_literal. exact Hid. }
    assert (Hstaff : truthy (prop (relationshipMessage stored now comment toParty field)
                               "fromStaffId") = true).
    { unfold relationshipMessage. lookup_literal. exact Hby. }
    split; [exact Hcontact |]. split; [exact Hstaff |]. intros token Htoken.
    destruct (createReply_sends config env messageId replyText token w i _
                Hlocal Henabled Hfind Hcontact Hstaff Htoken) as (regarding & Hregarding & ->).
    exists regarding. split; [exact Hregarding | reflexivity].
Qed.

Lemma mapped_message_reply_witness :
  let config := sampleConfig true true VNull in
  let env := sampleEnv "contoso.powerappsportals.com" 1763202700000
               (Throw (Error "Failed to fetch")) in
  let record := sampleLegacy "m1" "2025-11-15T10:30:00Z" [] in
  let w := loadedWorld [sampleMessage "m1" "2025-11-15T10:30:00Z" false] None in
  createReply config env (VStr "m1") (VStr "Thanks") w
  = (w, Ok (replyResult false "Contact ID not found in original message. API configuration error - check $expand parameter.")).
Proof.
  intros config env record w.
  apply (mapped_message_reply (H := ISO8601.host) config None 0 record
           (sampleMessage "m1" "2025-11-15T10:30:00Z" false) env (VStr "m1") (VStr "Thanks")
           w 0%nat).
  - vm_refl.
  - vm_refl.
  - reflexivity.
  - reflexivity.
Defined.

(** ** Marking once more *)

Section Settled.

Context `{Host}.
Variable config : jsval.


Lemma markMessageAsRead_messages (env : Env) (messageId : jsval) (w : World)
    (i : nat) (m : obj) :
  getMessage messageId w = Some (i, m) ->
  truthy (prop m "read") = false ->
  messages (state (fst (markMessageAsRead config env messageId w)))
  = <[i := <["read" := VBool true]> m]> (messages (state w)).
Proof.
  intros Hfind Hread. unfold markMessageAsRead. rewrite Hfind, Hread.
  now rewrite processMessages_messages, updateMessageReadStatus_state.
Qed.

Lemma unread_after_insert (l : list obj) (i : nat) (m m' : obj) :
  l !! i = Some m -> isUnread m = true -> isUnread m' = false ->
  S (length (List.filter isUnread (<[i := m']> l))) = length (List.filter isUnread l).
Proof.
  revert i. induction l as [|x l IH]; intros i Hi Hm Hm'; [discriminate |].
  destruct i as [|i].
  - injection Hi as ->. change (<[0%nat := m']> (m :: l)) with (m' :: l).
    cbn [List.filter]. rewrite Hm, Hm'. reflexivity.
  - change (<[S i := m']> (x :: l)) with (x :: <[i := m']> l).
    specialize (IH i Hi Hm Hm'). cbn [List.filter].
    destruct (isUnread x); cbn [length]; lia.
Qed.

End Settled.


(** X9. Marking an unread message takes exactly one off the unread
    count. *)
Theorem markMessageAsRead_count `{Host} (config : jsval) (env : Env) (messageId : jsval)
    (w : World) (i : nat) (m : obj) :
  countConsistent w ->
  getMessage messageId w = Some (i, m) ->
  truthy (prop m "read") = false ->
  S (unreadCount (state (fst (markMessageAsRead config env messageId w))))
  = unreadCount (state w).
Proof.
  intros Hw Hfind Hread.
  pose proof (markMessageAsRead_messages config env messageId w i m Hfind Hread) as Hmessages.
  assert (Hcount : countConsistent (fst (markMessageAsRead config env messageId w))).
  { unfold markMessageAsRead. rewrite Hfind, Hread. apply processMessages_countConsistent. }
  rewrite Hcount, Hmessages, Hw.
  apply list_find_Some in Hfind as (Hlookup & _ & _).
  apply (unread_after_insert _ i m).
  - exact Hlookup.
  - unfold isUnread. now rewrite Hread.
  - unfold isUnread, prop. now rewrite lookup_insert_eq.
Qed.

Lemma markMessageAsRead_count_witness :
  let config := sampleConfig true true VNull in
  let env := sampleEnv "localhost" 1763202700000 (Throw (Error "Failed to fetch")) in
  let w := loadedWorld [sampleMessage "m1" "2025-11-15T10:30:00Z" false;
                        sampleMessage "m2" "2025-11-14T09:00:00Z" false] None in
  unreadCount (state (fst (markMessageAsRead (H := ISO8601.host) config env (VStr "m2") w)))
  = 1%nat.
Proof.
  intros config env w.
  pose proof (markMessageAsRead_count (H := ISO8601.host) config env (VStr "m2") w 1%nat
                (sampleMessage "m2" "2025-11-14T09:00:00Z" false)) as Hcount.
  assert (Hbefore : unreadCount (state w) = 2%nat) by reflexivity.
  rewrite Hbefore in Hcount. apply eq_add_S. apply Hcount.
  - reflexivity.
  - vm_refl.
  - vm_refl.
Defined.

(** ** The payload of a reply *)

(** X10. The payload of a reply has exactly five properties.  The one
    that binds the regarding object is named after the configured
    navigation property and points to the regarding object of the
    message in the configured entity set; whatever the configuration
    says, its name cannot coincide with one of the four fixed
    properties, so no part of the reply is overwritten. *)
Theorem reply_payload_regarding (regarding M : obj) (replyText : jsval) :
  let payload := replyPayload regarding M replyText in
  let binding := toStr (prop regarding "navigationProperty") +:+ "@odata.bind" in
  prop payload binding
  = VStr ("/" +:+ toStr (prop regarding "entitySetName")
          +:+ "(" +:+ toStr (prop M "regardingObjectId") +:+ ")")
  /\ size payload = 5%nat
  /\ forall key : string,
       is_Some (payload !! key)
       <-> key = "adx_portalcomment_activity_parties" \/ key = binding
           \/ key = "adx_portalcommentdirectioncode" \/ key = "description"
           \/ key = "subject".
Proof.
  cbv zeta. unfold replyPayload.
  set (binding := toStr (prop regarding "navigationProperty") +:+ "@odata.bind").
  assert (Hfresh : forall key : string, last_char key <> Some "d"%char -> binding <> key)
    by (intros key; apply bind_key_fresh).
  assert (Hparties : binding <> "adx_portalcomment_activity_parties")
    by (apply Hfresh; discriminate).
  assert (Hdirection : binding <> "adx_portalcommentdirectioncode")
    by (apply Hfresh; discriminate).
  assert (Hdescription : binding <> "description") by (apply Hfresh; discriminate).
  assert (Hsubject : binding <> "subject") by (apply Hfresh; discriminate).
  clear Hfresh. split; [| split].
  - unfold prop at 1. rewrite lookup_insert_ne by congruence. now rewrite lookup_insert_eq.
  - rewrite !map_size_insert_None, map_size_empty; [reflexivity | ..];
      repeat (rewrite lookup_insert_ne by congruence); apply lookup_empty.
  - intros key. rewrite !lookup_insert_is_Some', lookup_empty.
    pose proof (@is_Some_None jsval) as Hnone. intuition congruence.
Qed.

(** ** The requests of a load cycle *)

Section LoadRequests.

Context `{Host}.
Variable config : jsval.

Lemma sameInbox_refl (w : World) : sameInbox w w.
Proof. repeat split. Qed.

Lemma loadFailed_requests (w : World) :
  requests (trace (fst (loadFailed w))) = requests (trace w).
Proof. unfold loadFailed, modify. cbn. rewrite requests_app. cbn. apply app_nil_r. Qed.

Lemma load_tail_requests (env : Env) (records : jsval) (w : World) :
  requests (trace (fst (try_catch (bind_M (storeRecords config env records)
                                     (fun _ => loadSucceeded))
                          (fun _ => loadFailed) w)))
  = requests (trace w).
Proof.
  destruct (load_tail_outcome config env records w w [] (sameInbox_refl w))
    as (_ & _ & _ & [[-> _] | [-> _]]); [now rewrite app_nil_r | |];
    rewrite requests_app; cbn; apply app_nil_r.
Qed.

Ltac requests_failed :=
  rewrite loadFailed_requests; cbn [trace emit]; rewrite ?requests_app; cbn;
  rewrite ?app_nil_r; reflexivity.

Lemma loadMessagesFromLocal_requests (env : Env) (w : World) :
  nullish config = false ->
  requests (trace (fst (loadMessagesFromLocal config env w)))
  = (requests (trace w) ++ [localReadRequest config])%list.
Proof.
  intros Hconfig. unfold loadMessagesFromLocal.
  rewrite try_catch_lift, (getprop_Ok config) by exact Hconfig.
  rewrite try_catch_fetch. fold (localReadRequest config).
  destruct (respond env _) as [response|]; [| requests_failed].
  destruct (negb (ok response)).
  { unfold try_catch, throw_M. requests_failed. }
  rewrite try_catch_lift. destruct (json response); [| requests_failed].
  rewrite try_catch_lift. destruct (getprop _ "value"); [| requests_failed].
  rewrite load_tail_requests. cbn [trace emit]. now rewrite requests_app.
Qed.

Lemma loadMessagesFromPortal_requests (env : Env) (w : World) :
  requests (trace (fst (loadMessagesFromPortal config env w)))
  = (requests (trace w)
     ++ if truthy (get (get (get (get config "portalDataSource") "operations") "read")
                     "enabled")
        then match portalToken env with
             | Ok token => [portalReadRequest config token]
             | Throw _ => []
             end
        else [])%list.
Proof.
  unfold loadMessagesFromPortal, getPortalToken.
  destruct (truthy (get (get (get (get config "portalDataSource") "operations") "read")
                      "enabled")) eqn:Henabled.
  - pose proof (get_truthy _ _ Henabled) as Hread.
    pose proof (get_truthy _ _ Hread) as Hops.
    pose proof (get_truthy _ _ Hops) as Hsource.
    pose proof (get_truthy _ _ Hsource) as Hconfig.
    rewrite try_catch_lift, (getprop_Ok config) by now apply truthy_not_nullish.
    rewrite try_catch_lift, (getprop_Ok (get config "portalDataSource"))
      by now apply truthy_not_nullish.
    rewrite try_catch_lift, (getprop_Ok (get _ "operations")) by now apply truthy_not_nullish.
    rewrite try_catch_lift, (getprop_Ok (get _ "read")) by now apply truthy_not_nullish.
    rewrite Henabled. cbn [negb].
    rewrite try_catch_lift. destruct (portalToken env) as [token|]; [| requests_failed].
    rewrite try_catch_fetch. fold (apiUrl config). fold (portalReadRequest config token).
    destruct (respond env _) as [response|]; [| requests_failed].
    destruct (negb (ok response)).
    { unfold try_catch, throw_M. requests_failed. }
    rewrite try_catch_lift. destruct (json response); [| requests_failed].
    rewrite try_catch_lift. destruct (getprop _ "value"); [| requests_failed].
    rewrite load_tail_requests. cbn [trace emit]. now rewrite requests_app.
  - rewrite try_catch_lift.
    destruct (getprop config "portalDataSource") as [cfg|] eqn:Ecfg; [| requests_failed].
    apply getprop_inv in Ecfg as [-> _].
    rewrite try_catch_lift.
    destruct (getprop _ "operations") as [ops|] eqn:Eops; [| requests_failed].
    apply getprop_inv in Eops as [-> _].
    rewrite try_catch_lift.
    destruct (getprop _ "read") as [readOps|] eqn:Eread; [| requests_failed].
    apply getprop_inv in Eread as [-> _].
    rewrite try_catch_lift.
    destruct (getprop _ "enabled") as [enabled|] eqn:Een; [| requests_failed].
    apply getprop_inv in Een as [-> _].
    rewrite Henabled. cbn [negb]. unfold try_catch, throw_M. requests_failed.
Qed.

Lemma loadMessages_requests (env : Env) (w : World) :
  nullish config = false ->
  requests (trace (fst (loadMessages config env w)))
  = (requests (trace w)
     ++ if isLocalEnvironment env && truthy (get config "localDataSource")
        then [localReadRequest config]
        else if negb (isLocalEnvironment env) && truthy (get config "portalDataSource")
        then if truthy (get (get (get (get config "portalDataSource") "operations") "read")
                          "enabled")
             then match portalToken env with
                  | Ok token => [portalReadRequest config token]
                  | Throw _ => []
                  end
             else []
        else if truthy (get config "localDataSource")
        then [localReadRequest config]
        else [])%list.
Proof.
  intros Hconfig. unfold loadMessages, bind_M, modify, lift.
  rewrite !(getprop_Ok config) by exact Hconfig.
  destruct (isLocalEnvironment env && truthy _);
    [now rewrite loadMessagesFromLocal_requests |].
  destruct (negb (isLocalEnvironment env) && truthy _);
    [now rewrite loadMessagesFromPortal_requests |].
  destruct (truthy _); [now rewrite loadMessagesFromLocal_requests |].
  rewrite loadFailed_requests. cbn. now rewrite app_nil_r.
Qed.

Lemma loadMessages_nullish (env : Env) (w : World) :
  nullish config = true ->
  exists e : exn, loadMessages config env w = (set_loading true false w, Throw e).
Proof.
  intros Hconfig. unfold loadMessages, bind_M, modify, lift.
  destruct config; try discriminate; cbn; eauto.
Qed.

End LoadRequests.

(** ** Sessions *)

Section Sessions.

Context `{Host}.
Variable config : jsval.

Lemma loadMessages_countConsistent (env : Env) (w : World) :
  countConsistent w -> countConsistent (fst (loadMessages config env w)).
Proof.
  intros Hw. destruct (nullish config) eqn:Hconfig.
  - destruct (loadMessages_nullish config env w Hconfig) as [e ->]. exact Hw.
  - destruct (loadMessages_outcome config env w Hconfig)
      as (_ & _ & _ & fetches & _ & _
          & [[_ (Hm & Hc & _)] | (_ & _ & records & msgs & _ & Hm & Hc & _)]);
      unfold countConsistent; now rewrite Hm, Hc.
Qed.

Lemma perform_countConsistent (env : Env) (a : action) (w : World) :
  countConsistent w -> countConsistent (perform config env a w).
Proof.
  intros Hw. destruct a as [| messageId | | | messageId replyText |]; unfold perform.
  - now apply loadMessages_countConsistent.
  - unfold markMessageAsRead. destruct (getMessage messageId w) as [[i message]|]; [| exact Hw].
    destruct (truthy (prop message "read")); [exact Hw |]. apply processMessages_countConsistent.
  - apply processMessages_countConsistent.
  - exact Hw.
  - destruct (createReply_cases config env messageId replyText w)
      as [[-> _] | (token & i & M & regarding & _ & _ & _ & _ & _ & _ & _ & _ & Hfst & _)];
      [exact Hw | cbv zeta in Hfst; rewrite Hfst; exact Hw].
  - apply (loadMessages_countConsistent env (set_lastChecked None w)). exact Hw.
Qed.

Lemma perform_monotone (env : Env) (a : action) (w : World) :
  keepsTimestamp a = true ->
  lastCheckedDate (lastChecked w) <= lastCheckedDate (lastChecked (perform config env a w)).
Proof.
  destruct a as [| messageId | | | messageId replyText |]; unfold perform; try discriminate;
    intros _.
  - apply loadMessages_monotone.
  - apply markMessageAsRead_monotone.
  - apply Z.le_refl.
  - destruct (createReply_cases config env messageId replyText w)
      as [[-> _] | (token & i & M & regarding & _ & _ & _ & _ & _ & _ & _ & _ & Hfst & _)];
      [apply Z.le_refl | cbv zeta in Hfst; rewrite Hfst; apply Z.le_refl].
Qed.

End Sessions.

(** X11. Two invariants of a session, whatever the page does and
    whatever the network answers.  The unread count of the badge stays
    equal to the number of unread messages.  And as long as the page
    neither marks everything as read nor clears the read status, the
    stored timestamp never moves backwards. *)
Theorem session_invariants `{Host} (config : jsval) (steps : list (Env * action))
    (w : World) :
  countConsistent w ->
  countConsistent (session config steps w)
  /\ (forallb (fun step => keepsTimestamp (snd step)) steps = true ->
      lastCheckedDate (lastChecked w)
      <= lastCheckedDate (lastChecked (session config steps w))).
Proof.
  revert w. induction steps as [| [env a] steps IH]; intros w Hw.
  - split; [exact Hw | cbn; lia].
  - cbn [session fold_left fst snd]. fold (session config steps (perform config env a w)).
    destruct (IH (perform config env a w)) as [Hcount Htime].
    { now apply perform_countConsistent. }
    split; [exact Hcount |].
    cbn [forallb snd]. intros [Ha Hsteps]%andb_prop.
    pose proof (perform_monotone config env a w Ha). specialize (Htime Hsteps). lia.
Qed.

Lemma session_invariants_witness :
  let config := sampleConfig true true VNull in
  let served :=
    sampleEnv "localhost" 1763202700000
      (Ok {| ok := true; status := 200; text := Ok "";
             json := Ok (object [("messages",
                                  VArr [sampleLegacy "m1" "2025-11-15T10:30:00Z" []])]) |}) in
  let steps := [(served, Refresh); (served, MarkAsRead (VStr "m1")); (served, ToggleView)] in
  countConsistent (session (H := ISO8601.host) config steps emptyWorld)
  /\ 0 <= lastCheckedDate (lastChecked (session (H := ISO8601.host) config steps emptyWorld)).
Proof.
  intros config served steps.
  destruct (session_invariants (H := ISO8601.host) config steps emptyWorld) as [Hcount Htime].
  - reflexivity.
  - split; [exact Hcount |]. apply Htime. reflexivity.
Defined.

(** X12. Every action sends at most one request.  A request to the Web
    API is only sent from a hosted page and carries the anti-forgery
    token of the page: without a token nothing is sent to the API.  The
    only other request is the read of the local file, which carries no
    header at all. *)
Theorem action_requests `{Host} (config : jsval) (env : Env) (a : action) (w : World) :
  exists new : list request,
    requests (trace (perform config env a w)) = (requests (trace w) ++ new)%list
    /\ (length new <= 1)%nat
    /\ forall q : request,
         In q new ->
         (headers q = [] /\ q = localReadRequest config
          /\ (a = Refresh \/ a = ClearReadStatus))
         \/ exists token : jsval,
              isLocalEnvironment env = false
              /\ portalToken env = Ok token
              /\ In ("__RequestVerificationToken", token) (headers q)
              /\ match a with
                 | Refresh | ClearReadStatus => q = portalReadRequest config token
                 | MarkAsRead messageId =>
                     exists field : jsval,
                       q = updateRequest config token messageId field (VBool true)
                 | SendReply messageId replyText =>
                     exists regarding M : obj,
                       q = replyRequest config token regarding M replyText
                 | _ => False
                 end.
Proof.
  assert (Hnone : forall tr, exists new : list request,
             requests tr = (requests tr ++ new)%list /\ (length new <= 1)%nat
             /\ forall q : request, In q new ->
                  (headers q = [] /\ q = localReadRequest config
                   /\ (a = Refresh \/ a = ClearReadStatus))
                  \/ exists token : jsval,
                       isLocalEnvironment env = false
                       /\ portalToken env = Ok token
                       /\ In ("__RequestVerificationToken", token) (headers q)
                       /\ match a with
                          | Refresh | ClearReadStatus => q = portalReadRequest config token
                          | MarkAsRead messageId =>
                              exists field : jsval,
                                q = updateRequest config token messageId field (VBool true)
                          | SendReply messageId replyText =>
                              exists regarding M : obj,
                                q = replyRequest config token regarding M replyText
                          | _ => False
                          end).
  { intros tr. exists []. split; [now rewrite app_nil_r |]. split; [cbn; lia |].
    intros q []. }
  assert (Hload : forall w0, trace w0 = trace w ->
            (a = Refresh \/ a = ClearReadStatus) ->
            exists new : list request,
              requests (trace (fst (loadMessages config env w0)))
              = (requests (trace w) ++ new)%list
              /\ (length new <= 1)%nat
              /\ forall q : request, In q new ->
                   (headers q = [] /\ q = localReadRequest config
                    /\ (a = Refresh \/ a = ClearReadStatus))
                   \/ exists token : jsval,
                        isLocalEnvironment env = false
                        /\ portalToken env = Ok token
                        /\ In ("__RequestVerificationToken", token) (headers q)
                        /\ q = portalReadRequest config token).
  { intros w0 Hw0 Ha. destruct (nullish config) eqn:Hconfig.
    - destruct (loadMessages_nullish config env w0 Hconfig) as [e ->]. cbn. rewrite Hw0.
      exists []. split; [now rewrite app_nil_r |]. split; [cbn; lia |]. intros q [].
    - rewrite loadMessages_requests by exact Hconfig. rewrite Hw0.
      assert (Hlocal : forall q, In q [localReadRequest config] ->
                (headers q = [] /\ q = localReadRequest config
                 /\ (a = Refresh \/ a = ClearReadStatus))
                \/ exists token : jsval,
                     isLocalEnvironment env = false
                     /\ portalToken env = Ok token
                     /\ In ("__RequestVerificationToken", token) (headers q)
                     /\ q = portalReadRequest config token).
      { intros q [<- | []]. left. repeat split. exact Ha. }
      eexists. split; [reflexivity |].
      destruct (isLocalEnvironment env) eqn:Hhost; cbn [negb andb].
      + destruct (truthy (get config "localDataSource"));
          (split; [cbn; lia |]); [exact Hlocal | intros q []].
      + destruct (truthy (get config "portalDataSource")).
        * destruct (truthy (get _ "enabled")); [| split; [cbn; lia | intros q []]].
          destruct (portalToken env) as [token|]; [| split; [cbn; lia | intros q []]].
          split; [cbn; lia |]. intros q [<- | []]. right. exists token.
          repeat split. now left.
        * destruct (truthy (get config "localDataSource"));
            (split; [cbn; lia |]); [exact Hlocal | intros q []]. }
  destruct a as [| messageId | | | messageId replyText |]; unfold perform.
  - destruct (Hload w eq_refl (or_introl eq_refl)) as (new & Hnew & Hlen & Hq).
    exists new. split; [exact Hnew |]. split; [exact Hlen |].
    intros q Hin. destruct (Hq q Hin) as [Hl | (token & ? & ? & ? & ?)]; [now left |].
    right. now exists token.
  - rewrite markMessageAsRead_trace, requests_app.
    eexists. split; [reflexivity |].
    destruct (isLocalEnvironment env) eqn:Hhost; cbn [negb andb];
      [split; [cbn; lia | intros q []] |].
    destruct (_ && _); [| split; [cbn; lia | intros q []]].
    destruct (portalToken env) as [token|]; [| split; [cbn; lia | intros q []]].
    destruct (getFieldName config "hasread") as [field|]; [| split; [cbn; lia | intros q []]].
    split; [cbn; lia |]. intros q [<- | []]. right. exists token.
    repeat split; [now left | now exists field].
  - destruct (markAll_trace env w) as [-> _]. apply Hnone.
  - apply Hnone.
  - destruct (createReply_cases config env messageId replyText w)
      as [[-> _] | (token & i & M & regarding & Hhost & _ & _ & _ & _ & _ & Htoken & _
                    & Hfst & _)]; [apply Hnone |].
    cbv zeta in Hfst. rewrite Hfst. cbn [trace emit]. rewrite requests_app.
    eexists. split; [reflexivity |]. split; [cbn; lia |].
    intros q [<- | []]. right. exists token. repeat split; try assumption.
    + now left.
    + now exists regarding, M.
  - unfold clearReadStatus, bind_M, modify.
    destruct (Hload (set_lastChecked None w) eq_refl (or_intror eq_refl))
      as (new & Hnew & Hlen & Hq).
    exists new. split; [exact Hnew |]. split; [exact Hlen |].
    intros q Hin. destruct (Hq q Hin) as [Hl | (token & ? & ? & ? & ?)]; [now left |].
    right. now exists token.
Qed.

Lemma action_requests_witness :
  let config := sampleConfig true true VNull in
  let env := sampleEnv "contoso.powerappsportals.com" 1763202700000
               (Throw (Error "Failed to fetch")) in
  let w := loadedWorld [sampleMessage "a1" "2025-11-15T10:30:00Z" false] None in
  let q := updateRequest config (VStr "csrf-token") (VStr "a1") (VStr "msfed_hasread")
             (VBool true) in
  requests (trace (perform (H := ISO8601.host) config env (MarkAsRead (VStr "a1")) w)) = [q]
  /\ isLocalEnvironment env = false
  /\ In ("__RequestVerificationToken", VStr "csrf-token") (headers q).
Proof.
  intros config env w q.
  assert (Hsent : requests (trace (perform (H := ISO8601.host) config env
                                     (MarkAsRead (VStr "a1")) w)) = [q]) by vm_refl.
  split; [exact Hsent |].
  destruct (action_requests (H := ISO8601.host) config env (MarkAsRead (VStr "a1")) w)
    as (new & Hnew & _ & Hq).
  rewrite Hsent in Hnew. cbn in Hnew. subst new.
  destruct (Hq q (or_introl eq_refl)) as [(Hheaders & _) | (token & Hhost & Htoken & Hin & _)].
  - discriminate Hheaders.
  - injection Htoken as <-. split; [exact Hhost | exact Hin].
Defined.

(** ** Loading *)

Section Loading.

Context `{Host}.
Variable config : jsval.



Lemma map_result_spec (stored : option Z) (now : Z) (records : list jsval) :
  match map_result (mapComment config stored now) records with
  | Ok msgs =>
      Forall2 (fun comment msg => mapComment config stored now comment = Ok msg) records msgs
  | Throw e =>
      exists (pre : list jsval) (comment : jsval) (post : list jsval),
        records = (pre ++ comment :: post)%list
        /\ Forall (fun c => exists msg : obj, mapComment config stored now c = Ok msg) pre
        /\ mapComment config stored now comment = Throw e
  end.
Proof.
  induction records as [|comment records IH]; [constructor |].
  cbn [map_result]. destruct (mapComment config stored now comment) as [msg|e] eqn:Hmap;
    cbn [JS.bind].
  - destruct (map_result _ records) as [msgs|e]; cbn [JS.bind].
    + constructor; assumption.
    + destruct IH as (pre & c & post & -> & Hpre & Hc).
      exists (comment :: pre), c, post. split; [reflexivity |].
      split; [constructor; eauto | exact Hc].
  - exists [], comment, records. split; [reflexivity |]. split; [constructor | exact Hmap].
Qed.

Lemma mapComment_id (stored : option Z) (now : Z) (comment : jsval) (msg : obj) :
  mapComment config stored now comment = Ok msg ->
  prop msg "id" = get comment (if legacyShaped comment then "id" else "activityid").
Proof.
  intros Hmap. destruct (legacyShaped comment) eqn:Hshape.
  - rewrite mapComment_legacy in Hmap by exact Hshape. injection Hmap as <-.
    lookup_literal. reflexivity.
  - apply (mapComment_relationship config stored now comment msg Hshape) in Hmap
      as (toParty & field & _ & _ & _ & _ & _ & _ & _ & ->).
    unfold relationshipMessage. lookup_literal. reflexivity.
Qed.

End Loading.




(** X14. Which source a load reads.  A local page with a local file
    configured reads the file; a hosted page with the portal data source
    configured calls the Web API, provided the read operation is enabled
    and a token is available, and never falls back to the file; a hosted
    page without portal data source reads the local file; and a page
    left without a usable source, which includes a local page configured
    for the portal only, renders the error without any request. *)
Theorem load_source_selection `{Host} (config : jsval) (env : Env) (w : World) :
  nullish config = false ->
  let isLocal := isLocalEnvironment env in
  let hasLocal := truthy (get config "localDataSource") in
  let hasPortal := truthy (get config "portalDataSource") in
  let w' := fst (loadMessages config env w) in
  (hasLocal = true -> isLocal = true \/ hasPortal = false ->
   requests (trace w') = (requests (trace w) ++ [localReadRequest config])%list)
  /\ (isLocal = false -> hasPortal = true ->
      requests (trace w')
      = (requests (trace w)
         ++ if truthy (get (get (get (get config "portalDataSource") "operations") "read")
                         "enabled")
            then match portalToken env with
                 | Ok token => [portalReadRequest config token]
                 | Throw _ => []
                 end
            else [])%list)
  /\ (hasLocal = false -> isLocal = true \/ hasPortal = false ->
      trace w' = (trace w ++ [RenderError])%list /\ sameInbox w w').
Proof.
  intros Hconfig. cbv zeta. split; [| split].
  - intros Hlocal Hsel. rewrite loadMessages_requests by exact Hconfig. rewrite Hlocal.
    destruct Hsel as [-> | ->]; cbn [negb andb]; [reflexivity |].
    rewrite andb_true_r, andb_false_r. now destruct (isLocalEnvironment env).
  - intros Hhost Hportal. rewrite loadMessages_requests by exact Hconfig.
    now rewrite Hhost, Hportal.
  - intros Hlocal Hsel. unfold loadMessages, bind_M, modify, lift.
    rewrite !(getprop_Ok config) by exact Hconfig. rewrite Hlocal, andb_false_r.
    assert (Hnot : negb (isLocalEnvironment env) && truthy (get config "portalDataSource")
                   = false).
    { destruct Hsel as [-> | ->]; [reflexivity | apply andb_false_r]. }
    rewrite Hnot. unfold loadFailed, modify. cbn. repeat split.
Qed.

Lemma load_source_selection_witness :
  let config := object [("portalDataSource", samplePortalDataSource true true VNull);
                        ("containerId", VStr "portal-inbox-extension")] in
  let env := sampleEnv "localhost" 1763202700000 (Throw (Error "Failed to fetch")) in
  trace (fst (loadMessages (H := ISO8601.host) config env emptyWorld)) = [RenderError].
Proof.
  intros config env.
  destruct (load_source_selection (H := ISO8601.host) config env emptyWorld)
    as (_ & _ & Hnone).
  - reflexivity.
  - destruct Hnone as [Htrace _].
    + reflexivity.
    + left. reflexivity.
    + exact Htrace.
Defined.



(** X16. The field mapper is all or nothing and keeps the order.  On an
    array it either maps every record, giving one message per record in
    the order of the records, each with the record's id ([id] of a
    legacy-shaped record, [activityid] of a relationship-backed one), or
    it throws the error of the first record that cannot be mapped and
    gives no message at all.  On anything else it throws a type error. *)
Theorem mapper_all_or_nothing `{Host} (config : jsval) (stored : option Z) (now : Z)
    (records : jsval) :
  match records with
  | VArr l =>
      match mapPortalDataToMessages config stored now records with
      | Ok msgs =>
          length msgs = length l
          /\ Forall2 (fun comment msg =>
                        mapComment config stored now comment = Ok msg
                        /\ prop msg "id"
                           = get comment (if legacyShaped comment then "id" else "activityid"))
                     l msgs
      | Throw e =>
          exists (pre : list jsval) (comment : jsval) (post : list jsval),
            l = (pre ++ comment :: post)%list
            /\ Forall (fun c => exists msg : obj, mapComment config stored now c = Ok msg) pre
            /\ mapComment config stored now comment = Throw e
      end
  | _ => exists message : string,
           mapPortalDataToMessages config stored now records = Throw (TypeError message)
  end.
Proof.
  destruct records as [| | b | n | s | l | o]; try (cbn; eauto; fail).
  unfold mapPortalDataToMessages.
  pose proof (map_result_spec config stored now l) as Hspec.
  destruct (map_result _ l) as [msgs|e]; [| exact Hspec].
  split; [symmetry; eapply Forall2_length; exact Hspec |].
  eapply Forall2_impl; [exact Hspec |].
  intros comment msg Hmap. split; [exact Hmap | exact (mapComment_id config stored now comment msg Hmap)].
Qed.

(** ** The records of a response *)

Section Records.

Context `{Host}.
Variable config : jsval.


End Records.



(** ** Strings *)











(** ** The relative date of a message *)

Section RelativeDate.

Context `{Host}.
Variables (config text : jsval) (toLocaleDateString : option Z -> string).
Hypothesis config_text : getprop config "text" = Ok text.
Hypothesis text_defined : nullish text = false.

Lemma formatDate_ago (count key : string) :
  (text <- getprop config "text" ;; unit <- getprop text key ;;
   Ok (VStr (count +:+ " " +:+ toStr unit)))
  = Ok (VStr (count +:+ " " +:+ toStr (get text key))).
Proof. rewrite config_text. cbn [JS.bind]. now rewrite getprop_Ok by exact text_defined. Qed.

Lemma formatDate_eq (now date : Z) (dateString : jsval) :
  newDate dateString = Some date ->
  formatDate config toLocaleDateString now dateString
  = let d := now - date in
    if d <? 60000 then Ok (get text "justNow")
    else if d <? 120000 then Ok (VStr ("1 " +:+ toStr (get text "minuteAgo")))
    else if d <? 3600000
    then Ok (VStr (pretty (d / 60000) +:+ " " +:+ toStr (get text "minutesAgo")))
    else if d <? 7200000 then Ok (VStr ("1 " +:+ toStr (get text "hourAgo")))
    else if d <? 86400000
    then Ok (VStr (pretty (d / 3600000) +:+ " " +:+ toStr (get text "hoursAgo")))
    else if d <? 172800000 then Ok (VStr ("1 " +:+ toStr (get text "dayAgo")))
    else if d <? 604800000
    then Ok (VStr (pretty (d / 86400000) +:+ " " +:+ toStr (get text "daysAgo")))
    else Ok (VStr (toLocaleDateString (Some date))).
Proof.
  intros Hdate. unfold formatDate. rewrite Hdate. cbv zeta. rewrite !formatDate_ago.
  rewrite config_text. cbn [JS.bind]. rewrite getprop_Ok by exact text_defined.
  set (d := now - date).
  repeat match goal with
         | |- context [?a <? ?b] => destruct (Z.ltb_spec a b)
         | |- context [?a =? ?b] => destruct (Z.eqb_spec a b)
         end; try reflexivity; exfalso; Z.to_euclidean_division_equations; lia.
Qed.

End RelativeDate.

(** X19. The relative date shown for a message, by the age [d] of the
    message in milliseconds.  A message dated in the future is shown as
    just now; counts are only shown from 2 up, and never reach the next
    unit (at most 59 minutes, 23 hours, 6 days); from seven days on the
    date is shown in the locale of the page. *)
Theorem formatDate_buckets `{Host} (config text : jsval)
    (toLocaleDateString : option Z -> string) (now date : Z) (dateString : jsval) :
  getprop config "text" = Ok text ->
  nullish text = false ->
  newDate dateString = Some date ->
  let d := now - date in
  let shown := formatDate config toLocaleDateString now dateString in
  let ago (n : Z) (key : string) := Ok (VStr (pretty n +:+ " " +:+ toStr (get text key))) in
  (d < 60000 -> shown = Ok (get text "justNow"))
  /\ (60000 <= d < 120000 -> shown = Ok (VStr ("1 " +:+ toStr (get text "minuteAgo"))))
  /\ (120000 <= d < 3600000 ->
      exists n : Z, 2 <= n <= 59 /\ n * 60000 <= d < (n + 1) * 60000
                    /\ shown = ago n "minutesAgo")
  /\ (3600000 <= d < 7200000 -> shown = Ok (VStr ("1 " +:+ toStr (get text "hourAgo"))))
  /\ (7200000 <= d < 86400000 ->
      exists n : Z, 2 <= n <= 23 /\ n * 3600000 <= d < (n + 1) * 3600000
                    /\ shown = ago n "hoursAgo")
  /\ (86400000 <= d < 172800000 -> shown = Ok (VStr ("1 " +:+ toStr (get text "dayAgo"))))
  /\ (172800000 <= d < 604800000 ->
      exists n : Z, 2 <= n <= 6 /\ n * 86400000 <= d < (n + 1) * 86400000
                    /\ shown = ago n "daysAgo")
  /\ (604800000 <= d -> shown = Ok (VStr (toLocaleDateString (Some date)))).
Proof.
  intros Hconfig Htext Hdate. cbv zeta.
  rewrite (formatDate_eq config text toLocaleDateString Hconfig Htext now date dateString Hdate).
  cbv zeta. set (d := now - date).
  repeat match goal with |- _ /\ _ => split end; intros Hd;
    repeat match goal with
           | |- context [?a <? ?b] => destruct (Z.ltb_spec a b); try lia
           end; try reflexivity.
  - exists (d / 60000). repeat split; try reflexivity;
      Z.to_euclidean_division_equations; lia.
  - exists (d / 3600000). repeat split; try reflexivity;
      Z.to_euclidean_division_equations; lia.
  - exists (d / 86400000). repeat split; try reflexivity;
      Z.to_euclidean_division_equations; lia.
Qed.

Lemma formatDate_buckets_witness :
  let text := object [("justNow", VStr "Just now"); ("minuteAgo", VStr "minute ago")] in
  formatDate (H := ISO8601.host) (object [("text", text)]) (fun _ => "15/11/2025")
    1763202700000 (VStr "2025-11-15T10:30:00Z")
  = Ok (VStr "1 minute ago").
Proof.
  intros text.
  destruct (formatDate_buckets (H := ISO8601.host) (object [("text", text)]) text
              (fun _ => "15/11/2025") 1763202700000 1763202600000
              (VStr "2025-11-15T10:30:00Z")) as (_ & Hminute & _).
  - reflexivity.
  - reflexivity.
  - vm_refl.
  - rewrite Hminute by lia. reflexivity.
Defined.

(** ** The loader *)

Lemma strip_prefix_dotless (c : ascii) (s : string) :
  c <> "."%char -> Loader.strip_prefix ".js" (String c s) = None.
Proof.
  intros Hc.
  change (Loader.strip_prefix ".js" (String c s))
    with (if Ascii.eqb "."%char c then Loader.strip_prefix "js" s else None).
  destruct (Ascii.eqb_spec "."%char c) as [<- | _]; [contradiction | reflexivity].
Qed.

Lemma replace_first (a b : string) :
  ~ In "."%char (list_ascii_of_string a) ->
  Loader.replace ".js" "" (a +:+ ".js" +:+ b) = a +:+ b.
Proof.
  induction a as [|c a IH]; intros Hdot.
  - reflexivity.
  - change (String c a +:+ ".js" +:+ b) with (String c (a +:+ ".js" +:+ b)).
    change (String c a +:+ b) with (String c (a +:+ b)).
    change (Loader.replace ".js" "" (String c (a +:+ ".js" +:+ b)))
      with (match Loader.strip_prefix ".js" (String c (a +:+ ".js" +:+ b)) with
            | Some rest => "" +:+ rest
            | None => String c (Loader.replace ".js" "" (a +:+ ".js" +:+ b))
            end).
    rewrite strip_prefix_dotless by (intros ->; apply Hdot; now left).
    rewrite IH; [reflexivity |]. intros Hin. apply Hdot. now right.
Qed.

(** X20. The path of an extension script.  On a hosted page it is the
    file name under the origin of the page.  On a local page the folder
    is the file name without its first [.js], wherever that occurs: for
    a name [stem.js] with a stem free of dots the script is read from
    [stem/stem.js]; when something follows the first [.js], it stays in
    the name of the folder. *)
Theorem getExtensionPath_spec (isLocal : bool) (portalBaseUrl stem rest : string) :
  ~ In "."%char (list_ascii_of_string stem) ->
  Loader.getExtensionPath isLocal portalBaseUrl (stem +:+ ".js" +:+ rest)
  = if isLocal
    then (stem +:+ rest) +:+ "/" +:+ stem +:+ ".js" +:+ rest
    else portalBaseUrl +:+ "/" +:+ stem +:+ ".js" +:+ rest.
Proof.
  intros Hdot. unfold Loader.getExtensionPath. destruct isLocal; [| reflexivity].
  cbv zeta. now rewrite replace_first.
Qed.

Lemma getExtensionPath_spec_witness :
  Loader.getExtensionPath true "https://contoso.powerappsportals.com"
    "portal-inbox-extension.js"
  = "portal-inbox-extension/portal-inbox-extension.js".
Proof.
  apply (getExtensionPath_spec true "https://contoso.powerappsportals.com"
           "portal-inbox-extension" "").
  cbn. intuition discriminate.
Defined.

Lemma loadExtension_cases (isLocal : bool) (portalBaseUrl : string) (onload : bool)
    (ext : Loader.extension) :
  let r := Loader.loadExtension isLocal portalBaseUrl onload ext in
  let path := Loader.getExtensionPath isLocal portalBaseUrl (Loader.filename ext) in
  if Loader.enabled ext
  then fst r = [path] /\ Loader.isLoaded (snd r) = onload
       /\ Loader.isFailed (snd r) = negb onload /\ Loader.isSkipped (snd r) = false
  else fst r = [] /\ Loader.isLoaded (snd r) = false
       /\ Loader.isFailed (snd r) = false /\ Loader.isSkipped (snd r) = true.
Proof.
  cbv zeta. unfold Loader.loadExtension. destruct (Loader.enabled ext); cbn [negb fst snd].
  - destruct onload; repeat split.
  - repeat split.
Qed.

(** X21. The report of the loader.  A script element is appended for
    every enabled extension and for no other, in the order of the list.
    Every extension is counted exactly once, as loaded, failed or
    skipped: the skipped ones are the disabled ones, and the enabled
    ones are counted as loaded or failed according to the fate of their
    script. *)
Theorem loader_report (isLocal : bool) (portalBaseUrl : string) (onload : nat -> bool)
    (extensions : list Loader.extension) :
  let scripts := fst (Loader.loadAllExtensions isLocal portalBaseUrl onload extensions) in
  let detail := snd (Loader.loadAllExtensions isLocal portalBaseUrl onload extensions) in
  scripts = map (fun ext => Loader.getExtensionPath isLocal portalBaseUrl (Loader.filename ext))
              (List.filter Loader.enabled extensions)
  /\ Loader.total detail = length extensions
  /\ length (Loader.results detail) = length extensions
  /\ (Loader.loaded detail + Loader.failed detail + Loader.skipped detail
      = Loader.total detail)%nat
  /\ Loader.skipped detail
     = length (List.filter (fun ext => negb (Loader.enabled ext)) extensions)
  /\ Loader.loaded detail
     = length (List.filter id (imap (fun i ext => Loader.enabled ext && onload i) extensions))
  /\ Loader.failed detail
     = length (List.filter id (imap (fun i ext => Loader.enabled ext && negb (onload i))
                                extensions)).
Proof.
  cbv zeta. unfold Loader.loadAllExtensions. cbn [fst snd Loader.total Loader.loaded
    Loader.failed Loader.skipped Loader.results].
  rewrite length_map, length_imap.
  revert onload. induction extensions as [|ext exts IH]; intros onload; [repeat split |].
  destruct (IH (onload ∘ S)) as (Hscripts & _ & _ & Hsum & Hskip & Hloaded & Hfailed).
  pose proof (loadExtension_cases isLocal portalBaseUrl (onload O) ext) as Hext.
  cbv zeta in Hext.
  rewrite !imap_cons. cbn [map concat List.filter length].
  change (imap ((fun i => Loader.loadExtension isLocal portalBaseUrl (onload i)) ∘ S) exts)
    with (imap (fun i => Loader.loadExtension isLocal portalBaseUrl ((onload ∘ S) i)) exts).
  change (imap ((fun i ext0 => Loader.enabled ext0 && onload i) ∘ S) exts)
    with (imap (fun i ext0 => Loader.enabled ext0 && (onload ∘ S) i) exts).
  change (imap ((fun i ext0 => Loader.enabled ext0 && negb (onload i)) ∘ S) exts)
    with (imap (fun i ext0 => Loader.enabled ext0 && negb ((onload ∘ S) i)) exts).
  destruct (Loader.enabled ext); destruct Hext as (-> & -> & -> & ->); cbn [negb app andb].
  - destruct (onload O); cbn [negb length map id];
      repeat match goal with |- _ /\ _ => split end; try congruence; try lia.
  - cbn [id]. repeat match goal with |- _ /\ _ => split end; cbn [length map];
      try congruence; try lia.
Qed.

(** ** Merging the configuration *)

Lemma jsval_obj_ind (P : jsval -> Prop) :
  (forall v : jsval, (forall o : obj, v <> VObj o) -> P v) ->
  (forall o : obj, map_Forall (fun _ v => P v) o -> P (VObj o)) ->
  forall v : jsval, P v.
Proof.
  intros Hleaf Hnode v.
  remember (jsval_size v) as n eqn:Hn. revert v Hn.
  induction (lt_wf n) as [n _ IH]; intros v ->.
  destruct v as [| | b | z | s | l | o]; try (apply Hleaf; discriminate).
  apply Hnode. cbn in IH. revert IH.
  apply (map_fold_weak_ind
           (fun r (m : obj) =>
              (forall n', (n' < S r)%nat -> forall v, n' = jsval_size v -> P v)
              -> map_Forall (fun _ v => P v) m)).
  - intros _. apply map_Forall_empty.
  - intros k v m r Hk IHm IHv. apply map_Forall_insert; [exact Hk |]. split.
    + eapply IHv; [| reflexivity]. lia.
    + apply IHm. intros n' Hn' v' ->. eapply IHv; [| reflexivity]. lia.
Qed.

Lemma mergeWith_lookup (steps : gmap string (jsval -> option jsval)) (target merged : obj) :
  mergeWith steps target = Some merged ->
  forall key : string,
    merged !! key = match steps !! key with
                    | Some f => f (prop target key)
                    | None => target !! key
                    end.
Proof.
  unfold mergeWith. case_bool_decide; [| discriminate]. intros [= <-] key.
  rewrite lookup_merge. unfold prop.
  destruct (target !! key), (steps !! key); reflexivity.
Qed.

Lemma mergeWith_Some (steps : gmap string (jsval -> option jsval)) (target : obj) :
  (forall (key : string) (f : jsval -> option jsval),
     steps !! key = Some f -> is_Some (f (prop target key))) ->
  is_Some (mergeWith steps target).
Proof.
  intros Hsteps. unfold mergeWith. rewrite bool_decide_eq_true_2; [eauto |].
  intros key f Hf. now apply Hsteps.
Qed.

Lemma mergeWith_steps (steps : gmap string (jsval -> option jsval)) (target merged : obj) :
  mergeWith steps target = Some merged ->
  forall (key : string) (f : jsval -> option jsval),
    steps !! key = Some f -> is_Some (f (prop target key)).
Proof.
  unfold mergeWith. case_bool_decide as Hall; [| discriminate]. intros _ key f Hf.
  exact (Hall key f Hf).
Qed.

Lemma mergeValue_obj (source : obj) (old : jsval) :
  mergeValue (VObj source) old
  = match old ||| VObj ∅ with
    | VObj target => VObj <$> mergeConfig target source
    | _ => None
    end.
Proof.
  unfold mergeConfig. cbn [mergeValue]. destruct (old ||| VObj ∅); try reflexivity.
  now destruct (plainKeys source).
Qed.

Lemma mergeValue_leaf (value old : jsval) :
  (forall o : obj, value <> VObj o) -> mergeValue value old = Some value.
Proof. intros Hleaf. destruct value; try reflexivity. now destruct (Hleaf o). Qed.

(** What one merge does to each property of the target. *)
Lemma mergeConfig_lookup (target source merged : obj) :
  mergeConfig target source = Some merged ->
  forall key : string,
    merged !! key = match source !! key with
                    | Some value => mergeValue value (prop target key)
                    | None => target !! key
                    end.
Proof.
  unfold mergeConfig. destruct (plainKeys source); [| discriminate].
  intros Hmerge key. rewrite (mergeWith_lookup _ _ _ Hmerge key), lookup_fmap.
  now destruct (source !! key).
Qed.

Lemma mergeConfig_obj (target source merged so : obj) (key : string) :
  mergeConfig target source = Some merged ->
  source !! key = Some (VObj so) ->
  exists to m : obj,
    prop target key ||| VObj ∅ = VObj to
    /\ mergeConfig to so = Some m
    /\ merged !! key = Some (VObj m).
Proof.
  intros Hmerge Hkey. pose proof (mergeConfig_lookup _ _ _ Hmerge key) as Hlookup.
  rewrite Hkey in Hlookup.
  assert (Hsome : is_Some (mergeValue (VObj so) (prop target key))).
  { unfold mergeConfig in Hmerge. destruct (plainKeys source); [| discriminate].
    apply (mergeWith_steps _ _ _ Hmerge key). now rewrite lookup_fmap, Hkey. }
  rewrite mergeValue_obj in Hlookup, Hsome.
  destruct (prop target key ||| VObj ∅) as [| | | | | | to] eqn:Hto;
    try (destruct Hsome; discriminate).
  destruct (mergeConfig to so) as [m|] eqn:Hm; [| destruct Hsome; discriminate].
  exists to, m. split; [reflexivity |]. split; [exact Hm | exact Hlookup].
Qed.

Lemma at_path_merged_default (source : jsval) :
  forall (target merged so : obj) (pre : list string) (key : string) (post : list string)
         (o : obj),
    source = VObj o ->
    mergeConfig target o = Some merged ->
    at_path source pre = Some (VObj so) ->
    so !! key = None ->
    at_path (VObj merged) (pre ++ key :: post)%list
    = at_path (VObj target) (pre ++ key :: post)%list.
Proof.
  intros target merged so pre. revert source target merged.
  induction pre as [|k pre IH]; intros source target merged key post o -> Hmerge Hpath Hkey.
  - injection Hpath as <-. cbn [app at_path].
    now rewrite (mergeConfig_lookup _ _ _ Hmerge key), Hkey.
  - cbn [app at_path] in *. destruct (o !! k) as [v|] eqn:Hk; [| discriminate].
    cbn [mbind option_bind] in Hpath.
    assert (Hv : exists o', v = VObj o').
    { destruct pre; cbn in Hpath; [injection Hpath as ->; eauto |].
      destruct v; try discriminate. eauto. }
    destruct Hv as [o' ->].
    destruct (mergeConfig_obj _ _ _ _ _ Hmerge Hk) as (to & m & Hto & Hm & ->).
    cbn [mbind option_bind].
    rewrite (IH (VObj o') to m key post o' eq_refl Hm Hpath Hkey).
    unfold prop in Hto. destruct (target !! k) as [old|] eqn:Hold;
      cbv beta iota delta [default from_option id or_else] in Hto.
    + cbn [mbind option_bind].
      destruct (truthy old) eqn:Htruthy; [now rewrite Hto |].
      injection Hto as <-.
      destruct old; try discriminate; destruct pre; reflexivity.
    + cbn in Hto. injection Hto as <-. destruct pre; reflexivity.
Qed.

(** X22. The deep merge, path by path.  Where the options give a value
    that is not a plain object, the merged configuration has that value
    at the same path; and a property that the options do not mention, at
    any depth, has in the merged configuration what the target had
    there: defaults survive unless they are overridden. *)
Theorem mergeConfig_paths (target source merged : obj) :
  mergeConfig target source = Some merged ->
  (forall (path : list string) (leaf : jsval),
     path <> [] ->
     at_path (VObj source) path = Some leaf ->
     (forall o : obj, leaf <> VObj o) ->
     at_path (VObj merged) path = Some leaf)
  /\ (forall (pre : list string) (key : string) (post : list string) (so : obj),
        at_path (VObj source) pre = Some (VObj so) ->
        so !! key = None ->
        at_path (VObj merged) (pre ++ key :: post)%list
        = at_path (VObj target) (pre ++ key :: post)%list).
Proof.
  intros Hmerge. split.
  - intros path. revert target source merged Hmerge.
    induction path as [|k path IH]; intros target source merged Hmerge leaf Hne Hpath Hleaf;
      [contradiction |].
    cbn [at_path] in *. destruct (source !! k) as [v|] eqn:Hk; [| discriminate].
    cbn [mbind option_bind] in Hpath.
    destruct path as [|k' path].
    + injection Hpath as ->.
      rewrite (mergeConfig_lookup _ _ _ Hmerge k), Hk, mergeValue_leaf by exact Hleaf.
      reflexivity.
    + destruct v as [| | | | | | o']; try discriminate.
      destruct (mergeConfig_obj _ _ _ _ _ Hmerge Hk) as (to & m & _ & Hm & ->).
      cbn [mbind option_bind].
      apply (IH to o' m Hm leaf); [discriminate | exact Hpath | exact Hleaf].
  - intros pre key post so Hpath Hkey.
    exact (at_path_merged_default (VObj source) target merged so pre key post source
             eq_refl Hmerge Hpath Hkey).
Qed.

Lemma mergeConfig_paths_witness :
  let options :=
    list_to_map
      [("containerId", VStr "portal-inbox-extension");
       ("portalDataSource",
        object [("baseUrl", VStr "/_api/v9");
                ("operations", object [("create", object [("enabled", VBool false)])])])] in
  match mergeConfig defaultConfig options with
  | Some merged =>
      at_path (VObj merged) ["portalDataSource"; "operations"; "create"; "enabled"]
      = Some (VBool false)
      /\ at_path (VObj merged) ["portalDataSource"; "operations"; "update"; "enabled"]
         = Some (VBool true)
  | None => False
  end.
Proof.
  intros options.
  assert (Hsome : from_option (fun _ => true) false (mergeConfig defaultConfig options) = true)
    by vm_refl.
  destruct (mergeConfig defaultConfig options) as [merged|] eqn:Hmerge; [| discriminate].
  destruct (mergeConfig_paths defaultConfig options merged Hmerge) as [Hset Hkept].
  split.
  - apply Hset; [discriminate | vm_refl | discriminate].
  - etransitivity.
    + apply (Hkept ["portalDataSource"; "operations"] "update" ["enabled"]
               (list_to_map [("create", object [("enabled", VBool false)])])); vm_refl.
    + vm_refl.
Defined.

Lemma or_else_obj (o : obj) (b : jsval) : VObj o ||| b = VObj o.
Proof. reflexivity. Qed.

Lemma mergeValue_idempotent (value : jsval) :
  forall old new : jsval,
    mergeValue value old = Some new -> mergeValue value new = Some new.
Proof.
  induction value as [value Hleaf | source IH] using jsval_obj_ind; intros old new Hnew.
  - rewrite mergeValue_leaf in * by exact Hleaf. exact Hnew.
  - rewrite mergeValue_obj in *.
    destruct (old ||| VObj ∅) as [| | | | | | target]; try discriminate.
    destruct (mergeConfig target source) as [merged|] eqn:Hmerge; [| discriminate].
    injection Hnew as <-. rewrite or_else_obj.
    enough (Hagain : mergeConfig merged source = Some merged) by now rewrite Hagain.
    assert (Hstep : forall (key : string) (value : jsval),
               source !! key = Some value ->
               mergeValue value (prop merged key) = merged !! key).
    { intros key value Hkey.
      pose proof (mergeConfig_lookup _ _ _ Hmerge key) as Hlookup. rewrite Hkey in Hlookup.
      assert (Hsome : is_Some (merged !! key)).
      { rewrite Hlookup. unfold mergeConfig in Hmerge.
        destruct (plainKeys source); [| discriminate].
        apply (mergeWith_steps _ _ _ Hmerge key). now rewrite lookup_fmap, Hkey. }
      destruct Hsome as [new Hnew]. unfold prop. rewrite Hnew. cbn [default].
      rewrite Hnew in Hlookup. symmetry in Hlookup.
      exact (IH key value Hkey _ _ Hlookup). }
    unfold mergeConfig in *. destruct (plainKeys source); [| discriminate].
    destruct (mergeWith_Some (mergeValue <$> source) merged) as [again Hagain].
    { intros key f. rewrite lookup_fmap. destruct (source !! key) as [value|] eqn:Hkey;
        [| discriminate]. intros [= <-]. rewrite (Hstep key value Hkey).
      pose proof (mergeWith_lookup _ _ _ Hmerge key) as Hlookup.
      rewrite lookup_fmap, Hkey in Hlookup. cbn in Hlookup. rewrite Hlookup.
      apply (mergeWith_steps _ _ _ Hmerge key). now rewrite lookup_fmap, Hkey. }
    rewrite Hagain. f_equal. apply map_eq. intros key.
    rewrite (mergeWith_lookup _ _ _ Hagain key), lookup_fmap.
    destruct (source !! key) as [value|] eqn:Hkey; [| reflexivity].
    cbn. exact (Hstep key value Hkey).
Qed.

(** X23. Merging is idempotent: merging the same options into the
    merged configuration once more changes nothing, so initialising
    twice with the same options gives the configuration of a single
    initialisation. *)
Theorem mergeConfig_idempotent (target source merged : obj) :
  mergeConfig target source = Some merged ->
  mergeConfig merged source = Some merged.
Proof.
  intros Hmerge.
  pose proof (mergeValue_idempotent (VObj source) (VObj target) (VObj merged)) as Hagain.
  rewrite !mergeValue_obj, !or_else_obj, Hmerge in Hagain. specialize (Hagain eq_refl).
  destruct (mergeConfig merged source) as [again|]; [| discriminate].
  now injection Hagain as ->.
Qed.

Lemma mergeConfig_idempotent_witness :
  let options : obj := list_to_map [("containerId", VStr "portal-inbox-extension")] in
  mergeConfig (<["containerId" := VStr "portal-inbox-extension"]> defaultConfig) options
  = Some (<["containerId" := VStr "portal-inbox-extension"]> defaultConfig).
Proof.
  intros options. apply (mergeConfig_idempotent defaultConfig). vm_refl.
Defined.

(** ** Initialisation *)




